(** * tensorPack: coupled tensor factorisation (tensorpack/coupled.py)

    A shallow embedding of [tensorpack/coupled.py] and of the parts of
    numpy, tensorly and xarray it calls, followed by the properties of the
    specification checked against it.

    Scalars are IEEE-754 binary64 numbers (numpy's float64), modelled by
    Rocq's primitive floats.  Python exceptions are values of an error
    monad.  The two dense solvers the program treats as black boxes
    ([np.linalg.svd], [np.linalg.lstsq]) are section variables. *)

From Stdlib Require Import String Ascii ZArith Lia Bool Arith PeanoNat List.
From Stdlib Require Import Floats.
Import ListNotations.

Set Implicit Arguments.

(* ================================================================== *)
(** ** Python exceptions as an error monad *)

Module Py.

Inductive exn : Type :=
| ValueError       (* numpy / xarray shape and argument errors, AxisError *)
| IndexError
| KeyError
| TypeError
| AttributeError
| NameError
| AssertionError
| ZeroDivisionError
| LinAlgError.

Inductive result (A : Type) : Type :=
| Ok (a : A)
| Raise (e : exn).

Arguments Ok {A} a.
Arguments Raise {A} e.

Definition bind {A B} (m : result A) (k : A -> result B) : result B :=
  match m with
  | Ok a => k a
  | Raise e => Raise e
  end.

Definition is_ok {A} (m : result A) : bool :=
  match m with Ok _ => true | Raise _ => false end.

(** [assert c] *)
Definition assert (c : bool) : result unit :=
  if c then Ok tt else Raise AssertionError.

(** A list comprehension / for loop whose body may raise: the first
    exception aborts the traversal. *)
Fixpoint mapM {A B} (f : A -> result B) (l : list A) : result (list B) :=
  match l with
  | [] => Ok []
  | a :: l' =>
      bind (f a) (fun b => bind (mapM f l') (fun bs => Ok (b :: bs)))
  end.

(** A for loop threading a state through a body that may raise. *)
Fixpoint foldM {A S} (f : S -> A -> result S) (l : list A) (s : S)
  : result S :=
  match l with
  | [] => Ok s
  | a :: l' => bind (f s a) (foldM f l')
  end.

End Py.

Import Py.

Declare Scope py_scope.
Delimit Scope py_scope with py.
Notation "x <- m ;; k" := (bind m (fun x => k))
  (at level 61, m at next level, right associativity) : py_scope.
Notation "m ;;; k" := (bind m (fun _ => k))
  (at level 61, right associativity) : py_scope.
Open Scope py_scope.

(* ================================================================== *)
(** ** numpy: dense arrays of float64 *)

Module Np.

(** An [np.ndarray] of dtype float64 in C (row-major) order. *)
Record ndarray : Type := mk_nd { shape : list nat; data : list float }.

Definition ndim (a : ndarray) : nat := length (shape a).

(** Number of entries of an array of shape [sh]. *)
Definition size (sh : list nat) : nat := fold_right Nat.mul 1 sh.

(** Equality of shapes. *)
Fixpoint shape_eqb (s t : list nat) : bool :=
  match s, t with
  | [], [] => true
  | m :: s', n :: t' => (m =? n) && shape_eqb s' t'
  | _, _ => false
  end.

(** The array is consistent: as many entries as its shape says. *)
Definition wf_nd (a : ndarray) : bool := length (data a) =? size (shape a).

(** All multi-indices of a shape, in row-major order. *)
Fixpoint indices (sh : list nat) : list (list nat) :=
  match sh with
  | [] => [[]]
  | n :: sh' => flat_map (fun i => map (cons i) (indices sh')) (seq 0 n)
  end.

(** Row-major offset of a multi-index. *)
Fixpoint ravel_index (sh idx : list nat) : nat :=
  match sh, idx with
  | _ :: sh', i :: idx' => i * size sh' + ravel_index sh' idx'
  | _, _ => 0
  end.

(** [a[idx]] *)
Definition item (a : ndarray) (idx : list nat) : float :=
  nth (ravel_index (shape a) idx) (data a) 0%float.

Definition full (sh : list nat) (v : float) : ndarray :=
  mk_nd sh (repeat v (size sh)).

(** [np.ones(sh)] *)
Definition ones (sh : list nat) : ndarray := full sh 1%float.

(** The largest extent, and the largest number of bytes, of an array:
    [np.iinfo(np.intp).max], 2^63 - 1. *)
Definition max_intp : Z := 9223372036854775807.

(** Whether numpy creates a float64 array of shape [(n, k)], [k] a Python
    integer.  It refuses a negative extent ("negative dimensions are not
    allowed"), an extent above [max_intp] ("Maximum allowed dimension
    exceeded") and more than [max_intp] bytes ("array is too big"; extents
    of zero are left out of that product), each with ValueError.  Running
    out of memory below these limits depends on the machine and is not
    modelled. *)
Definition alloc_ok (n : nat) (k : Z) : bool :=
  (0 <=? k)%Z && (k <=? max_intp)%Z
  && (8 * (if (n =? 0)%nat then 1 else Z.of_nat n)
        * (if (k =? 0)%Z then 1 else k) <=? max_intp)%Z.

(** [np.ones((n, k))] where [k] is a Python integer. *)
Definition ones_Z (n : nat) (k : Z) : result ndarray :=
  if alloc_ok n k then Ok (ones [n; Z.to_nat k]) else Raise ValueError.

(** [np.ones_like(a)] *)
Definition ones_like (a : ndarray) : ndarray := ones (shape a).

(** [np.isfinite], elementwise. *)
Definition isfinite (x : float) : bool := PrimFloat.is_finite x.

(** Largest finite float64, [np.finfo(np.float64).max]. *)
Definition DBL_MAX : float := 0x1.fffffffffffffp+1023%float.

(** [np.nan_to_num] with its defaults: NaN becomes 0.0, +inf the largest
    finite float64, -inf the most negative one. *)
Definition nan_to_num1 (x : float) : float :=
  if PrimFloat.is_nan x then 0%float
  else if PrimFloat.is_infinity x then
         (if PrimFloat.ltb x 0%float then (- DBL_MAX)%float else DBL_MAX)
  else x.

Definition nan_to_num (a : ndarray) : ndarray :=
  mk_nd (shape a) (map nan_to_num1 (data a)).

(** A boolean array used as a factor is cast to 0.0 / 1.0. *)
Definition of_bool (b : bool) : float := if b then 1%float else 0%float.

(** Sum of squares, accumulated from the left ([x.dot(x)] of the
    flattened array). *)
Definition sumsq (l : list float) : float :=
  fold_left (fun acc x => (acc + x * x)%float) l 0%float.

(** [np.linalg.norm(a)] with its defaults: the 2-norm of the flattened
    array. *)
Definition norm (l : list float) : float := PrimFloat.sqrt (sumsq l).

(** [x ** 2.0] on a float64 scalar. *)
Definition sq (x : float) : float := (x * x)%float.

(** Row [i] of a 2-D array with [c] columns. *)
Definition row (c : nat) (l : list float) (i : nat) : list float :=
  firstn c (skipn (i * c) l).

Definition nrows (a : ndarray) : nat := nth 0 (shape a) 0.
Definition ncols (a : ndarray) : nat := nth 1 (shape a) 0.

Definition is_2d (a : ndarray) : bool := ndim a =? 2.

(** [np.concatenate(arrs, axis=1)] on 2-D operands.  An empty list is
    refused ("need at least one array to concatenate"), and so are
    operands whose row counts differ.  The program only passes results
    of [tl.unfold], which are 2-D; other ranks are reported as
    ValueError here. *)
Definition concatenate1 (arrs : list ndarray) : result ndarray :=
  match arrs with
  | [] => Raise ValueError
  | a :: rest =>
      if forallb is_2d arrs
         && forallb (fun b => nrows b =? nrows a) rest
      then Ok (mk_nd [nrows a; list_sum (map ncols arrs)]
                 (flat_map (fun i =>
                    flat_map (fun b => row (ncols b) (data b) i) arrs)
                    (seq 0 (nrows a))))
      else Raise ValueError
  end.

(** [np.concatenate(arrs, axis=0)] on 2-D operands: the column counts
    must agree. *)
Definition concatenate0 (arrs : list ndarray) : result ndarray :=
  match arrs with
  | [] => Raise ValueError
  | a :: rest =>
      if forallb is_2d arrs
         && forallb (fun b => ncols b =? ncols a) rest
      then Ok (mk_nd [list_sum (map nrows arrs); ncols a]
                 (flat_map data arrs))
      else Raise ValueError
  end.

(** [a.T] of a 2-D array. *)
Definition transpose (a : ndarray) : ndarray :=
  mk_nd [ncols a; nrows a]
    (flat_map (fun j => map (fun i => item a [i; j]) (seq 0 (nrows a)))
       (seq 0 (ncols a))).

End Np.

Import Np.

(* ================================================================== *)
(** ** tensorly: unfolding, Khatri-Rao product, CP reconstruction *)

Module Tl.

Definition remove_nth {A} (k : nat) (l : list A) : list A :=
  firstn k l ++ skipn (S k) l.

Definition insert_nth {A} (k : nat) (x : A) (l : list A) : list A :=
  firstn k l ++ x :: skipn k l.

(** [np.moveaxis(a, k, 0)]: axis [k] becomes the leading axis, the
    others keep their relative order. *)
Definition moveaxis0 (a : ndarray) (k : nat) : ndarray :=
  let sh := nth k (shape a) 0 :: remove_nth k (shape a) in
  mk_nd sh
    (map (fun idx =>
            match idx with
            | i :: rest => item a (insert_nth k i rest)
            | [] => 0%float
            end)
       (indices sh)).

(** [tl.unfold(a, k)]:
    [reshape(moveaxis(a, k, 0), (a.shape[k], -1))].
    [moveaxis] refuses an axis out of range (AxisError, a ValueError);
    [reshape] cannot infer the [-1] extent when [a.shape[k]] is 0. *)
Definition unfold (a : ndarray) (k : nat) : result ndarray :=
  if ndim a <=? k then Raise ValueError
  else
    let n := nth k (shape a) 0 in
    if n =? 0 then Raise ValueError
    else Ok (mk_nd [n; size (shape a) / n] (data (moveaxis0 a k))).

(** Product of the entries picked in column [r] by a row multi-index,
    one per matrix. *)
Fixpoint kr_entry (ms : list ndarray) (idx : list nat) (r : nat) : float :=
  match ms, idx with
  | m :: ms', i :: idx' => (item m [i; r] * kr_entry ms' idx' r)%float
  | _, _ => 1%float
  end.

(** The entries of the Khatri-Rao product of two or more matrices with
    [c] columns: rows are indexed by the multi-indices of the operands'
    rows in row-major order. *)
Definition kr (ms : list ndarray) (c : nat) : ndarray :=
  mk_nd [size (map nrows ms); c]
    (flat_map (fun idx => map (kr_entry ms idx) (seq 0 c))
       (indices (map nrows ms))).

(** [tl.tenalg.khatri_rao(matrices)].  A single matrix is returned as it
    is; otherwise the column count is read from [matrices[0].shape[1]],
    which raises IndexError on an empty list (and on an operand without a
    second axis), and every operand must be 2-D with that many columns.
    The backend then builds the product and ends with
    [reshape((-1, n_columns))], which numpy refuses with ValueError when
    there is no column, the extent [-1] being undetermined. *)
Definition khatri_rao (ms : list ndarray) : result ndarray :=
  match ms with
  | [m] => Ok m
  | [] => Raise IndexError
  | m0 :: _ =>
      if ndim m0 <? 2 then Raise IndexError
      else if forallb (fun m => is_2d m && (ncols m =? ncols m0)) ms
      then (if ncols m0 =? 0 then Raise ValueError
            else Ok (kr ms (ncols m0)))
      else Raise ValueError
  end.

(** A CP tensor: the weight vector and the factor matrices. *)
Record CPTensor : Type :=
  mk_cp { cp_weights : list float; cp_factors : list ndarray }.

(** [CPTensor((weights, factors))]: the constructor validates its
    argument.  The rank is read from [factors[0]] (IndexError on an empty
    list); every factor must have that many columns and the weights must
    have shape (rank,).  The class only stores 2-D factors; a factor of
    another rank is reported as ValueError here. *)
Definition mk_CPTensor (w : list float) (fs : list ndarray)
  : result CPTensor :=
  match fs with
  | [] => Raise IndexError
  | f0 :: _ =>
      if negb (is_2d f0) then Raise ValueError
      else if negb (forallb (fun f => is_2d f && (ncols f =? ncols f0)) fs)
      then Raise ValueError
      else if negb (length w =? ncols f0) then Raise ValueError
      else Ok (mk_cp w fs)
  end.

(** One entry of the reconstruction: the sum over the components [r] of
    [(factors[0][i0, r] * w[r]) * prod_k factors[k][ik, r]], which is
    [dot(factors[0] * weights, khatri_rao(factors[1:]).T)] entry by entry,
    the sum taken from the left. *)
Definition cp_entry (w : list float) (fs : list ndarray) (idx : list nat)
  : float :=
  match fs, idx with
  | f0 :: fs', i0 :: idx' =>
      fold_left
        (fun acc r =>
           (acc + (item f0 [i0; r] * nth r w 0%float)
                  * kr_entry fs' idx' r)%float)
        (seq 0 (length w)) 0%float
  | _, _ => 0%float
  end.

(** The dense array of a CP tensor, of shape
    (rows of factor 0, rows of factor 1, ...). *)
Definition dense (cp : CPTensor) : ndarray :=
  let sh := map nrows (cp_factors cp) in
  mk_nd sh (map (cp_entry (cp_weights cp) (cp_factors cp)) (indices sh)).

(** [cp.to_tensor()].  With a single factor the result is
    [sum(weights * factors[0], axis=1)]; otherwise it is
    [dot(factors[0] * weights, khatri_rao(factors, skip_matrix=0).T)]
    folded to the shape, so that what [khatri_rao] raises on the factors
    after the first is raised here: with three or more factors and no
    column, ValueError. *)
Definition to_tensor (cp : CPTensor) : result ndarray :=
  match cp_factors cp with
  | [] => Raise IndexError
  | [_] => Ok (dense cp)
  | _ :: rest => khatri_rao rest ;;; Ok (dense cp)
  end.

End Tl.

(* ================================================================== *)
(** ** Python dicts with string keys, in insertion order *)

Module Dict.

Definition dict (V : Type) : Type := list (string * V).

Definition keys {V} (d : dict V) : list string := map fst d.

(** [k in l] *)
Definition mem (k : string) (l : list string) : bool :=
  existsb (String.eqb k) l.

(** [d.get(k)] *)
Fixpoint get {V} (d : dict V) (k : string) : option V :=
  match d with
  | [] => None
  | (k', v) :: d' => if String.eqb k k' then Some v else get d' k
  end.

(** [d[k]] *)
Definition getitem {V} (d : dict V) (k : string) : result V :=
  match get d k with
  | Some v => Ok v
  | None => Raise KeyError
  end.

(** [d[k] = v]: an existing key keeps its position, a new key goes
    last. *)
Fixpoint set {V} (d : dict V) (k : string) (v : V) : dict V :=
  match d with
  | [] => [(k, v)]
  | (k', v') :: d' =>
      if String.eqb k k' then (k', v) :: d' else (k', v') :: set d' k v
  end.

(** [l.index(k)] for a [k] known to be in [l]. *)
Fixpoint index (k : string) (l : list string) : nat :=
  match l with
  | [] => 0
  | k' :: l' => if String.eqb k k' then 0 else S (index k l')
  end.

Fixpoint nodup (l : list string) : bool :=
  match l with
  | [] => true
  | k :: l' => negb (mem k l') && nodup l'
  end.

End Dict.

(* ================================================================== *)
(** ** xarray: labelled datasets *)

Module Xr.

(** A coordinate label: a name, or an integer such as a component
    number. *)
Inductive label : Type :=
| LStr (s : string)
| LInt (z : Z).

Definition label_eqb (a b : label) : bool :=
  match a, b with
  | LStr s, LStr t => String.eqb s t
  | LInt y, LInt z => Z.eqb y z
  | _, _ => false
  end.

(** A data variable: its axis names and its values. *)
Record DataVar : Type := mk_var { v_dims : list string; v_values : ndarray }.

(** An [xr.Dataset] whose axes all carry coordinate labels (the
    specification's data model): [coords] maps every axis name to its
    labels (an index coordinate along the axis of the same name),
    [data_vars] every variable name to its axes and values.  Both are
    kept in the order in which the dataset lists them. *)
Record Dataset : Type :=
  mk_ds { data_vars : Dict.dict DataVar;
          coords : Dict.dict (list label) }.

Definition dim_len (d : Dataset) (a : string) : nat :=
  match Dict.get (coords d) a with
  | Some ls => length ls
  | None => 0
  end.

(** The names of a list in the order of their first occurrence. *)
Fixpoint uniq (l : list string) : list string :=
  match l with
  | [] => []
  | a :: l' => a :: filter (fun b => negb (String.eqb b a)) (uniq l')
  end.

(** The axes in the order of [ds.dims]: xarray records an axis when it
    first meets it, going through the data variables in their order, each
    with its axes in its own order, and then through the coordinates.
    (Every axis is a coordinate name in this data model.) *)
Definition dims_order (d : Dataset) : list string :=
  uniq (filter (fun a => Dict.mem a (Dict.keys (coords d)))
          (flat_map (fun kv => v_dims (snd kv)) (data_vars d))
        ++ Dict.keys (coords d)).

(** [ds.dims]: axis name to length. *)
Definition ds_dims (d : Dataset) : Dict.dict nat :=
  map (fun a => (a, dim_len d a)) (dims_order d).

Definition wf_var (d : Dataset) (v : DataVar) : bool :=
  Dict.nodup (v_dims v)
  && forallb (fun a => Dict.mem a (Dict.keys (coords d))) (v_dims v)
  && shape_eqb (shape (v_values v)) (map (dim_len d) (v_dims v))
  && wf_nd (v_values v).

(** What the [xr.Dataset] constructor guarantees of a dataset: distinct
    variable and axis names, no name used for both, and every variable's
    array agreeing with the lengths of the axes it lists. *)
Definition wf_dataset (d : Dataset) : bool :=
  Dict.nodup (Dict.keys (data_vars d))
  && Dict.nodup (Dict.keys (coords d))
  && forallb (fun k => negb (Dict.mem k (Dict.keys (coords d))))
       (Dict.keys (data_vars d))
  && forallb (fun kv => wf_var d (snd kv)) (data_vars d).

(** [xr.Dataset(data_vars=..., coords=...)]: refuses inconsistent
    arguments with ValueError. *)
Definition Dataset_new (vars : Dict.dict DataVar)
           (cs : Dict.dict (list label)) : result Dataset :=
  if wf_dataset (mk_ds vars cs) then Ok (mk_ds vars cs)
  else Raise ValueError.

(** [ds[name]] for a data variable. *)
Definition getvar (d : Dataset) (k : string) : result DataVar :=
  Dict.getitem (data_vars d) k.

(** [ds[name]] for a coordinate. *)
Definition getcoord (d : Dataset) (k : string) : result (list label) :=
  Dict.getitem (coords d) k.

(** [list(da.coords)] for the DataArray [da] that [ds.data_vars.items()]
    yields for a variable: xarray builds it by going through the
    dataset's own variables in their order and keeping the coordinates
    whose axes are axes of the variable.  The result follows the order of
    the dataset's coordinates, not the order of the variable's axes. *)
Definition da_coords (d : Dataset) (v : DataVar) : list string :=
  filter (fun c => Dict.mem c (v_dims v)) (Dict.keys (coords d)).

(** [ds[name] = values] through a view ([ds[name][:] = ...]): the
    variable keeps its axes. *)
Definition setvalues (d : Dataset) (k : string) (a : ndarray) : Dataset :=
  match Dict.get (data_vars d) k with
  | Some v => mk_ds (Dict.set (data_vars d) k (mk_var (v_dims v) a))
                (coords d)
  | None => d
  end.

(** Position of a label in a coordinate ([.loc] lookup). *)
Fixpoint label_index (l : label) (ls : list label) : option nat :=
  match ls with
  | [] => None
  | l' :: ls' =>
      if label_eqb l l' then Some 0
      else option_map S (label_index l ls')
  end.

End Xr.

Import Xr.

(* ================================================================== *)
(** ** tensorpack/coupled.py *)

(** [xr_unfold(data, mode)]: the unfoldings along [mode] of the variables
    that have it, side by side.  The axis handed to [tl.unfold] is the
    position of [mode] in [list(da.coords)]. *)
Definition xr_unfold (data : Dataset) (mode : string) : result ndarray :=
  arrs <- foldM
            (fun arrs kv =>
               let da := snd kv in
               if Dict.mem mode (da_coords data da)
               then u <- Tl.unfold (v_values da)
                           (Dict.index mode (da_coords data da)) ;;
                    Ok (arrs ++ [u])
               else Ok arrs)
            (data_vars data) [] ;;
  concatenate1 arrs.

(** Entry-wise [tRecon * tMask - tIn]. *)
Fixpoint masked_diff (recon tin : list float) : list float :=
  match recon, tin with
  | r :: recon', t :: tin' =>
      (r * of_bool (isfinite t) - nan_to_num1 t)%float
        :: masked_diff recon' tin'
  | _, _ => []
  end.

(** [calcR2X_TnB(tIn, tRecon)]: numerator and denominator of R2X.  The
    two arrays have the same shape in every state the class builds;
    numpy's broadcasting of unequal shapes is not modelled and is reported
    as ValueError. *)
Definition calcR2X_TnB (tIn tRecon : ndarray) : result (float * float) :=
  if shape_eqb (shape tIn) (shape tRecon)
  then Ok (sq (norm (masked_diff (data tRecon) (data tIn))),
           sq (norm (data (nan_to_num tIn))))
  else Raise ValueError.

(** The object: the factor state [self.x] (factor matrices ["#" + axis] and
    the weight matrix ["*Weight"]), the dataset, the rank, the axes of
    every variable and the cache of unfoldings. *)
Record CoupledTensor : Type :=
  mk_ct { self_x : Dataset;
          self_data : Dataset;
          self_rank : Z;
          self_dims : Dict.dict (list string);
          self_unfold : Dict.dict ndarray }.

(** The values of [np.arange(1, rank + 1)]; none when [rank] is
    negative. *)
Definition arange1 (rank : Z) : list Z :=
  map Z.of_nat (seq 1 (Z.to_nat rank)).

(** [np.arange(1, rank + 1)]: an array of [rank] 64-bit integers, which
    numpy refuses with ValueError when it exceeds [max_intp] bytes. *)
Definition arange1_Z (rank : Z) : result (list Z) :=
  if (8 * rank <=? max_intp)%Z then Ok (arange1 rank) else Raise ValueError.

(** [CoupledTensor.__init__(data, rank)] *)
Definition __init__ (data : Dataset) (rank : Z) : result CoupledTensor :=
  let ncoords := coords data in
  comp <- arange1_Z rank ;;
  let ncoords := Dict.set ncoords "*Component" (map LInt comp) in
  let ncoords :=
    Dict.set ncoords "*Data" (map LStr (Dict.keys (data_vars data))) in
  ndata <- foldM
             (fun ndata dn =>
                o <- ones_Z (snd dn) rank ;;
                Ok (Dict.set ndata (String "#" (fst dn))
                      (mk_var [fst dn; "*Component"%string] o)))
             (ds_dims data) [] ;;
  w <- ones_Z (length (data_vars data)) rank ;;
  let ndata :=
    Dict.set ndata "*Weight" (mk_var ["*Data"; "*Component"]%string w) in
  x <- Dataset_new ndata ncoords ;;
  let dims := map (fun kv => (fst kv, v_dims (snd kv))) (data_vars data) in
  unf <- mapM (fun mmode => u <- xr_unfold data mmode ;; Ok (mmode, u))
           (Dict.keys (coords data)) ;;
  Ok (mk_ct x data rank dims unf).

(** [self.x["*Weight"].loc[dvars, :].to_numpy()] *)
Definition weight_row (x : Dataset) (dvars : string) : result (list float) :=
  w <- getvar x "*Weight" ;;
  ls <- getcoord x (nth 0 (v_dims w) ""%string) ;;
  match label_index (LStr dvars) ls with
  | Some i => Ok (row (ncols (v_values w)) (data (v_values w)) i)
  | None => Raise KeyError
  end.

(** [self.x["#" + mmode].to_numpy()] *)
Definition factor (x : Dataset) (mmode : string) : result ndarray :=
  v <- getvar x (String "#" mmode) ;; Ok (v_values v).

(** [to_CPTensor(dvars)] *)
Definition to_CPTensor (self : CoupledTensor) (dvars : string)
  : result Tl.CPTensor :=
  assert (Dict.mem dvars (Dict.keys (self_dims self))) ;;;
  w <- weight_row (self_x self) dvars ;;
  ds <- Dict.getitem (self_dims self) dvars ;;
  fs <- mapM (factor (self_x self)) ds ;;
  Tl.mk_CPTensor w fs.

(** The pair computed for one variable:
    [calcR2X_TnB(self.data[dvars].to_numpy(),
                 self.to_CPTensor(dvars).to_tensor())]. *)
Definition TnB_of (self : CoupledTensor) (dvars : string)
  : result (float * float) :=
  v <- getvar (self_data self) dvars ;;
  cp <- to_CPTensor self dvars ;;
  t <- Tl.to_tensor cp ;;
  calcR2X_TnB (v_values v) t.

(** [calcR2X(dvars=None)].  Without a variable the two accumulators start
    as Python floats; they become numpy scalars with the first variable
    added, so that the final division raises ZeroDivisionError only when
    there is no variable at all and follows IEEE-754 otherwise. *)
Definition calcR2X (self : CoupledTensor) (dvars : option string)
  : result float :=
  match dvars with
  | None =>
      tb <- foldM
              (fun acc dv =>
                 p <- TnB_of self dv ;;
                 Ok ((fst acc + fst p)%float, (snd acc + snd p)%float))
              (Dict.keys (self_dims self)) (0%float, 0%float) ;;
      match self_dims self with
      | [] => Raise ZeroDivisionError
      | _ => Ok (1 - fst tb / snd tb)%float
      end
  | Some dv =>
      assert (Dict.mem dv (Dict.keys (self_dims self))) ;;;
      p <- TnB_of self dv ;;
      Ok (1 - fst p / snd p)%float
  end.

(** [khatri_rao(mode)]: for every variable that has the axis [mode], the
    Khatri-Rao product of the factor matrices of its other axes, stacked. *)
Definition khatri_rao (self : CoupledTensor) (mode : string)
  : result ndarray :=
  assert (Dict.mem mode (Dict.keys (coords (self_data self)))) ;;;
  arrs <- foldM
            (fun arrs dvars =>
               ds <- Dict.getitem (self_dims self) dvars ;;
               if Dict.mem mode ds
               then fs <- mapM (factor (self_x self))
                            (filter (fun mmode => negb (String.eqb mmode mode))
                               ds) ;;
                    k <- Tl.khatri_rao fs ;;
                    Ok (arrs ++ [k])
               else Ok arrs)
            (Dict.keys (data_vars (self_data self))) [] ;;
  concatenate0 arrs.

(** *** Methods that mutate the factor state

    [self.x] is updated in place, so what was written before an exception
    stays written: a computation takes the factor state and returns the
    state it leaves behind together with its outcome. *)

Definition M (A : Type) : Type := Dataset -> Dataset * result A.

Definition ret {A} (a : A) : M A := fun x => (x, Ok a).

Definition bindM {A B} (m : M A) (k : A -> M B) : M B :=
  fun x =>
    match m x with
    | (x', Ok a) => k a x'
    | (x', Raise e) => (x', Raise e)
    end.

(** An expression that reads the state and may raise. *)
Definition eval {A} (f : Dataset -> result A) : M A := fun x => (x, f x).

(** An in-place update of the state. *)
Definition modify (f : Dataset -> Dataset) : M unit := fun x => (f x, Ok tt).

Notation "x <~ m ;; k" := (bindM m (fun x => k))
  (at level 61, m at next level, right associativity) : py_scope.
Notation "m >> k" := (bindM m (fun _ => k))
  (at level 61, right associativity) : py_scope.

(** [for a in l: body(a)] *)
Fixpoint for_ {A} (l : list A) (body : A -> M unit) : M unit :=
  match l with
  | [] => ret tt
  | a :: l' => body a >> for_ l' body
  end.

(** [if c: body] *)
Definition when (c : bool) (body : M unit) : M unit :=
  if c then body else ret tt.

(** [t[:, :k] = u[:, :k]] on 2-D arrays, with numpy's broadcasting of an
    extent 1 of the right-hand side. *)
Definition set_cols (t u : ndarray) (k : nat) : result ndarray :=
  if negb (is_2d t) then Raise IndexError
  else
    let c := Nat.min k (ncols t) in
    let b := Nat.min k (ncols u) in
    let a := nrows u in
    let n := nrows t in
    if ((a =? n) || (a =? 1)) && ((b =? c) || (b =? 1))
    then Ok (mk_nd (shape t)
               (flat_map
                  (fun i =>
                     map (fun j =>
                            if j <? c
                            then item u [if a =? 1 then 0 else i;
                                         if b =? 1 then 0 else j]
                            else item t [i; j])
                       (seq 0 (ncols t)))
                  (seq 0 n)))
    else Raise ValueError.

Section Solvers.

(** [np.linalg.svd(m)[0]], the matrix of left singular vectors. *)
Variable svd_U : ndarray -> result ndarray.

(** [np.linalg.lstsq(a, b, rcond=None)[0]] *)
Variable lstsq : ndarray -> ndarray -> result ndarray.

(** [initialize(method)] *)
Definition initialize (self : CoupledTensor) (method : string) : M unit :=
  let modes := Dict.keys (ds_dims (self_data self)) in
  when (String.eqb method "ones")
    (for_ modes (fun mmode =>
       t <~ eval (fun x => factor x mmode) ;;
       modify (fun x => setvalues x (String "#" mmode) (ones_like t)))) >>
  when (String.eqb method "svd")
    (for_ modes (fun mmode =>
       m <~ eval (fun _ => Dict.getitem (self_unfold self) mmode) ;;
       u <~ eval (fun _ => svd_U m) ;;
       ls <~ eval (fun x => getcoord x mmode) ;;
       let k := Z.to_nat (Z.min (self_rank self) (Z.of_nat (length ls))) in
       eval (fun _ => if is_2d u then Ok tt else Raise IndexError) >>
       t <~ eval (fun x => factor x mmode) ;;
       t' <~ eval (fun _ => set_cols t u k) ;;
       modify (fun x => setvalues x (String "#" mmode) t'))) >>
  w <~ eval (fun x => getvar x "*Weight") ;;
  modify (fun x => setvalues x "*Weight" (ones_like (v_values w))).

(** The names bound at module level that [perform_CP] can see, by value.
    [coupled.py] binds functions, a class and imported modules; none of
    them is called [cpd]. *)
Definition module_globals : Dict.dict CoupledTensor := [].

(** A free name of a function body: looked up in the module's globals,
    NameError when it is not bound. *)
Definition global (globals : Dict.dict CoupledTensor) (name : string)
  : result CoupledTensor :=
  match Dict.get globals name with
  | Some c => Ok c
  | None => Raise NameError
  end.

(** [perform_CP(tol, maxiter, progress)].  The progress bar only
    displays.  The body of the loop evaluates one least-squares solve on
    the object named [cpd] and drops its result. *)
Definition perform_CP (globals : Dict.dict CoupledTensor)
           (self : CoupledTensor) (tol : float) (maxiter : Z)
           (progress : bool) : M unit :=
  for_ (seq 0 (Z.to_nat maxiter)) (fun i =>
    cpd <~ eval (fun _ => global globals "cpd") ;;
    a <~ eval (fun _ => khatri_rao cpd "month") ;;
    cpd' <~ eval (fun _ => global globals "cpd") ;;
    u <~ eval (fun _ => Dict.getitem (self_unfold cpd') "month") ;;
    eval (fun _ => lstsq a (transpose u)) >>
    ret tt).

End Solvers.

(** *** Reconstruction *)

(** An [xr.DataArray] with its [R2X] attribute. *)
Record DataArray : Type :=
  mk_da { da_name : string;
          da_data : ndarray;
          da_coord : Dict.dict (list label);
          da_R2X : float }.

(** The [xr.Dataset] returned for all variables, with the dict of scores
    in its [R2X] attribute. *)
Record ReconSet : Type :=
  mk_rs { rs_data_vars : Dict.dict DataVar;
          rs_coords : Dict.dict (list label);
          rs_R2X : Dict.dict float }.

Inductive Recon : Type :=
| AllVars (r : ReconSet)
| OneVar (a : DataArray).

(** [list(self.data.data_dvars)].  [Dataset] has no attribute of that
    name, so xarray falls back on its variables and coordinates: one of
    that name is returned as a DataArray and iterated along its first
    axis (TypeError for a 0-d array); otherwise AttributeError.  The
    items are DataArrays; only their number matters here. *)
Definition data_dvars_items (d : Dataset) : result (list unit) :=
  match Dict.get (data_vars d) "data_dvars",
        Dict.get (coords d) "data_dvars" with
  | Some v, _ =>
      match shape (v_values v) with
      | [] => Raise TypeError
      | n :: _ => Ok (repeat tt n)
      end
  | None, Some ls => Ok (repeat tt (length ls))
  | None, None => Raise AttributeError
  end.

(** [xr.DataArray(data=..., coords=..., name=..., attrs=...)]: the
    lengths of the coordinates must be the shape of the data. *)
Definition DataArray_new (a : ndarray) (cs : Dict.dict (list label))
           (name : string) (r2x : float) : result DataArray :=
  if shape_eqb (shape a) (map (fun c => length (snd c)) cs)
  then Ok (mk_da name a cs r2x)
  else Raise ValueError.

(** [reconstruct(dvars=None)].  In the branch for all variables the loop
    variable is a DataArray, which cannot be hashed: [self.dims[dvars]]
    raises TypeError in the first iteration. *)
Definition reconstruct (self : CoupledTensor) (dvars : option string)
  : result Recon :=
  match dvars with
  | None =>
      items <- data_dvars_items (self_data self) ;;
      acc <- foldM
               (fun (acc : Dict.dict DataVar * Dict.dict float) (_ : unit) =>
                  Raise TypeError)
               items ([], []) ;;
      Ok (AllVars (mk_rs (fst acc) (coords (self_data self)) (snd acc)))
  | Some dv =>
      assert (Dict.mem dv (Dict.keys (self_dims self))) ;;;
      cp <- to_CPTensor self dv ;;
      t <- Tl.to_tensor cp ;;
      ds <- Dict.getitem (self_dims self) dv ;;
      cs <- mapM (fun mmode =>
                    ls <- getcoord (self_data self) mmode ;; Ok (mmode, ls))
              ds ;;
      r <- calcR2X self (Some dv) ;;
      a <- DataArray_new t cs dv r ;;
      Ok (OneVar a)
  end.

Local Open Scope string_scope.

(* ================================================================== *)
(** ** The score in closed form *)

(** Sum of a list of float64, from the left, starting at 0.0. *)
Definition fsum (l : list float) : float :=
  fold_left (fun acc x => (acc + x)%float) l 0%float.

(** The array of a variable and its reconstruction, as [calcR2X] obtains
    them. *)
Definition observed_and_recon (self : CoupledTensor) (dvars : string)
  : result (ndarray * ndarray) :=
  v <- getvar (self_data self) dvars ;;
  cp <- to_CPTensor self dvars ;;
  t <- Tl.to_tensor cp ;;
  Ok (v_values v, t).

(** Numerator and denominator of one variable, as the code computes them:
    the observed array is [np.nan_to_num] of the variable's array. *)
Definition R2X_top (p : ndarray * ndarray) : float :=
  sq (norm (masked_diff (data (snd p)) (data (fst p)))).

Definition R2X_bottom (p : ndarray * ndarray) : float :=
  sq (norm (map nan_to_num1 (data (fst p)))).

Definition weighted_R2X (ps : list (ndarray * ndarray)) : float :=
  (1 - fsum (map R2X_top ps) / fsum (map R2X_bottom ps))%float.

(** The same quantities following the specification's words: the observed
    array is the variable's array with its non-finite entries zeroed. *)
Definition zeroed (t : float) : float := if isfinite t then t else 0%float.

Fixpoint spec_masked_diff (recon tin : list float) : list float :=
  match recon, tin with
  | r :: recon', t :: tin' =>
      (r * of_bool (isfinite t) - zeroed t)%float
        :: spec_masked_diff recon' tin'
  | _, _ => []
  end.

Definition spec_top (p : ndarray * ndarray) : float :=
  sq (norm (spec_masked_diff (data (snd p)) (data (fst p)))).

Definition spec_bottom (p : ndarray * ndarray) : float :=
  sq (norm (map zeroed (data (fst p)))).

Definition spec_weighted_R2X (ps : list (ndarray * ndarray)) : float :=
  (1 - fsum (map spec_top ps) / fsum (map spec_bottom ps))%float.

(* ================================================================== *)
(** ** Non-finite values in the accumulators *)

(** A value of one of the two accumulators: 0.0, +inf or NaN. *)
Definition acc_val (x : float) : Prop :=
  x = 0%float \/ x = PrimFloat.infinity \/ x = PrimFloat.nan.

(** Some entry is infinite. *)
Definition has_inf (l : list float) : bool := existsb PrimFloat.is_infinity l.

(* ================================================================== *)
(** ** The object right after construction *)

(** The factor matrices of a variable right after construction. *)
Definition unit_factors (data : Dataset) (rank : Z) (v : DataVar)
  : list ndarray :=
  map (fun d => ones [dim_len data d; Z.to_nat rank]) (v_dims v).

(** The reconstruction of a variable right after construction. *)
Definition unit_recon (data : Dataset) (rank : Z) (v : DataVar) : ndarray :=
  Tl.dense
    (Tl.mk_cp (repeat 1%float (Z.to_nat rank)) (unit_factors data rank v)).

(** The axes of a variable other than [a], in the variable's order. *)
Definition others (a : string) (v : DataVar) : list string :=
  filter (fun d => negb (String.eqb d a)) (v_dims v).

(** Product of the lengths of the axes of a variable other than [a]. *)
Definition other_size (data : Dataset) (a : string) (v : DataVar) : nat :=
  size (map (dim_len data) (others a v)).

(** The sum, over the variables that include the axis [a], of the product
    of the lengths of their other axes. *)
Definition expected_width (data : Dataset) (a : string)
           (vars : Dict.dict DataVar) : nat :=
  list_sum
    (map (fun kv => if Dict.mem a (v_dims (snd kv))
                    then other_size data a (snd kv) else 0)
       vars).

(** The labels of an axis. *)
Definition labels_of (data : Dataset) (a : string) : list label :=
  match Dict.get (coords data) a with
  | Some ls => ls
  | None => []
  end.

(** The Khatri-Rao block of a variable right after construction. *)
Definition unit_kr (data : Dataset) (rank : Z) (a : string) (v : DataVar)
  : ndarray :=
  match map (fun d => ones [dim_len data d; Z.to_nat rank]) (others a v) with
  | [m] => m
  | ms => Tl.kr ms (Z.to_nat rank)
  end.

(** The arrays that the constructor creates at this rank are within
    numpy's limits: the component numbers, a factor matrix per axis and
    the weight matrix. *)
Definition fits (data : Dataset) (rank : Z) : bool :=
  (8 * rank <=? max_intp)%Z
  && forallb (fun a => alloc_ok (dim_len data a) rank)
       (Dict.keys (coords data))
  && alloc_ok (length (data_vars data)) rank.

(** The body of the constructor's loop that creates the factor matrices,
    named for the lemmas about it. *)
Definition make_factors (rank : Z) (ndata : Dict.dict DataVar)
           (dn : string * nat) : result (Dict.dict DataVar) :=
  o <- ones_Z (snd dn) rank ;;
  Ok (Dict.set ndata (String "#" (fst dn))
        (mk_var [fst dn; "*Component"] o)).

(* ================================================================== *)
(** ** The unfolding of one variable *)

(** The block that a variable with the axis [a] contributes to the
    unfolding along [a] when its axes are found at their own positions:
    one row per label of [a], one column per combination of the other
    axes. *)
Definition unfold_block (data : Dataset) (a : string) (v : DataVar)
  : ndarray :=
  mk_nd [dim_len data a; other_size data a v]
    (Np.data (Tl.moveaxis0 (v_values v) (Dict.index a (v_dims v)))).

(** The variables that have the axis [a]. *)
Definition with_axis (a : string) (vars : Dict.dict DataVar)
  : Dict.dict DataVar :=
  filter (fun kv => Dict.mem a (v_dims (snd kv))) vars.

(** Names that the constructor uses for its own entries of the factor
    state: ["#" + axis] for the factor matrices, ["*Weight"],
    ["*Component"] and ["*Data"]. *)
Definition reserved (k : string) : bool :=
  match k with
  | String c _ => Ascii.eqb c "#" || Ascii.eqb c "*"
  | EmptyString => false
  end.

(* ================================================================== *)
(** ** Relations between factor states *)

(** [x'] has the layout of [x]: the same coordinates, the same variable
    names in the same order, and every variable with the same axes and
    an array of the same shape. *)
Definition same_layout (x x' : Dataset) : Prop :=
  coords x' = coords x
  /\ Dict.keys (data_vars x') = Dict.keys (data_vars x)
  /\ forall k v, Dict.get (data_vars x) k = Some v ->
       exists v', Dict.get (data_vars x') k = Some v'
                  /\ v_dims v' = v_dims v
                  /\ shape (v_values v') = shape (v_values v).

(** [x'] has the weight matrix of [x]. *)
Definition same_weights (x x' : Dataset) : Prop :=
  Dict.get (data_vars x') "*Weight" = Dict.get (data_vars x) "*Weight".

(** A computation relates the state it leaves to the state it was given,
    whatever its outcome. *)
Definition preserves (R : Dataset -> Dataset -> Prop) {A} (m : M A) : Prop :=
  forall x, R x (fst (m x)).

(* ================================================================== *)
(** ** genSample *)

(** [genSample()]: three variables over five labelled axes.  The values
    come from [np.random.rand] and are arguments here, flattened in row-major
    order; the seven labels of [time] are the days from 2014-09-06 on,
    written as text. *)
Definition genSample (flop turn river : list float) : Dataset :=
  mk_ds
    [("flop", mk_var ["month"; "time"; "people"; "state"]
                (mk_nd [8; 7; 6; 5] flop));
     ("turn", mk_var ["month"; "time"; "state"] (mk_nd [8; 7; 5] turn));
     ("river", mk_var ["month"; "suit"] (mk_nd [8; 4] river))]
    [("month", map LStr ["January"; "February"; "March"; "April"; "May";
                         "June"; "July"; "August"]);
     ("time", map LStr ["2014-09-06"; "2014-09-07"; "2014-09-08";
                        "2014-09-09"; "2014-09-10"; "2014-09-11";
                        "2014-09-12"]);
     ("people", map LStr ["Liam"; "Olivia"; "Noah"; "Emma"; "Benjamin";
                          "Charlotte"]);
     ("state", map LStr ["Ohio"; "Tennessee"; "Utah"; "Virginia";
                         "Wyoming"]);
     ("suit", map LStr ["Spade"; "Heart"; "Club"; "Diamond"])]%string.

(* ================================================================== *)
(** ** Sample data *)

(** The dataset without variables and without axes. *)
Definition ds_empty : Dataset := mk_ds [] [].

(** Two axes [a] (3 labels) and [b] (2 labels), listed in that order. *)
Definition coords_ab : Dict.dict (list label) :=
  [("a", [LInt 0; LInt 1; LInt 2]); ("b", [LInt 0; LInt 1])].

(** One variable that lists its axes as (b, a): its array is 2x3. *)
Definition ds_ba : Dataset :=
  mk_ds [("v", mk_var ["b"; "a"]
                 (mk_nd [2; 3] [1; 2; 3; 4; 5; 6]%float))]
        coords_ab.

(** The same axes, one variable over (a, b). *)
Definition ds_ab : Dataset :=
  mk_ds [("v", mk_var ["a"; "b"]
                 (mk_nd [3; 2] [1; 2; 3; 4; 5; 6]%float))]
        coords_ab.

(** One variable over the single axis [a]. *)
Definition ds_single : Dataset :=
  mk_ds [("u", mk_var ["a"] (mk_nd [3] [1; 2; 3]%float))]
        [("a", [LInt 0; LInt 1; LInt 2])].

(** A solver standing for [np.linalg.svd]: it gives up on an input with a
    non-finite entry, as LAPACK does ("SVD did not converge"). *)
Definition svd_rejecting (m : ndarray) : result ndarray :=
  if forallb isfinite (data m) then Ok (ones [nrows m; nrows m])
  else Raise LinAlgError.

(** Three declared axes, the last of which no variable uses. *)
Definition ds_unused : Dataset :=
  mk_ds [("v", mk_var ["a"; "b"]
                 (mk_nd [3; 2] [1; 2; 3; 4; 5; 6]%float))]
        [("a", [LInt 0; LInt 1; LInt 2]); ("b", [LInt 0; LInt 1]);
         ("z", [LStr "only"])].

(** A 2x2 variable with one missing (NaN) entry. *)
Definition ds_nan : Dataset :=
  mk_ds [("v", mk_var ["a"; "b"]
                 (mk_nd [2; 2] [1; PrimFloat.nan; 3; 4]%float))]
        [("a", [LInt 0; LInt 1]); ("b", [LInt 0; LInt 1])].

(** A 2x1 variable with one finite and one infinite entry. *)
Definition ds_inf : Dataset :=
  mk_ds [("v", mk_var ["a"; "b"]
                 (mk_nd [2; 1] [1; PrimFloat.infinity]%float))]
        [("a", [LInt 0; LInt 1]); ("b", [LInt 0])].

(** A 2x1 variable without any finite entry. *)
Definition ds_allnan : Dataset :=
  mk_ds [("v", mk_var ["a"; "b"]
                 (mk_nd [2; 1] [PrimFloat.nan; PrimFloat.nan]))]
        [("a", [LInt 0; LInt 1]); ("b", [LInt 0])].

(** Two variables of very different magnitude over the same axes. *)
Definition ds_two : Dataset :=
  mk_ds [("p", mk_var ["a"; "b"] (mk_nd [2; 1] [2; 2]%float));
         ("q", mk_var ["a"; "b"] (mk_nd [2; 1] [10; 10]%float))]
        [("a", [LInt 0; LInt 1]); ("b", [LInt 0])].

(** A solver standing for [np.linalg.svd] that returns a square matrix
    of twos, one row per row of its argument. *)
Definition svd_twos (m : ndarray) : result ndarray :=
  Ok (full [nrows m; nrows m] 2%float).

(** Two variables over one axis each; the second one has a missing
    value.  The coordinates are listed b, a, so that [ds.dims] (a, b)
    and [ds.coords] differ in order. *)
Definition ds_late_nan : Dataset :=
  mk_ds [("p", mk_var ["a"] (mk_nd [2] [1; 2]%float));
         ("q", mk_var ["b"] (mk_nd [2] [PrimFloat.nan; 1]%float))]
        [("b", [LInt 0; LInt 1]); ("a", [LInt 0; LInt 1])].

(** A solver standing for [np.linalg.svd] that gives up on an input with
    a non-finite entry and returns a square matrix of twos otherwise. *)
Definition svd_twos_rejecting (m : ndarray) : result ndarray :=
  if forallb isfinite (data m) then Ok (full [nrows m; nrows m] 2%float)
  else Raise LinAlgError.

(** One variable without any axis (a 0-d array) and no coordinate. *)
Definition ds_scalar : Dataset :=
  mk_ds [("s", mk_var [] (mk_nd [] [5]%float))] [].

(** The object built by the constructor, or a given default. *)
Definition built (data : Dataset) (rank : Z) : CoupledTensor :=
  match __init__ data rank with
  | Ok c => c
  | Raise _ => mk_ct data data rank [] []
  end.

(* ================================================================== *)
(** ** General lemmas *)

Lemma bind_Ok_inv {A B} (m : result A) (k : A -> result B) (b : B) :
  bind m k = Ok b -> exists a, m = Ok a /\ k a = Ok b.
Proof.
  destruct m as [a|e]; simpl; intros H; [exists a; auto | discriminate].
Qed.

Lemma mapM_raise {A B} (f : A -> result B) (l : list A) (a : A) (e : exn) :
  In a l -> f a = Raise e -> exists e', mapM f l = Raise e'.
Proof.
  induction l as [|x l IH]; simpl; [tauto|].
  intros [->|Hin] Hf.
  - rewrite Hf. simpl. eauto.
  - destruct (f x) as [b|e1]; simpl; [|eauto].
    destruct (IH Hin Hf) as [e' ->]. simpl. eauto.
Qed.

Lemma foldM_raise {A S} (f : S -> A -> result S) (l : list A) (a : A) :
  In a l -> (forall s, exists e, f s a = Raise e) ->
  forall s, exists e, foldM f l s = Raise e.
Proof.
  induction l as [|x l IH]; simpl; [tauto|].
  intros [->|Hin] Hf s.
  - destruct (Hf s) as [e ->]. simpl. eauto.
  - destruct (f s x) as [s'|e1]; simpl; [|eauto]. apply IH; auto.
Qed.

Lemma mem_In (k : string) (l : list string) :
  Dict.mem k l = true <-> In k l.
Proof.
  unfold Dict.mem. rewrite existsb_exists. split.
  - intros [x [Hin Heq]]. apply String.eqb_eq in Heq. subst. exact Hin.
  - intros Hin. exists k. split; [exact Hin | apply String.eqb_refl].
Qed.

Lemma mem_false_In (k : string) (l : list string) :
  Dict.mem k l = false <-> ~ In k l.
Proof.
  split.
  - intros H Hin. apply mem_In in Hin. congruence.
  - intros H. destruct (Dict.mem k l) eqn:E; auto.
    apply mem_In in E. contradiction.
Qed.

Lemma get_set_same {V} (d : Dict.dict V) (k : string) (v : V) :
  Dict.get (Dict.set d k v) k = Some v.
Proof.
  induction d as [|[k' v'] d IH]; simpl.
  - now rewrite String.eqb_refl.
  - destruct (String.eqb k k') eqn:E; simpl; rewrite E; auto.
Qed.

Lemma get_set_other {V} (d : Dict.dict V) (k k0 : string) (v : V) :
  k0 <> k -> Dict.get (Dict.set d k v) k0 = Dict.get d k0.
Proof.
  intros Hne. induction d as [|[k' v'] d IH]; simpl.
  - destruct (String.eqb k0 k) eqn:E; auto.
    apply String.eqb_eq in E. contradiction.
  - destruct (String.eqb k k') eqn:E; simpl.
    + apply String.eqb_eq in E. subst k'.
      destruct (String.eqb k0 k) eqn:E0; auto.
      apply String.eqb_eq in E0. contradiction.
    + rewrite IH. reflexivity.
Qed.

Lemma for_state_unchanged {A} (l : list A) (body : A -> M unit) :
  (forall a x, fst (body a x) = x) ->
  forall x, fst (for_ l body x) = x.
Proof.
  intros Hbody. induction l as [|a l IH]; intros x; simpl; [reflexivity|].
  unfold bindM. specialize (Hbody a x).
  destruct (body a x) as [x' [u|e]]; simpl in *; subst x'; auto.
Qed.

Lemma eval_bind_state {A B} (f : Dataset -> result A) (k : A -> M B) :
  (forall a x, fst (k a x) = x) ->
  forall x, fst (bindM (eval f) k x) = x.
Proof.
  intros Hk x. unfold bindM, eval. destruct (f x); simpl; auto.
Qed.

(* ================================================================== *)
(** ** The ALS driver *)

(** X17.  Whatever [cpd] is bound to at module level, whatever the
    least-squares solver returns and however the call ends, [perform_CP]
    hands back the factor state it was given: it never writes a factor or
    a weight. *)
Lemma perform_CP_state_unchanged lstsq globals self tol maxiter progress x :
  fst (perform_CP lstsq globals self tol maxiter progress x) = x.
Proof.
  unfold perform_CP. apply for_state_unchanged. intros i y.
  repeat (apply eval_bind_state; intros ? ?). reflexivity.
Qed.

(** C1 (as the code has it).  In [coupled.py] the name [cpd] is not bound:
    [perform_CP] raises NameError in its first sweep when [maxiter] is
    positive and returns at once otherwise; in both cases the factor state
    is the one it was given: no factor is written back, no score is
    computed and [tol] is never read. *)
Theorem perform_CP_is_a_stub lstsq self tol maxiter progress x :
  perform_CP lstsq module_globals self tol maxiter progress x
  = (x, if (0 <? maxiter)%Z then Raise NameError else Ok tt).
Proof.
  unfold perform_CP. destruct (0 <? maxiter)%Z eqn:E.
  - apply Z.ltb_lt in E.
    destruct (Z.to_nat maxiter) as [|n] eqn:En; [lia|].
    reflexivity.
  - apply Z.ltb_ge in E.
    replace (Z.to_nat maxiter) with 0%nat by lia. reflexivity.
Qed.

(* ================================================================== *)
(** ** Reconstruction of all variables *)

(** The branch for all variables never yields a reconstructed variable:
    when it returns at all, the result set is empty. *)
Lemma reconstruct_all_empty self r :
  reconstruct self None = Ok r ->
  r = AllVars (mk_rs [] (coords (self_data self)) []).
Proof.
  unfold reconstruct.
  destruct (data_dvars_items (self_data self)) as [[|u items]|e]; simpl;
    intros H; try discriminate.
  now inversion H.
Qed.

(** C8 (as the code has it).  [reconstruct()] reads the attribute
    [data_dvars], which a dataset does not have: unless the dataset holds a
    variable or an axis of that very name, the call raises AttributeError
    and no result set is produced. *)
Theorem reconstruct_all_AttributeError self :
  Dict.get (data_vars (self_data self)) "data_dvars" = None ->
  Dict.get (coords (self_data self)) "data_dvars" = None ->
  reconstruct self None = Raise AttributeError.
Proof.
  intros Hv Hc. unfold reconstruct, data_dvars_items.
  now rewrite Hv, Hc.
Qed.

Lemma reconstruct_all_AttributeError_witness :
  Dict.get (data_vars (self_data (built ds_ab 2))) "data_dvars" = None
  /\ Dict.get (coords (self_data (built ds_ab 2))) "data_dvars" = None
  /\ reconstruct (built ds_ab 2) None = Raise AttributeError.
Proof.
  split; [reflexivity|]. split; [reflexivity|].
  apply (@reconstruct_all_AttributeError (built ds_ab 2)); reflexivity.
Defined.

(* ================================================================== *)
(** ** Initialisation with an unknown method *)

Lemma sharp_not_Weight (mmode : string) : String "#" mmode <> "*Weight".
Proof. intros H. discriminate H. Qed.

Lemma getvar_setvalues_same x k a v :
  getvar x k = Ok v ->
  getvar (setvalues x k a) k = Ok (mk_var (v_dims v) a).
Proof.
  unfold getvar, Dict.getitem, setvalues.
  destruct (Dict.get (data_vars x) k) as [v0|] eqn:E; [|discriminate].
  intros H. inversion H. subst v0. simpl. now rewrite get_set_same.
Qed.

Lemma getvar_setvalues_other x k k0 a :
  k0 <> k -> getvar (setvalues x k a) k0 = getvar x k0.
Proof.
  intros Hne. unfold getvar, Dict.getitem, setvalues.
  destruct (Dict.get (data_vars x) k) as [v0|] eqn:E; [|reflexivity].
  simpl. now rewrite get_set_other.
Qed.

Lemma factor_setvalues_Weight x a mmode :
  factor (setvalues x "*Weight" a) mmode = factor x mmode.
Proof.
  unfold factor. rewrite getvar_setvalues_other; [reflexivity|].
  apply sharp_not_Weight.
Qed.

(** C7 (as the code has it).  A method name other than "ones" and "svd"
    is accepted in silence: [initialize] returns normally, leaves every
    factor matrix as it was and resets the weight matrix to ones. *)
Theorem initialize_unknown_method svd_U self method x w :
  method <> "ones" -> method <> "svd" ->
  getvar x "*Weight" = Ok w ->
  let x' := setvalues x "*Weight" (ones_like (v_values w)) in
  initialize svd_U self method x = (x', Ok tt)
  /\ (forall mmode, factor x' mmode = factor x mmode)
  /\ getvar x' "*Weight" = Ok (mk_var (v_dims w) (ones_like (v_values w))).
Proof.
  intros Hones Hsvd Hw x'. split; [|split].
  - unfold initialize, when.
    apply String.eqb_neq in Hones. apply String.eqb_neq in Hsvd.
    rewrite Hones, Hsvd. unfold bindM, ret, eval, modify. now rewrite Hw.
  - intros mmode. apply factor_setvalues_Weight.
  - now apply getvar_setvalues_same.
Qed.

Lemma initialize_unknown_method_witness :
  "random" <> "ones" /\ "random" <> "svd"
  /\ initialize svd_rejecting (built ds_ab 2) "random"
       (self_x (built ds_ab 2))
     = (self_x (built ds_ab 2), Ok tt).
Proof.
  split; [discriminate|]. split; [discriminate|].
  refine (proj1 (@initialize_unknown_method svd_rejecting (built ds_ab 2)
                   "random" (self_x (built ds_ab 2))
                   (mk_var ["*Data"; "*Component"] (ones [1; 2])) _ _ _));
    [discriminate | discriminate | reflexivity].
Defined.

(** The claim of C7 as stated fails: here is an unknown method that
    raises nothing. *)
Lemma initialize_unknown_method_no_error :
  ~ (forall svd_U self method x,
        method <> "ones" -> method <> "svd" ->
        exists e, snd (initialize svd_U self method x) = Raise e).
Proof.
  intros H.
  destruct (H svd_rejecting (built ds_ab 2) "random" (self_x (built ds_ab 2)))
    as [e He]; try discriminate.
Qed.

(* ================================================================== *)
(** ** An axis that no variable uses *)

Lemma mem_filter (p : string -> bool) (k : string) (l : list string) :
  Dict.mem k (filter p l) = true -> p k = true.
Proof.
  intros H. apply mem_In in H. apply filter_In in H. tauto.
Qed.

Lemma foldM_skip {A S} (f : S -> A -> result S) (l : list A) (s : S) :
  (forall a, In a l -> f s a = Ok s) -> foldM f l s = Ok s.
Proof.
  induction l as [|a l IH]; simpl; intros H; [reflexivity|].
  rewrite (H a (or_introl eq_refl)). simpl. apply IH.
  intros b Hb. apply H. now right.
Qed.

(** The unfolding along an axis that no variable has concatenates an
    empty list. *)
Lemma xr_unfold_unused_axis data c :
  (forall kv, In kv (data_vars data) -> Dict.mem c (v_dims (snd kv)) = false) ->
  xr_unfold data c = Raise ValueError.
Proof.
  intros Hunused. unfold xr_unfold.
  rewrite foldM_skip; [reflexivity|].
  intros kv Hin.
  destruct (Dict.mem c (da_coords data (snd kv))) eqn:E; [|reflexivity].
  apply mem_filter in E. rewrite (Hunused kv Hin) in E. discriminate.
Qed.

(** C10.  When the dataset declares an axis that no variable lists among
    its axes, the constructor raises and no object is produced, whatever
    the rank. *)
Theorem init_unused_axis_fails data rank c :
  In c (Dict.keys (coords data)) ->
  (forall kv, In kv (data_vars data) -> Dict.mem c (v_dims (snd kv)) = false) ->
  exists e, __init__ data rank = Raise e.
Proof.
  intros Hc Hunused. unfold __init__.
  do 4 (match goal with
        | |- exists e, bind ?m _ = _ => destruct m; simpl; [|eauto]
        end).
  destruct (mapM_raise
              (fun mmode => u <- xr_unfold data mmode ;; Ok (mmode, u))
              (Dict.keys (coords data)) c (e:=ValueError) Hc) as [e' He'].
  - now rewrite xr_unfold_unused_axis.
  - rewrite He'. simpl. eauto.
Qed.

Lemma init_unused_axis_fails_witness :
  In "z" (Dict.keys (coords ds_unused))
  /\ exists e, __init__ ds_unused 2 = Raise e.
Proof.
  split; [simpl; tauto|].
  apply (@init_unused_axis_fails ds_unused 2 "z"); [simpl; tauto|].
  intros kv [<-|[]]. reflexivity.
Defined.

(** On that dataset the exception is the ValueError of the empty
    concatenation. *)
Lemma init_unused_axis_ValueError : __init__ ds_unused 2 = Raise ValueError.
Proof. reflexivity. Qed.

(* ================================================================== *)
(** ** A variable over a single axis *)

(** C4 (as the code has it).  When a variable lists the target axis as
    its only axis, [khatri_rao] hands an empty list of factor matrices to
    tensorly's Khatri-Rao product, which raises: the call fails and no
    row of ones is contributed. *)
Theorem khatri_rao_single_axis_fails self mode dv :
  In dv (Dict.keys (data_vars (self_data self))) ->
  Dict.get (self_dims self) dv = Some [mode] ->
  exists e, khatri_rao self mode = Raise e.
Proof.
  intros Hin Hdims. unfold khatri_rao.
  destruct (assert _) as [[]|e]; simpl; [|eauto].
  match goal with
  | |- context [foldM ?f ?l ?s] =>
      assert (Hf : forall s0, exists e, f s0 dv = Raise e);
      [|destruct (@foldM_raise _ _ f l dv Hin Hf s) as [e He]]
  end.
  - intros s. unfold Dict.getitem. rewrite Hdims. simpl.
    unfold Dict.mem. simpl. rewrite String.eqb_refl. simpl. eauto.
  - rewrite He. simpl. eauto.
Qed.

Lemma khatri_rao_single_axis_fails_witness :
  In "u" (Dict.keys (data_vars (self_data (built ds_single 2))))
  /\ Dict.get (self_dims (built ds_single 2)) "u" = Some ["a"]
  /\ exists e, khatri_rao (built ds_single 2) "a" = Raise e.
Proof.
  split; [simpl; tauto|]. split; [reflexivity|].
  apply (@khatri_rao_single_axis_fails (built ds_single 2) "a" "u");
    [simpl; tauto | reflexivity].
Defined.

(** On the sample the constructor succeeds, the unfolding along [a] has
    one column, and the exception of [khatri_rao] is IndexError. *)
Lemma khatri_rao_single_axis_IndexError :
  is_ok (__init__ ds_single 2) = true
  /\ Dict.get (self_unfold (built ds_single 2)) "a"
     = Some (mk_nd [3; 1] [1; 2; 3]%float)
  /\ khatri_rao (built ds_single 2) "a" = Raise IndexError.
Proof. repeat split. Qed.

(* ================================================================== *)
(** ** SVD initialisation and missing data *)

(** C6 (as the code has it).  The "svd" branch hands the cached unfolded
    matrix to the solver exactly as it is, non-finite entries included:
    nothing is zero-filled.  The loop follows [list(self.data.dims)], the
    axes in the order in which the variables first list them; when the
    solver gives up on the first of them its exception leaves
    [initialize] with the factor state untouched and the weights not
    reset. *)
Theorem initialize_svd_no_zero_fill svd_U self x a rest m e :
  Dict.keys (ds_dims (self_data self)) = a :: rest ->
  Dict.get (self_unfold self) a = Some m ->
  svd_U m = Raise e ->
  initialize svd_U self "svd" x = (x, Raise e).
Proof.
  intros Hmodes Hm Hsvd. unfold initialize. rewrite Hmodes.
  unfold when. simpl. unfold bindM, ret, eval, Dict.getitem.
  now rewrite Hm, Hsvd.
Qed.

Lemma initialize_svd_no_zero_fill_witness :
  Dict.keys (ds_dims (self_data (built ds_nan 2))) = ["a"; "b"]
  /\ Dict.get (self_unfold (built ds_nan 2)) "a"
     = Some (mk_nd [2; 2] [1; PrimFloat.nan; 3; 4]%float)
  /\ svd_rejecting (mk_nd [2; 2] [1; PrimFloat.nan; 3; 4]%float)
     = Raise LinAlgError
  /\ initialize svd_rejecting (built ds_nan 2) "svd" (self_x (built ds_nan 2))
     = (self_x (built ds_nan 2), Raise LinAlgError).
Proof.
  split; [reflexivity|]. split; [reflexivity|]. split; [reflexivity|].
  apply (@initialize_svd_no_zero_fill svd_rejecting (built ds_nan 2)
           (self_x (built ds_nan 2)) "a" ["b"]
           (mk_nd [2; 2] [1; PrimFloat.nan; 3; 4]%float) LinAlgError);
    reflexivity.
Defined.

(* ================================================================== *)
(** ** The state right after construction *)

Lemma keys_set_incl {V} (d : Dict.dict V) (k k0 : string) (v : V) :
  In k0 (Dict.keys d) -> In k0 (Dict.keys (Dict.set d k v)).
Proof.
  induction d as [|[k' v'] d IH]; simpl; [tauto|].
  destruct (String.eqb k k'); simpl; tauto.
Qed.

Lemma nodup_set {V} (d : Dict.dict V) (k : string) (v : V) :
  Dict.nodup (Dict.keys (Dict.set d k v)) = true ->
  Dict.nodup (Dict.keys d) = true.
Proof.
  induction d as [|[k' v'] d IH]; simpl; [reflexivity|].
  destruct (String.eqb k k'); simpl; [tauto|].
  rewrite !andb_true_iff, !negb_true_iff. intros [Hk' Hnd].
  split; [|auto].
  apply mem_false_In. apply mem_false_In in Hk'.
  intros Hin. apply Hk'. now apply keys_set_incl.
Qed.

Lemma nodup_cons_inv (k : string) (l : list string) :
  Dict.nodup (k :: l) = true -> ~ In k l /\ Dict.nodup l = true.
Proof.
  simpl. rewrite andb_true_iff, negb_true_iff, mem_false_In. tauto.
Qed.

Lemma make_factors_other rank l : forall acc nd a,
  foldM (make_factors rank) l acc = Ok nd ->
  ~ In a (Dict.keys l) ->
  Dict.get nd (String "#" a) = Dict.get acc (String "#" a).
Proof.
  induction l as [|[a' n'] l IH]; simpl; intros acc nd a H Hnin.
  - now inversion H.
  - apply bind_Ok_inv in H. destruct H as [acc' [Hstep Hrest]].
    unfold make_factors in Hstep. simpl in Hstep.
    apply bind_Ok_inv in Hstep. destruct Hstep as [o [_ Hacc']].
    inversion Hacc'. subst acc'.
    rewrite (IH _ _ a Hrest) by tauto.
    apply get_set_other. intros Heq. inversion Heq. subst. tauto.
Qed.

Lemma make_factors_get rank l : forall acc nd a n,
  foldM (make_factors rank) l acc = Ok nd ->
  Dict.nodup (Dict.keys l) = true ->
  In (a, n) l ->
  Dict.get nd (String "#" a)
  = Some (mk_var [a; "*Component"] (ones [n; Z.to_nat rank])).
Proof.
  induction l as [|[a' n'] l IH]; simpl; intros acc nd a n H Hnd Hin;
    [tauto|].
  apply bind_Ok_inv in H. destruct H as [acc' [Hstep Hrest]].
  apply nodup_cons_inv in Hnd. destruct Hnd as [Hnin Hnd].
  destruct Hin as [Heq|Hin].
  - inversion Heq. subst a' n'.
    rewrite (@make_factors_other rank l acc' nd a Hrest Hnin).
    unfold make_factors, ones_Z in Hstep. cbn [fst snd] in Hstep.
    destruct (alloc_ok n rank); cbn [bind] in Hstep; [|discriminate].
    inversion Hstep. apply get_set_same.
  - eapply IH; eauto.
Qed.

Lemma keys_ds_dims data : Dict.keys (ds_dims data) = dims_order data.
Proof.
  unfold ds_dims, Dict.keys. rewrite map_map. cbn [fst]. apply map_id.
Qed.

Lemma In_uniq (l : list string) (x : string) : In x (uniq l) <-> In x l.
Proof.
  induction l as [|a l IH]; cbn [uniq]; [tauto|].
  cbn [In]. rewrite filter_In, IH. split.
  - intros [H|[H _]]; auto.
  - intros [H|H]; [now left|].
    destruct (string_dec a x) as [E|E]; [now left|]. right. split; [exact H|].
    apply negb_true_iff, String.eqb_neq. congruence.
Qed.

Lemma nodup_filter (p : string -> bool) (l : list string) :
  Dict.nodup l = true -> Dict.nodup (filter p l) = true.
Proof.
  induction l as [|a l IH]; cbn [Dict.nodup filter]; [reflexivity|].
  intros H. apply andb_true_iff in H. destruct H as [Ha Hl].
  destruct (p a); [|auto]. cbn [Dict.nodup]. rewrite (IH Hl), andb_true_r.
  apply negb_true_iff. apply negb_true_iff in Ha.
  apply mem_false_In. apply mem_false_In in Ha.
  intros H. apply Ha. apply filter_In in H. tauto.
Qed.

Lemma nodup_uniq (l : list string) : Dict.nodup (uniq l) = true.
Proof.
  induction l as [|a l IH]; cbn [uniq Dict.nodup]; [reflexivity|].
  rewrite (nodup_filter _ _ IH), andb_true_r.
  apply negb_true_iff, mem_false_In. intros H. apply filter_In in H.
  destruct H as [_ H]. now rewrite String.eqb_refl in H.
Qed.

(** The axes of [ds.dims] are the coordinate names, each once. *)
Lemma In_dims_order data a :
  In a (dims_order data) <-> In a (Dict.keys (coords data)).
Proof.
  unfold dims_order. rewrite In_uniq, in_app_iff, filter_In. split.
  - intros [[_ H]|H]; [now apply mem_In | exact H].
  - auto.
Qed.

Lemma nodup_dims_order data : Dict.nodup (dims_order data) = true.
Proof. apply nodup_uniq. Qed.

Lemma nodup_ds_dims data : Dict.nodup (Dict.keys (ds_dims data)) = true.
Proof. rewrite keys_ds_dims. apply nodup_dims_order. Qed.

Lemma In_ds_dims data a n :
  In (a, n) (ds_dims data) <->
  In a (Dict.keys (coords data)) /\ n = dim_len data a.
Proof.
  unfold ds_dims. rewrite in_map_iff. split.
  - intros [b [Hb Hin]]. inversion Hb. subst. split; [|reflexivity].
    now apply In_dims_order.
  - intros [Ha ->]. exists a. split; [reflexivity|].
    now apply In_dims_order.
Qed.

Lemma label_index_names v names :
  In v names ->
  exists i, label_index (LStr v) (map LStr names) = Some i
            /\ i < length names.
Proof.
  induction names as [|k names IH]; simpl; [tauto|].
  intros Hin. destruct (String.eqb v k) eqn:E.
  - exists 0. split; [reflexivity | lia].
  - destruct Hin as [->|Hin]; [now rewrite String.eqb_refl in E|].
    destruct (IH Hin) as [i [Hi Hlt]]. exists (S i). rewrite Hi.
    split; [reflexivity | lia].
Qed.

Lemma skipn_repeat {A} (x : A) n m : skipn n (repeat x (n + m)) = repeat x m.
Proof. induction n; simpl; auto. Qed.

Lemma firstn_repeat {A} (x : A) n m : firstn n (repeat x (n + m)) = repeat x n.
Proof. induction n; simpl; congruence. Qed.

Lemma row_ones (n r i : nat) :
  i < n -> row r (repeat 1%float (size [n; r])) i = repeat 1%float r.
Proof.
  intros Hlt. unfold row, size. simpl.
  replace (n * (r * 1)) with (i * r + (r + (n - i - 1) * r)) by nia.
  rewrite skipn_repeat. apply firstn_repeat.
Qed.

Lemma ones_Z_inv n rank a :
  ones_Z n rank = Ok a -> (0 <= rank)%Z /\ a = ones [n; Z.to_nat rank].
Proof.
  unfold ones_Z. destruct (alloc_ok n rank) eqn:E; [|discriminate].
  unfold alloc_ok in E. rewrite !andb_true_iff in E.
  destruct E as [[E _] _]. apply Z.leb_le in E.
  intros H. inversion H. auto.
Qed.

Lemma arange1_Z_inv rank l : arange1_Z rank = Ok l -> l = arange1 rank.
Proof.
  unfold arange1_Z. destruct (8 * rank <=? max_intp)%Z; [|discriminate].
  intros H. now inversion H.
Qed.

(** What the constructor computes, step by step. *)
Lemma init_inv data rank ct :
  __init__ data rank = Ok ct ->
  exists ndata unf,
    foldM (make_factors rank) (ds_dims data) [] = Ok ndata
    /\ (0 <= rank)%Z
    /\ wf_dataset (self_x ct) = true
    /\ data_vars (self_x ct)
       = Dict.set ndata "*Weight"
           (mk_var ["*Data"; "*Component"]
              (ones [length (data_vars data); Z.to_nat rank]))
    /\ coords (self_x ct)
       = Dict.set (Dict.set (coords data) "*Component"
                     (map LInt (arange1 rank)))
           "*Data" (map LStr (Dict.keys (data_vars data)))
    /\ mapM (fun mmode => u <- xr_unfold data mmode ;; Ok (mmode, u))
         (Dict.keys (coords data)) = Ok unf
    /\ ct = mk_ct (self_x ct) data rank
              (map (fun kv => (fst kv, v_dims (snd kv))) (data_vars data))
              unf.
Proof.
  unfold __init__. intros H.
  apply bind_Ok_inv in H. destruct H as [comp [Hcomp H]].
  apply arange1_Z_inv in Hcomp. subst comp.
  apply bind_Ok_inv in H. destruct H as [ndata [Hnd H]].
  apply bind_Ok_inv in H. destruct H as [w [Hw H]].
  apply bind_Ok_inv in H. destruct H as [x [Hx H]].
  apply bind_Ok_inv in H. destruct H as [unf [Hunf H]].
  apply ones_Z_inv in Hw. destruct Hw as [Hrank ->].
  unfold Dataset_new in Hx.
  match type of Hx with
  | (if ?c then _ else _) = _ => destruct c eqn:Hwf; [|discriminate]
  end.
  inversion Hx. subst x. inversion H. subst ct. simpl.
  exists ndata, unf. repeat split; auto.
Qed.

Lemma init_getvar_weight data rank ct :
  __init__ data rank = Ok ct ->
  getvar (self_x ct) "*Weight"
  = Ok (mk_var ["*Data"; "*Component"]
          (ones [length (data_vars data); Z.to_nat rank])).
Proof.
  intros Hinit.
  destruct (@init_inv data rank ct Hinit)
    as [ndata [unf [_ [_ [_ [Hvars _]]]]]].
  unfold getvar, Dict.getitem. rewrite Hvars. now rewrite get_set_same.
Qed.

Lemma init_nodup_coords data rank ct :
  __init__ data rank = Ok ct ->
  Dict.nodup (Dict.keys (coords data)) = true.
Proof.
  intros Hinit.
  destruct (@init_inv data rank ct Hinit)
    as [ndata [unf [_ [_ [Hwf [_ [Hcoords _]]]]]]].
  unfold wf_dataset in Hwf.
  rewrite !andb_true_iff in Hwf. destruct Hwf as [[[_ Hc] _] _].
  rewrite Hcoords in Hc. apply nodup_set in Hc. now apply nodup_set in Hc.
Qed.

Lemma init_getvar_factor data rank ct a n :
  __init__ data rank = Ok ct ->
  In (a, n) (ds_dims data) ->
  getvar (self_x ct) (String "#" a)
  = Ok (mk_var [a; "*Component"] (ones [n; Z.to_nat rank])).
Proof.
  intros Hinit Hin.
  pose proof (nodup_ds_dims data) as Hnodup.
  destruct (@init_inv data rank ct Hinit)
    as [ndata [unf [Hnd [_ [_ [Hvars _]]]]]].
  unfold getvar, Dict.getitem. rewrite Hvars.
  rewrite get_set_other by apply sharp_not_Weight.
  now rewrite (@make_factors_get rank _ _ _ _ _ Hnd Hnodup Hin).
Qed.

Lemma init_factor data rank ct a n :
  __init__ data rank = Ok ct ->
  In (a, n) (ds_dims data) ->
  factor (self_x ct) a = Ok (ones [n; Z.to_nat rank]).
Proof.
  intros Hinit Hin. unfold factor.
  now rewrite (@init_getvar_factor data rank ct a n Hinit Hin).
Qed.

Lemma init_weight_row data rank ct v :
  __init__ data rank = Ok ct ->
  In v (Dict.keys (data_vars data)) ->
  weight_row (self_x ct) v = Ok (repeat 1%float (Z.to_nat rank)).
Proof.
  intros Hinit Hv. unfold weight_row.
  rewrite (@init_getvar_weight data rank ct Hinit). simpl.
  destruct (@init_inv data rank ct Hinit)
    as [ndata [unf [_ [_ [_ [_ [Hcoords _]]]]]]].
  unfold getcoord, Dict.getitem. rewrite Hcoords, get_set_same. simpl.
  destruct (@label_index_names v _ Hv) as [i [-> Hlt]].
  unfold Dict.keys in Hlt. rewrite length_map in Hlt.
  unfold ncols. simpl. f_equal. now apply row_ones.
Qed.

(* ================================================================== *)
(** ** The global score *)

Lemma shape_eqb_eq (s t : list nat) : shape_eqb s t = true <-> s = t.
Proof.
  revert t. induction s as [|m s IH]; destruct t as [|n t]; simpl;
    try (split; [discriminate | discriminate]); try tauto.
  rewrite andb_true_iff, Nat.eqb_eq, IH. split.
  - intros [-> ->]. reflexivity.
  - intros H. inversion H. auto.
Qed.

Lemma TnB_of_pair self dv p :
  observed_and_recon self dv = Ok p ->
  shape (fst p) = shape (snd p) ->
  TnB_of self dv = Ok (R2X_top p, R2X_bottom p).
Proof.
  unfold observed_and_recon, TnB_of. intros H Hsh.
  destruct (getvar (self_data self) dv) as [v|e]; cbn [bind] in *;
    [|discriminate].
  destruct (to_CPTensor self dv) as [cp|e]; cbn [bind] in *; [|discriminate].
  destruct (Tl.to_tensor cp) as [t|e]; cbn [bind] in *; [|discriminate].
  inversion H. subst p. cbn [fst snd] in Hsh. unfold calcR2X_TnB.
  apply shape_eqb_eq in Hsh. rewrite Hsh. reflexivity.
Qed.

(** The accumulating loop of [calcR2X] in closed form. *)
Lemma calcR2X_loop self : forall l ps t0 b0,
  mapM (observed_and_recon self) l = Ok ps ->
  Forall (fun p => shape (fst p) = shape (snd p)) ps ->
  foldM (fun acc dv =>
           p <- TnB_of self dv ;;
           Ok ((fst acc + fst p)%float, (snd acc + snd p)%float))
        l (t0, b0)
  = Ok (fold_left (fun acc x => (acc + x)%float) (map R2X_top ps) t0,
        fold_left (fun acc x => (acc + x)%float) (map R2X_bottom ps) b0).
Proof.
  induction l as [|dv l IH]; simpl; intros ps t0 b0 Hps Hsh.
  - inversion Hps. reflexivity.
  - apply bind_Ok_inv in Hps. destruct Hps as [p [Hp Hps]].
    apply bind_Ok_inv in Hps. destruct Hps as [ps' [Hps' Hps]].
    inversion Hps. subst ps. inversion Hsh as [|? ? Hp_sh Hsh']. subst.
    rewrite (@TnB_of_pair self dv p Hp Hp_sh). simpl.
    now rewrite (IH ps' _ _ Hps' Hsh').
Qed.

(** Called without a variable on an object with at least one variable,
    [calcR2X] returns
    1 - (sum of the numerators) / (sum of the denominators) over all
    variables, each numerator and denominator as [calcR2X_TnB] computes
    it. *)
Lemma calcR2X_global_weighted self ps :
  self_dims self <> [] ->
  mapM (observed_and_recon self) (Dict.keys (self_dims self)) = Ok ps ->
  Forall (fun p => shape (fst p) = shape (snd p)) ps ->
  calcR2X self None = Ok (weighted_R2X ps).
Proof.
  intros Hne Hps Hsh. unfold calcR2X.
  rewrite (@calcR2X_loop self _ ps 0%float 0%float Hps Hsh). simpl.
  destruct (self_dims self); [contradiction | reflexivity].
Qed.

Lemma calcR2X_global_weighted_witness :
  calcR2X (built ds_two 1) None
  = Ok (weighted_R2X
          [(mk_nd [2; 1] [2; 2]%float, mk_nd [2; 1] [1; 1]%float);
           (mk_nd [2; 1] [10; 10]%float, mk_nd [2; 1] [1; 1]%float)]).
Proof.
  apply (@calcR2X_global_weighted (built ds_two 1)).
  - discriminate.
  - reflexivity.
  - repeat constructor.
Defined.

(** C2 (as the code has it).  [calcR2X_TnB] treats an infinite entry in
    two ways at once: its mask [np.isfinite] drops the entry from the
    reconstruction, while [np.nan_to_num] keeps it in the observed array
    as the largest finite float64.  On the variable [1, inf], where every
    variable has a finite entry, the formula with the non-finite entries
    zeroed gives 1.0; the code's numerator and denominator both overflow
    and it returns NaN. *)
Theorem calcR2X_global_infinite_entry :
  let ps := [(mk_nd [2; 1] [1; PrimFloat.infinity]%float,
              mk_nd [2; 1] [1; 1]%float)] in
  mapM (observed_and_recon (built ds_inf 1))
    (Dict.keys (self_dims (built ds_inf 1))) = Ok ps
  /\ forallb (fun kv => existsb isfinite (data (v_values (snd kv))))
       (data_vars ds_inf) = true
  /\ spec_weighted_R2X ps = 1%float
  /\ calcR2X (built ds_inf 1) None = Ok PrimFloat.nan
  /\ calcR2X (built ds_inf 1) None <> Ok (spec_weighted_R2X ps).
Proof.
  repeat split. intros H. vm_compute in H. discriminate H.
Qed.

(** The global score is not the mean of the scores of the variables: on
    two variables of different magnitude the two differ. *)
Lemma calcR2X_global_not_mean :
  exists g rp rq,
    calcR2X (built ds_two 1) None = Ok g
    /\ calcR2X (built ds_two 1) (Some "p") = Ok rp
    /\ calcR2X (built ds_two 1) (Some "q") = Ok rq
    /\ PrimFloat.eqb g ((rp + rq) / 2)%float = false
    /\ PrimFloat.ltb g ((rp + rq) / 2)%float = true.
Proof. do 3 eexists. repeat split. Qed.

(* ================================================================== *)
(** ** Scoring a variable without any finite entry *)

Lemma SFcompare_finite_refl s m e :
  SFcompare (S754_finite s m e) (S754_finite s m e) = Some Eq.
Proof.
  simpl. destruct s; rewrite Z.compare_refl, ?Pos.compare_refl; simpl;
    rewrite ?Pos.compare_cont_refl; reflexivity.
Qed.

(** A float64 that is not finite is NaN or an infinity. *)
Lemma nonfinite_cases (t : float) :
  isfinite t = false ->
  t = PrimFloat.nan \/ t = PrimFloat.infinity \/ t = PrimFloat.neg_infinity.
Proof.
  unfold isfinite, is_finite, is_nan, is_infinity.
  rewrite !eqb_spec, abs_spec. intros H.
  rewrite <- (SF2Prim_Prim2SF t).
  destruct (Prim2SF t) as [s|s| |s m e] eqn:E.
  - exfalso. destruct s; vm_compute in H; discriminate.
  - destruct s; [right; right | right; left]; reflexivity.
  - left; reflexivity.
  - exfalso. unfold SFeqb in H. rewrite SFcompare_finite_refl in H.
    simpl in H. discriminate.
Qed.

(** Any float64 times 0.0 is a zero or NaN. *)
Lemma mul_zero_cases (r : float) :
  (r * 0 = 0 \/ r * 0 = PrimFloat.neg_zero \/ r * 0 = PrimFloat.nan)%float.
Proof.
  rewrite <- (SF2Prim_Prim2SF (r * 0)%float). rewrite mul_spec.
  destruct (Prim2SF r) as [s|s| |s m e]; try destruct s; vm_compute; auto.
Qed.

Ltac float_cases :=
  repeat match goal with
    | H : _ \/ _ |- _ => destruct H as [H|H]
    | H : _ /\ _ |- _ => destruct H as [? ?]
    end;
  subst; try discriminate.

(** The sum of squares of the masked differences over entries that are
    all non-finite: NaN, or +inf when some entry is infinite, or 0.0 when
    none is. *)
Lemma top_fold_nonfinite : forall tin recon acc,
  length recon = length tin ->
  forallb (fun t => negb (isfinite t)) tin = true ->
  acc_val acc ->
  let s := fold_left (fun a x => (a + x * x)%float)
             (masked_diff recon tin) acc in
  s = PrimFloat.nan
  \/ (s = PrimFloat.infinity
      /\ (acc = PrimFloat.infinity \/ has_inf tin = true))
  \/ (s = 0%float /\ acc = 0%float /\ has_inf tin = false).
Proof.
  induction tin as [|t tin IH]; intros [|r recon] acc Hlen Hnf Hacc;
    try discriminate; simpl.
  - unfold acc_val in Hacc. float_cases; auto.
  - simpl in Hnf. apply andb_true_iff in Hnf. destruct Hnf as [Ht Hnf].
    apply negb_true_iff in Ht. rewrite Ht. simpl of_bool.
    injection Hlen as Hlen.
    set (e := (r * 0 - nan_to_num1 t)%float).
    assert (He : ((acc + e * e)%float = PrimFloat.nan)
                 \/ ((acc + e * e)%float = PrimFloat.infinity
                     /\ (acc = PrimFloat.infinity
                         \/ PrimFloat.is_infinity t = true))
                 \/ ((acc + e * e)%float = 0%float /\ acc = 0%float
                     /\ PrimFloat.is_infinity t = false)).
    { subst e. destruct (mul_zero_cases r) as [Hz|[Hz|Hz]]; rewrite Hz;
        destruct (nonfinite_cases t Ht) as [Hc|[Hc|Hc]]; subst t;
        unfold acc_val in Hacc; float_cases; vm_compute; auto. }
    assert (Hacc' : acc_val (acc + e * e)%float).
    { unfold acc_val.
      destruct He as [He|[[He _]|[He _]]]; rewrite He; auto. }
    specialize (IH recon _ Hlen Hnf Hacc'). cbv zeta in IH.
    destruct IH as [IH|[[IH Hc]|[IH [Hc1 Hc2]]]].
    + auto.
    + right; left. split; [exact IH|].
      destruct Hc as [Hc|Hc]; [|right; now rewrite Hc, orb_true_r].
      destruct He as [He|[[He [He'|He']]|[He _]]].
      * rewrite He in Hc. vm_compute in Hc. discriminate.
      * now left.
      * right. now rewrite He'.
      * rewrite He in Hc. vm_compute in Hc. discriminate.
    + destruct He as [He|[[He _]|[He [He1 He2]]]].
      * rewrite He in Hc1. vm_compute in Hc1. discriminate.
      * rewrite He in Hc1. vm_compute in Hc1. discriminate.
      * right; right. rewrite He2, Hc2. auto.
Qed.

(** The sum of squares of [nan_to_num] of entries that are all
    non-finite: +inf when some entry is infinite, 0.0 when none is. *)
Lemma bottom_fold_nonfinite : forall tin acc,
  forallb (fun t => negb (isfinite t)) tin = true ->
  acc = 0%float \/ acc = PrimFloat.infinity ->
  let b := fold_left (fun a x => (a + x * x)%float)
             (map nan_to_num1 tin) acc in
  (b = PrimFloat.infinity
   /\ (acc = PrimFloat.infinity \/ has_inf tin = true))
  \/ (b = 0%float /\ acc = 0%float /\ has_inf tin = false).
Proof.
  induction tin as [|t tin IH]; intros acc Hnf Hacc; simpl.
  - destruct Hacc as [->| ->]; auto.
  - simpl in Hnf. apply andb_true_iff in Hnf. destruct Hnf as [Ht Hnf].
    apply negb_true_iff in Ht.
    set (e := nan_to_num1 t).
    assert (He : ((acc + e * e)%float = PrimFloat.infinity
                  /\ (acc = PrimFloat.infinity
                      \/ PrimFloat.is_infinity t = true))
                 \/ ((acc + e * e)%float = 0%float /\ acc = 0%float
                     /\ PrimFloat.is_infinity t = false)).
    { subst e. destruct (nonfinite_cases t Ht) as [Hc|[Hc|Hc]]; subst t;
        destruct Hacc as [->| ->]; vm_compute; auto. }
    assert (Hacc' : (acc + e * e)%float = 0%float
                    \/ (acc + e * e)%float = PrimFloat.infinity).
    { destruct He as [[He _]|[He _]]; auto. }
    specialize (IH _ Hnf Hacc'). cbv zeta in IH.
    destruct IH as [[IH Hc]|[IH [Hc1 Hc2]]].
    + left. split; [exact IH|].
      destruct Hc as [Hc|Hc]; [|right; now rewrite Hc, orb_true_r].
      destruct He as [[He [He'|He']]|[He _]].
      * now left.
      * right. now rewrite He'.
      * rewrite He in Hc. vm_compute in Hc. discriminate.
    + destruct He as [[He _]|[He [He1 He2]]].
      * rewrite He in Hc1. vm_compute in Hc1. discriminate.
      * right. rewrite He2, Hc2. auto.
Qed.

Lemma length_indices (sh : list nat) : length (indices sh) = size sh.
Proof.
  induction sh as [|n sh IH]; simpl; [reflexivity|].
  rewrite <- IH. generalize 0 as start.
  induction n as [|n IHn]; intros start; simpl; [reflexivity|].
  now rewrite length_app, length_map, IHn.
Qed.

Lemma length_dense cp :
  length (data (Tl.dense cp)) = size (shape (Tl.dense cp)).
Proof.
  unfold Tl.dense. simpl. now rewrite length_map, length_indices.
Qed.

(** Whenever [to_tensor] returns, it returns the dense array. *)
Lemma to_tensor_inv cp t : Tl.to_tensor cp = Ok t -> t = Tl.dense cp.
Proof.
  unfold Tl.to_tensor. destruct (Tl.cp_factors cp) as [|f0 [|f1 rest]].
  - discriminate.
  - intros H. now inversion H.
  - destruct (Tl.khatri_rao (f1 :: rest)); cbn [bind]; [|discriminate].
    intros H. now inversion H.
Qed.

Lemma length_to_tensor cp t :
  Tl.to_tensor cp = Ok t -> length (data t) = size (shape t).
Proof.
  intros H. apply to_tensor_inv in H. subst t. apply length_dense.
Qed.

(** The score of arrays without any finite entry is NaN. *)
Lemma score_nonfinite (tin recon : list float) :
  length recon = length tin ->
  forallb (fun t => negb (isfinite t)) tin = true ->
  (1 - sq (norm (masked_diff recon tin))
       / sq (norm (map nan_to_num1 tin)))%float = PrimFloat.nan.
Proof.
  intros Hlen Hnf. unfold norm, sumsq.
  pose proof (@top_fold_nonfinite tin recon 0%float Hlen Hnf
                (or_introl eq_refl)) as Ht.
  pose proof (@bottom_fold_nonfinite tin 0%float Hnf (or_introl eq_refl))
    as Hb.
  cbv zeta in Ht, Hb.
  destruct Hb as [[Hb Hbc]|[Hb [_ Hbc]]]; rewrite Hb.
  - destruct Ht as [Ht|[[Ht _]|[Ht [_ Htc]]]]; rewrite Ht;
      try reflexivity.
    destruct Hbc as [Hbc|Hbc]; [vm_compute in Hbc; discriminate|].
    rewrite Hbc in Htc. discriminate.
  - destruct Ht as [Ht|[[Ht Htc]|[Ht _]]]; rewrite Ht; try reflexivity.
    destruct Htc as [Htc|Htc]; [vm_compute in Htc; discriminate|].
    rewrite Hbc in Htc. discriminate.
Qed.

Lemma to_CPTensor_in_dims self dv cp :
  to_CPTensor self dv = Ok cp ->
  Dict.mem dv (Dict.keys (self_dims self)) = true.
Proof.
  unfold to_CPTensor, assert.
  destruct (Dict.mem dv (Dict.keys (self_dims self))); [reflexivity|].
  discriminate.
Qed.

(** C3 (as the code has it).  Scoring a variable whose array has no
    finite entry raises nothing: [calcR2X] returns NaN.  The computation
    only reads the object, so the factor state is the same afterwards. *)
Theorem calcR2X_no_finite_entry self dv p :
  observed_and_recon self dv = Ok p ->
  shape (fst p) = shape (snd p) ->
  wf_nd (fst p) = true ->
  forallb (fun t => negb (isfinite t)) (data (fst p)) = true ->
  calcR2X self (Some dv) = Ok PrimFloat.nan.
Proof.
  intros Hp Hsh Hwf Hnf. unfold calcR2X.
  assert (Hmem : Dict.mem dv (Dict.keys (self_dims self)) = true).
  { unfold observed_and_recon in Hp.
    destruct (getvar (self_data self) dv); [|discriminate].
    cbn [bind] in Hp.
    destruct (to_CPTensor self dv) as [cp|] eqn:Hcp; [|discriminate].
    exact (to_CPTensor_in_dims _ _ Hcp). }
  assert (Hlen : length (data (snd p)) = length (data (fst p))).
  { unfold wf_nd in Hwf. apply Nat.eqb_eq in Hwf. rewrite Hwf, Hsh.
    unfold observed_and_recon in Hp.
    destruct (getvar (self_data self) dv); [|discriminate].
    cbn [bind] in Hp.
    destruct (to_CPTensor self dv) as [cp|]; [|discriminate].
    cbn [bind] in Hp.
    destruct (Tl.to_tensor cp) as [t|] eqn:Ht; [|discriminate].
    inversion Hp. cbn [snd]. exact (length_to_tensor _ Ht). }
  rewrite Hmem. cbn [assert bind].
  rewrite (@TnB_of_pair self dv p Hp Hsh). cbn [bind fst snd].
  f_equal. unfold R2X_top, R2X_bottom.
  now apply score_nonfinite.
Qed.

Lemma calcR2X_no_finite_entry_witness :
  forallb (fun t => negb (isfinite t))
    [PrimFloat.nan; PrimFloat.nan] = true
  /\ calcR2X (built ds_allnan 1) (Some "v") = Ok PrimFloat.nan.
Proof.
  split; [reflexivity|].
  apply (@calcR2X_no_finite_entry (built ds_allnan 1) "v"
           (mk_nd [2; 1] [PrimFloat.nan; PrimFloat.nan],
            mk_nd [2; 1] [1; 1]%float)); reflexivity.
Defined.

(** The claim of C3 as stated fails: on a variable without any finite
    entry the score is returned, and it is NaN. *)
Lemma calcR2X_all_nan_returns_nan :
  forallb (fun kv => negb (existsb isfinite (data (v_values (snd kv)))))
    (data_vars ds_allnan) = true
  /\ is_ok (calcR2X (built ds_allnan 1) (Some "v")) = true
  /\ calcR2X (built ds_allnan 1) (Some "v") = Ok PrimFloat.nan
  /\ ~ (exists e, calcR2X (built ds_allnan 1) (Some "v") = Raise e).
Proof.
  repeat split. intros [e He]. vm_compute in He. discriminate He.
Qed.

(* ================================================================== *)
(** ** Shapes of the unfolding and of the Khatri-Rao matrix *)

(** C5 (as the code has it).  [xr_unfold] takes the axis to unfold from
    the position of the axis name among the coordinates of the variable,
    which follow the order of the dataset's coordinates, not the order of
    the variable's own axes.  For a variable over (b, a) in a dataset whose
    coordinates are listed a, b the unfolding "along a" is made along b:
    the cached matrix has 3 columns while the Khatri-Rao matrix of the same
    axis has 2 rows.  And for a variable over the single axis a the cached
    unfolding has its column while [khatri_rao] raises, so that there is
    no row count at all. *)
Theorem unfold_khatri_rao_shapes_disagree :
  (wf_dataset ds_ba = true
   /\ __init__ ds_ba 2 = Ok (built ds_ba 2)
   /\ exists u k,
        Dict.get (self_unfold (built ds_ba 2)) "a" = Some u
        /\ khatri_rao (built ds_ba 2) "a" = Ok k
        /\ shape u = [2; 3] /\ shape k = [2; 2]
        /\ ncols u <> nrows k)
  /\ (wf_dataset ds_single = true
      /\ __init__ ds_single 2 = Ok (built ds_single 2)
      /\ exists u,
           Dict.get (self_unfold (built ds_single 2)) "a" = Some u
           /\ shape u = [3; 1]
           /\ khatri_rao (built ds_single 2) "a" = Raise IndexError).
Proof.
  split.
  - split; [reflexivity|]. split; [reflexivity|].
    do 2 eexists. repeat split. vm_compute. discriminate.
  - split; [reflexivity|]. split; [reflexivity|].
    eexists. repeat split.
Qed.

(* ================================================================== *)
(** ** The object built from a well-formed dataset *)

Lemma get_In {V} (d : Dict.dict V) (k : string) (v : V) :
  Dict.get d k = Some v -> In (k, v) d.
Proof.
  induction d as [|[k' v'] d IH]; simpl; [discriminate|].
  destruct (String.eqb k k') eqn:E.
  - apply String.eqb_eq in E. subst k'. intros H. inversion H. now left.
  - intros H. right. now apply IH.
Qed.

Lemma In_get_nodup {V} (d : Dict.dict V) (k : string) (v : V) :
  Dict.nodup (Dict.keys d) = true -> In (k, v) d -> Dict.get d k = Some v.
Proof.
  induction d as [|[k' v'] d IH]; simpl; [tauto|].
  intros Hnd Hin. apply andb_true_iff in Hnd. destruct Hnd as [Hk' Hnd].
  apply negb_true_iff, mem_false_In in Hk'.
  destruct Hin as [Heq|Hin].
  - inversion Heq. subst. now rewrite String.eqb_refl.
  - destruct (String.eqb k k') eqn:E; [|auto].
    apply String.eqb_eq in E. subst k'. exfalso. apply Hk'.
    change k with (fst (k, v)). now apply in_map.
Qed.

Lemma get_map_values {V W} (f : V -> W) (d : Dict.dict V) (k : string) :
  Dict.get (map (fun kv => (fst kv, f (snd kv))) d) k
  = option_map f (Dict.get d k).
Proof.
  induction d as [|[k' v'] d IH]; simpl; [reflexivity|].
  destruct (String.eqb k k'); auto.
Qed.

Lemma mapM_map {A B} (f : A -> result B) (g : A -> B) (l : list A) :
  (forall a, In a l -> f a = Ok (g a)) -> mapM f l = Ok (map g l).
Proof.
  induction l as [|a l IH]; simpl; intros H; [reflexivity|].
  rewrite (H a (or_introl eq_refl)). simpl.
  rewrite IH; [reflexivity|]. intros b Hb. apply H. now right.
Qed.

Lemma wf_dataset_var data kv :
  wf_dataset data = true -> In kv (data_vars data) ->
  wf_var data (snd kv) = true.
Proof.
  unfold wf_dataset. rewrite !andb_true_iff. intros [_ Hvars] Hin.
  rewrite forallb_forall in Hvars. now apply Hvars.
Qed.

Lemma wf_dataset_nodup_vars data :
  wf_dataset data = true -> Dict.nodup (Dict.keys (data_vars data)) = true.
Proof. unfold wf_dataset. rewrite !andb_true_iff. tauto. Qed.

Lemma wf_var_inv data v :
  wf_var data v = true ->
  Dict.nodup (v_dims v) = true
  /\ (forall d, In d (v_dims v) -> In d (Dict.keys (coords data)))
  /\ shape (v_values v) = map (dim_len data) (v_dims v)
  /\ length (Np.data (v_values v)) = size (shape (v_values v)).
Proof.
  unfold wf_var, wf_nd. rewrite !andb_true_iff, forallb_forall.
  intros [[[Hnd Hin] Hsh] Hlen]. repeat split; auto.
  - intros d Hd. apply mem_In. auto.
  - now apply shape_eqb_eq.
  - now apply Nat.eqb_eq.
Qed.

Lemma dim_in_ds_dims data d :
  In d (Dict.keys (coords data)) -> In (d, dim_len data d) (ds_dims data).
Proof.
  intros Hin. apply In_ds_dims. auto.
Qed.

Lemma init_self_dims data rank ct :
  __init__ data rank = Ok ct ->
  self_data ct = data
  /\ self_dims ct
     = map (fun kv => (fst kv, v_dims (snd kv))) (data_vars data).
Proof.
  intros Hinit.
  destruct (@init_inv data rank ct Hinit)
    as [ndata [unf [_ [_ [_ [_ [_ [_ Hct]]]]]]]].
  rewrite Hct. simpl. auto.
Qed.

Lemma keys_map_values {V W} (f : V -> W) (d : Dict.dict V) :
  Dict.keys (map (fun kv => (fst kv, f (snd kv))) d) = Dict.keys d.
Proof. unfold Dict.keys. rewrite map_map. reflexivity. Qed.

Lemma init_factors_of_var data rank ct v :
  __init__ data rank = Ok ct ->
  (forall d, In d (v_dims v) -> In d (Dict.keys (coords data))) ->
  forall ds, incl ds (v_dims v) ->
  mapM (factor (self_x ct)) ds
  = Ok (map (fun d => ones [dim_len data d; Z.to_nat rank]) ds).
Proof.
  intros Hinit Hsub ds Hincl. apply mapM_map. intros d Hd.
  apply (@init_factor data rank ct d (dim_len data d) Hinit).
  apply dim_in_ds_dims. auto.
Qed.

Lemma forallb_unit_factors data rank ds :
  forallb (fun m => is_2d m && (ncols m =? Z.to_nat rank)%nat)
    (map (fun d => ones [dim_len data d; Z.to_nat rank]) ds) = true.
Proof.
  induction ds as [|d ds IH]; simpl; [reflexivity|].
  rewrite IH. unfold is_2d, ndim, ncols. simpl. now rewrite Nat.eqb_refl.
Qed.

(** After construction from a well-formed dataset, [to_CPTensor] succeeds
    on every variable that has an axis: unit weights and all-ones
    factors. *)
Lemma to_CPTensor_after_init data rank ct dv v :
  wf_dataset data = true ->
  __init__ data rank = Ok ct ->
  In (dv, v) (data_vars data) ->
  v_dims v <> [] ->
  to_CPTensor ct dv
  = Ok (Tl.mk_cp (repeat 1%float (Z.to_nat rank)) (unit_factors data rank v)).
Proof.
  intros Hwf Hinit Hin Hne.
  destruct (@init_self_dims data rank ct Hinit) as [Hdata Hdims].
  pose proof (@wf_dataset_var data (dv, v) Hwf Hin) as Hv.
  apply wf_var_inv in Hv. destruct Hv as [_ [Hsub _]].
  assert (Hk : In dv (Dict.keys (data_vars data))).
  { change dv with (fst (dv, v)). now apply in_map. }
  unfold to_CPTensor. rewrite Hdims, keys_map_values.
  rewrite (proj2 (mem_In dv _) Hk). cbn [assert bind].
  rewrite (@init_weight_row data rank ct dv Hinit Hk). cbn [bind].
  unfold Dict.getitem. rewrite get_map_values.
  rewrite (In_get_nodup _ _ _ (wf_dataset_nodup_vars _ Hwf) Hin).
  cbn [option_map bind].
  rewrite (@init_factors_of_var data rank ct v Hinit Hsub (v_dims v)
             (incl_refl _)).
  cbn [bind]. unfold Tl.mk_CPTensor, unit_factors.
  destruct (v_dims v) as [|d ds] eqn:Ed; [contradiction|].
  cbn [map]. rewrite <- (map_cons (fun d => ones [dim_len data d; Z.to_nat rank])).
  replace (ncols (ones [dim_len data d; Z.to_nat rank]))
    with (Z.to_nat rank) by reflexivity.
  rewrite forallb_unit_factors.
  replace (is_2d (ones [dim_len data d; Z.to_nat rank])) with true
    by reflexivity.
  rewrite repeat_length, Nat.eqb_refl. reflexivity.
Qed.

Lemma nrows_unit_factors data rank ds :
  map nrows (map (fun d => ones [dim_len data d; Z.to_nat rank]) ds)
  = map (dim_len data) ds.
Proof. rewrite map_map. reflexivity. Qed.

Lemma shape_unit_recon data rank v :
  wf_var data v = true -> shape (unit_recon data rank v) = shape (v_values v).
Proof.
  intros Hv. apply wf_var_inv in Hv. destruct Hv as [_ [_ [Hsh _]]].
  unfold unit_recon, Tl.dense, unit_factors. simpl.
  now rewrite nrows_unit_factors.
Qed.

(** The dense tensor of the all-ones factors of a variable is obtained
    when the rank is positive or the variable has fewer than three
    axes. *)
Lemma to_tensor_unit data rank v :
  v_dims v <> [] ->
  (0 < rank)%Z \/ length (v_dims v) < 3 ->
  Tl.to_tensor
    (Tl.mk_cp (repeat 1%float (Z.to_nat rank)) (unit_factors data rank v))
  = Ok (unit_recon data rank v).
Proof.
  intros Hne Hr. unfold Tl.to_tensor, unit_recon, unit_factors.
  cbn [Tl.cp_factors].
  destruct (v_dims v) as [|d0 [|d1 [|d2 ds]]]; [contradiction| | |];
    try reflexivity.
  destruct Hr as [Hr|Hr]; [|cbn [length] in Hr; lia].
  cbn [map]. unfold Tl.khatri_rao.
  replace (ndim (ones [dim_len data d1; Z.to_nat rank]) <? 2)%nat
    with false by reflexivity.
  replace (ncols (ones [dim_len data d1; Z.to_nat rank]))
    with (Z.to_nat rank) by reflexivity.
  rewrite <- !(map_cons (fun d => ones [dim_len data d; Z.to_nat rank])).
  rewrite forallb_unit_factors.
  destruct (Z.to_nat rank =? 0)%nat eqn:E; [|reflexivity].
  apply Nat.eqb_eq in E. lia.
Qed.

Lemma observed_and_recon_after_init data rank ct dv v :
  wf_dataset data = true ->
  __init__ data rank = Ok ct ->
  In (dv, v) (data_vars data) ->
  v_dims v <> [] ->
  (0 < rank)%Z \/ length (v_dims v) < 3 ->
  observed_and_recon ct dv = Ok (v_values v, unit_recon data rank v).
Proof.
  intros Hwf Hinit Hin Hne Hr. unfold observed_and_recon.
  destruct (@init_self_dims data rank ct Hinit) as [Hdata _].
  rewrite Hdata. unfold getvar, Dict.getitem.
  rewrite (In_get_nodup _ _ _ (wf_dataset_nodup_vars _ Hwf) Hin).
  cbn [bind].
  rewrite (@to_CPTensor_after_init data rank ct dv v Hwf Hinit Hin Hne).
  cbn [bind]. now rewrite (@to_tensor_unit data rank v Hne Hr).
Qed.

(** Right after construction from a well-formed dataset, the score of a
    variable that has an axis is computed without an exception. *)
Lemma calcR2X_after_init data rank ct dv v :
  wf_dataset data = true ->
  __init__ data rank = Ok ct ->
  In (dv, v) (data_vars data) ->
  v_dims v <> [] ->
  (0 < rank)%Z \/ length (v_dims v) < 3 ->
  calcR2X ct (Some dv)
  = Ok (1 - R2X_top (v_values v, unit_recon data rank v)
            / R2X_bottom (v_values v, unit_recon data rank v))%float.
Proof.
  intros Hwf Hinit Hin Hne Hr.
  pose proof (@observed_and_recon_after_init data rank ct dv v
                Hwf Hinit Hin Hne Hr) as Hp.
  pose proof (@wf_dataset_var data (dv, v) Hwf Hin) as Hv.
  pose proof (@shape_unit_recon data rank v Hv) as Hsh.
  unfold calcR2X.
  destruct (@init_self_dims data rank ct Hinit) as [_ Hdims].
  rewrite Hdims, keys_map_values.
  assert (Hk : In dv (Dict.keys (data_vars data))).
  { change dv with (fst (dv, v)). now apply in_map. }
  rewrite (proj2 (mem_In dv _) Hk). cbn [assert bind].
  rewrite (@TnB_of_pair ct dv _ Hp (eq_sym Hsh)). reflexivity.
Qed.

Lemma mapM_observed_after_init data rank ct :
  wf_dataset data = true ->
  __init__ data rank = Ok ct ->
  forall vars, incl vars (data_vars data) ->
  (forall kv, In kv vars ->
     v_dims (snd kv) <> []
     /\ ((0 < rank)%Z \/ length (v_dims (snd kv)) < 3)) ->
  mapM (observed_and_recon ct) (Dict.keys vars)
  = Ok (map (fun kv => (v_values (snd kv), unit_recon data rank (snd kv)))
          vars).
Proof.
  intros Hwf Hinit vars Hincl Hne. unfold Dict.keys.
  induction vars as [|[dv v] vars IH]; simpl; [reflexivity|].
  rewrite (@observed_and_recon_after_init data rank ct dv v Hwf Hinit).
  - cbn [bind]. rewrite IH; [reflexivity | |].
    + intros kv Hkv. apply Hincl. now right.
    + intros kv Hkv. apply Hne. now right.
  - apply Hincl. now left.
  - apply (Hne (dv, v)). now left.
  - apply (Hne (dv, v)). now left.
Qed.

(** The global score right after construction. *)
Lemma calcR2X_global_unit data rank ct :
  wf_dataset data = true ->
  __init__ data rank = Ok ct ->
  data_vars data <> [] ->
  (forall kv, In kv (data_vars data) ->
     v_dims (snd kv) <> []
     /\ ((0 < rank)%Z \/ length (v_dims (snd kv)) < 3)) ->
  calcR2X ct None
  = Ok (weighted_R2X
          (map (fun kv => (v_values (snd kv), unit_recon data rank (snd kv)))
             (data_vars data))).
Proof.
  intros Hwf Hinit Hvars Hne.
  destruct (@init_self_dims data rank ct Hinit) as [_ Hdims].
  unfold calcR2X.
  rewrite (@calcR2X_loop ct (Dict.keys (self_dims ct))
             (map (fun kv => (v_values (snd kv),
                              unit_recon data rank (snd kv)))
                (data_vars data)) 0%float 0%float).
  - cbn [bind fst snd]. rewrite Hdims.
    destruct (data_vars data); [contradiction | reflexivity].
  - rewrite Hdims, keys_map_values.
    apply (@mapM_observed_after_init data rank ct Hwf Hinit);
      [apply incl_refl | exact Hne].
  - apply Forall_forall. intros p Hp. apply in_map_iff in Hp.
    destruct Hp as [kv [<- Hkv]]. cbn [fst snd]. symmetry.
    apply shape_unit_recon. now apply (@wf_dataset_var data kv Hwf).
Qed.

(** X20.  Right after construction with a positive rank from a
    well-formed dataset with a variable, all of whose variables have an
    axis, the global score is returned and is the weighted combination
    over the variables, each compared with the tensor of the all-ones
    factors. *)
Lemma calcR2X_global_after_init data rank ct :
  wf_dataset data = true ->
  (0 < rank)%Z ->
  __init__ data rank = Ok ct ->
  data_vars data <> [] ->
  (forall kv, In kv (data_vars data) -> v_dims (snd kv) <> []) ->
  calcR2X ct None
  = Ok (weighted_R2X
          (map (fun kv => (v_values (snd kv), unit_recon data rank (snd kv)))
             (data_vars data))).
Proof.
  intros Hwf Hrank Hinit Hvars Hne.
  apply (@calcR2X_global_unit data rank ct Hwf Hinit Hvars).
  intros kv Hkv. split; [now apply Hne | now left].
Qed.

(* ================================================================== *)
(** ** Shapes agree when the variables follow the coordinate order *)

Lemma unfold_shape (a : ndarray) (k : nat) (u : ndarray) :
  Tl.unfold a k = Ok u ->
  shape u = [nth k (shape a) 0; size (shape a) / nth k (shape a) 0]
  /\ nth k (shape a) 0 <> 0.
Proof.
  unfold Tl.unfold. destruct (ndim a <=? k)%nat; [discriminate|].
  destruct (nth k (shape a) 0 =? 0)%nat eqn:E; [discriminate|].
  apply Nat.eqb_neq in E. intros H. inversion H. simpl. auto.
Qed.

Lemma filter_notin (a : string) (l : list string) :
  ~ In a l -> filter (fun d => negb (String.eqb d a)) l = l.
Proof.
  induction l as [|d l IH]; simpl; intros Hnin; [reflexivity|].
  destruct (String.eqb d a) eqn:E.
  - apply String.eqb_eq in E. subst. tauto.
  - simpl. rewrite IH; tauto.
Qed.

(** The size of an array splits into the length of one axis and the
    product of the lengths of the others. *)
Lemma size_split (len : string -> nat) (a : string) (dims : list string) :
  Dict.nodup dims = true -> In a dims ->
  size (map len dims)
  = nth (Dict.index a dims) (map len dims) 0
    * size (map len (filter (fun d => negb (String.eqb d a)) dims)).
Proof.
  induction dims as [|d dims IH]; simpl; [tauto|].
  intros Hnd Hin. apply nodup_cons_inv in Hnd. destruct Hnd as [Hnin Hnd].
  destruct (String.eqb a d) eqn:E.
  - apply String.eqb_eq in E. subst d. rewrite String.eqb_refl. simpl.
    now rewrite filter_notin.
  - rewrite String.eqb_sym, E. simpl.
    destruct Hin as [->|Hin]; [now rewrite String.eqb_refl in E|].
    rewrite (IH Hnd Hin). lia.
Qed.

Lemma list_sum_snoc (l : list nat) (n : nat) :
  list_sum (l ++ [n])%list = list_sum l + n.
Proof. rewrite list_sum_app. simpl. lia. Qed.

Lemma expected_width_cons data a kv vars :
  expected_width data a (kv :: vars)
  = (if Dict.mem a (v_dims (snd kv)) then other_size data a (snd kv) else 0)
    + expected_width data a vars.
Proof. reflexivity. Qed.

(** The loop of [xr_unfold]: the column counts of the collected
    unfoldings add up to the expected width. *)
Lemma xr_unfold_loop data a : forall vars arrs0 arrs,
  (forall kv, In kv vars ->
     wf_var data (snd kv) = true
     /\ da_coords data (snd kv) = v_dims (snd kv)) ->
  foldM
    (fun arrs kv =>
       let da := snd kv in
       if Dict.mem a (da_coords data da)
       then u <- Tl.unfold (v_values da)
                   (Dict.index a (da_coords data da)) ;;
            Ok (arrs ++ [u])%list
       else Ok arrs)
    vars arrs0 = Ok arrs ->
  list_sum (map ncols arrs)
  = list_sum (map ncols arrs0) + expected_width data a vars.
Proof.
  induction vars as [|kv vars IH]; intros arrs0 arrs Hvars H.
  - simpl in H. inversion H. unfold expected_width. simpl. lia.
  - cbn [foldM] in H. apply bind_Ok_inv in H.
    destruct H as [arrs1 [Hstep Hrest]].
    destruct (Hvars kv (or_introl eq_refl)) as [Hwf Hord].
    rewrite (IH arrs1 arrs (fun kv' Hin => Hvars kv' (or_intror Hin)) Hrest).
    rewrite expected_width_cons.
    cbv zeta in Hstep. rewrite Hord in Hstep.
    destruct (Dict.mem a (v_dims (snd kv))) eqn:Hmem.
    + apply bind_Ok_inv in Hstep. destruct Hstep as [u [Hu Harrs1]].
      inversion Harrs1. subst arrs1.
      rewrite map_app. cbn [map]. rewrite list_sum_snoc.
      apply unfold_shape in Hu. destruct Hu as [Hsh Hnz].
      apply wf_var_inv in Hwf. destruct Hwf as [Hnd [_ [Hshv _]]].
      apply mem_In in Hmem.
      assert (Hcols : ncols u = other_size data a (snd kv)).
      { unfold ncols. rewrite Hsh. cbn [nth]. rewrite Hshv in *.
        rewrite (size_split (dim_len data) a _ Hnd Hmem) at 1.
        unfold other_size, others.
        rewrite Nat.mul_comm. now apply Nat.div_mul. }
      rewrite Hcols. lia.
    + inversion Hstep. subst arrs1. lia.
Qed.

Lemma concatenate1_ncols arrs u :
  concatenate1 arrs = Ok u -> ncols u = list_sum (map ncols arrs).
Proof.
  unfold concatenate1. destruct arrs as [|a rest]; [discriminate|].
  destruct (_ && _); [|discriminate]. intros H. inversion H. reflexivity.
Qed.

(** Width of the cached unfolding. *)
Lemma xr_unfold_width data a u :
  (forall kv, In kv (data_vars data) ->
     wf_var data (snd kv) = true
     /\ da_coords data (snd kv) = v_dims (snd kv)) ->
  xr_unfold data a = Ok u ->
  ncols u = expected_width data a (data_vars data).
Proof.
  intros Hvars H. unfold xr_unfold in H.
  apply bind_Ok_inv in H. destruct H as [arrs [Hloop Hcat]].
  rewrite (concatenate1_ncols _ Hcat).
  now rewrite (@xr_unfold_loop data a _ [] arrs Hvars Hloop).
Qed.

Lemma mapM_keyed_get {V} (f : string -> result V) (l : list string) :
  forall unf a,
  mapM (fun m => u <- f m ;; Ok (m, u)) l = Ok unf ->
  In a l ->
  exists u, f a = Ok u /\ Dict.get unf a = Some u.
Proof.
  induction l as [|m l IH]; simpl; intros unf a H Hin; [tauto|].
  apply bind_Ok_inv in H. destruct H as [[m' u] [Hm H]].
  apply bind_Ok_inv in Hm. destruct Hm as [u' [Hu Hmu]].
  inversion Hmu. subst m' u'.
  apply bind_Ok_inv in H. destruct H as [unf' [Hunf' H]].
  inversion H. subst unf. simpl.
  destruct (String.eqb a m) eqn:E.
  - apply String.eqb_eq in E. subst m. eauto.
  - destruct Hin as [->|Hin]; [now rewrite String.eqb_refl in E|].
    now apply IH.
Qed.

Lemma others_nonempty (a : string) (v : DataVar) :
  Dict.nodup (v_dims v) = true -> In a (v_dims v) -> v_dims v <> [a] ->
  others a v <> [].
Proof.
  unfold others. destruct (v_dims v) as [|d ds]; simpl; [tauto|].
  intros Hnd Hin Hne. apply nodup_cons_inv in Hnd. destruct Hnd as [Hnin _].
  destruct (String.eqb d a) eqn:E; simpl; [|discriminate].
  apply String.eqb_eq in E. subst d.
  destruct ds as [|d2 ds]; [congruence|]. simpl.
  destruct (String.eqb d2 a) eqn:E2; simpl; [|discriminate].
  apply String.eqb_eq in E2. subst d2. exfalso. apply Hnin. now left.
Qed.

Lemma khatri_rao_unit data rank a v :
  (0 < rank)%Z ->
  others a v <> [] ->
  Tl.khatri_rao
    (map (fun d => ones [dim_len data d; Z.to_nat rank]) (others a v))
  = Ok (unit_kr data rank a v).
Proof.
  intros Hrank.
  unfold unit_kr. destruct (others a v) as [|d1 [|d2 ds]];
    [contradiction | reflexivity |]. intros _.
  set (ms := map (fun d => ones [dim_len data d; Z.to_nat rank])
               (d1 :: d2 :: ds)).
  assert (Hall : forallb (fun m => is_2d m && (ncols m =? Z.to_nat rank)%nat)
                   ms = true) by apply forallb_unit_factors.
  subst ms. cbn [map] in *. unfold Tl.khatri_rao.
  replace (ndim (ones [dim_len data d1; Z.to_nat rank]) <? 2)%nat
    with false by reflexivity.
  replace (ncols (ones [dim_len data d1; Z.to_nat rank]))
    with (Z.to_nat rank) by reflexivity.
  rewrite Hall.
  destruct (Z.to_nat rank =? 0)%nat eqn:E; [|reflexivity].
  apply Nat.eqb_eq in E. lia.
Qed.

Lemma unit_kr_shape data rank a v :
  others a v <> [] ->
  shape (unit_kr data rank a v) = [other_size data a v; Z.to_nat rank].
Proof.
  unfold unit_kr, other_size. destruct (others a v) as [|d1 [|d2 ds]];
    [contradiction | |]; intros _.
  - simpl. now rewrite Nat.mul_1_r.
  - cbn [map]. unfold Tl.kr. cbn [shape map size fold_right].
    rewrite nrows_unit_factors. reflexivity.
Qed.

(** The blocks that [khatri_rao] stacks right after construction. *)
Lemma khatri_rao_loop data rank ct a :
  wf_dataset data = true ->
  (0 < rank)%Z ->
  __init__ data rank = Ok ct ->
  forall vars, incl vars (data_vars data) ->
  (forall kv, In kv vars -> v_dims (snd kv) <> [a]) ->
  forall arrs0,
  foldM
    (fun arrs dvars =>
       ds <- Dict.getitem (self_dims ct) dvars ;;
       if Dict.mem a ds
       then fs <- mapM (factor (self_x ct))
                    (filter (fun mmode => negb (String.eqb mmode a)) ds) ;;
            k <- Tl.khatri_rao fs ;;
            Ok (arrs ++ [k])%list
       else Ok arrs)
    (Dict.keys vars) arrs0
  = Ok (arrs0
          ++ map (fun kv => unit_kr data rank a (snd kv))
               (filter (fun kv => Dict.mem a (v_dims (snd kv))) vars))%list.
Proof.
  intros Hwf Hrank Hinit.
  destruct (@init_self_dims data rank ct Hinit) as [_ Hdims].
  induction vars as [|[dv v] vars IH]; intros Hincl Hne arrs0.
  - simpl. now rewrite app_nil_r.
  - assert (Hin : In (dv, v) (data_vars data)) by (apply Hincl; now left).
    pose proof (@wf_dataset_var data (dv, v) Hwf Hin) as Hv.
    apply wf_var_inv in Hv. destruct Hv as [Hnd [Hsub _]].
    cbn [Dict.keys map foldM fst]. unfold Dict.getitem at 1.
    rewrite Hdims, get_map_values.
    rewrite (In_get_nodup _ _ _ (wf_dataset_nodup_vars _ Hwf) Hin).
    cbn [option_map bind filter snd].
    destruct (Dict.mem a (v_dims v)) eqn:Hmem.
    + rewrite (@init_factors_of_var data rank ct v Hinit Hsub).
      * cbn [bind]. fold (others a v).
        rewrite khatri_rao_unit.
        -- cbn [bind]. rewrite <- Hdims.
           change (map fst vars) with (Dict.keys vars).
           rewrite IH.
           ++ cbn [map snd]. now rewrite <- app_assoc.
           ++ intros kv Hkv. apply Hincl. now right.
           ++ intros kv Hkv. apply Hne. now right.
        -- exact Hrank.
        -- apply others_nonempty; auto.
           ++ now apply mem_In.
           ++ apply (Hne (dv, v)). now left.
      * intros d Hd. apply filter_In in Hd. tauto.
    + cbn [bind]. rewrite <- Hdims.
      change (map fst vars) with (Dict.keys vars). apply IH.
      * intros kv Hkv. apply Hincl. now right.
      * intros kv Hkv. apply Hne. now right.
Qed.

Lemma concatenate0_uniform (r : nat) (arrs : list ndarray) :
  arrs <> [] ->
  (forall m, In m arrs -> exists n, shape m = [n; r]) ->
  exists k, concatenate0 arrs = Ok k
            /\ nrows k = list_sum (map nrows arrs).
Proof.
  intros Hne Hall. unfold concatenate0.
  destruct arrs as [|m0 rest]; [contradiction|].
  assert (H2d : forallb is_2d (m0 :: rest) = true).
  { apply forallb_forall. intros m Hm. destruct (Hall m Hm) as [n Hn].
    unfold is_2d, ndim. now rewrite Hn. }
  assert (Hcols : forallb (fun b => (ncols b =? ncols m0)%nat) rest = true).
  { apply forallb_forall. intros m Hm.
    destruct (Hall m (or_intror Hm)) as [n Hn].
    destruct (Hall m0 (or_introl eq_refl)) as [n0 Hn0].
    unfold ncols. rewrite Hn, Hn0. apply Nat.eqb_refl. }
  rewrite H2d, Hcols. simpl. eexists. split; reflexivity.
Qed.

Lemma list_sum_cons (n : nat) (l : list nat) :
  list_sum (n :: l) = n + list_sum l.
Proof. reflexivity. Qed.

Lemma unit_kr_rows data rank a : forall vars,
  (forall kv, In kv vars ->
     Dict.mem a (v_dims (snd kv)) = true -> others a (snd kv) <> []) ->
  list_sum
    (map nrows
       (map (fun kv => unit_kr data rank a (snd kv))
          (filter (fun kv => Dict.mem a (v_dims (snd kv))) vars)))
  = expected_width data a vars.
Proof.
  induction vars as [|kv vars IH]; intros Hne; [reflexivity|].
  rewrite expected_width_cons. cbn [filter].
  destruct (Dict.mem a (v_dims (snd kv))) eqn:Hmem.
  - cbn [map]. rewrite list_sum_cons.
    rewrite IH by (intros; apply Hne; auto; now right).
    unfold nrows at 1.
    rewrite unit_kr_shape by (apply Hne; auto; now left). reflexivity.
  - rewrite IH by (intros; apply Hne; auto; now right). reflexivity.
Qed.

Lemma xr_unfold_some_var data a u :
  xr_unfold data a = Ok u ->
  filter (fun kv => Dict.mem a (v_dims (snd kv))) (data_vars data) <> [].
Proof.
  intros Hu Hnil.
  assert (Hnone : forall kv, In kv (data_vars data) ->
                             Dict.mem a (v_dims (snd kv)) = false).
  { intros kv Hin.
    destruct (Dict.mem a (v_dims (snd kv))) eqn:E; [|reflexivity].
    assert (Hf : In kv (filter (fun kv => Dict.mem a (v_dims (snd kv)))
                          (data_vars data))) by (apply filter_In; auto).
    rewrite Hnil in Hf. destruct Hf. }
  rewrite (xr_unfold_unused_axis _ _ Hnone) in Hu. discriminate.
Qed.

Lemma init_unfold_get data rank ct a :
  __init__ data rank = Ok ct ->
  In a (Dict.keys (coords data)) ->
  exists u, xr_unfold data a = Ok u /\ Dict.get (self_unfold ct) a = Some u.
Proof.
  intros Hinit Ha.
  destruct (@init_inv data rank ct Hinit)
    as [ndata [unf [_ [_ [_ [_ [_ [Hunf Hct]]]]]]]].
  rewrite Hct. cbn [self_unfold].
  exact (mapM_keyed_get (xr_unfold data) _ a Hunf Ha).
Qed.

(** The Khatri-Rao matrix of an axis right after construction. *)
Lemma khatri_rao_after_init data rank ct a :
  wf_dataset data = true ->
  (0 < rank)%Z ->
  __init__ data rank = Ok ct ->
  In a (Dict.keys (coords data)) ->
  (forall kv, In kv (data_vars data) -> v_dims (snd kv) <> [a]) ->
  exists k,
    khatri_rao ct a = Ok k
    /\ nrows k = expected_width data a (data_vars data).
Proof.
  intros Hwf Hrank Hinit Ha Hne.
  destruct (@init_inv data rank ct Hinit)
    as [ndata [unf [_ [_ [_ [_ [_ [Hunf Hct]]]]]]]].
  destruct (mapM_keyed_get (xr_unfold data) _ a Hunf Ha) as [u [Hu Hget]].
  assert (Hothers : forall kv, In kv (data_vars data) ->
            Dict.mem a (v_dims (snd kv)) = true -> others a (snd kv) <> []).
  { intros kv Hkv Hmem. pose proof (@wf_dataset_var data kv Hwf Hkv) as Hv.
    apply wf_var_inv in Hv. destruct Hv as [Hnd _].
    apply others_nonempty; auto. now apply mem_In. }
  set (blocks := map (fun kv => unit_kr data rank a (snd kv))
                   (filter (fun kv => Dict.mem a (v_dims (snd kv)))
                      (data_vars data))).
  destruct (@concatenate0_uniform (Z.to_nat rank) blocks) as [k [Hk Hrows]].
  { subst blocks. intros Hnil. apply map_eq_nil in Hnil.
    exact (xr_unfold_some_var _ _ Hu Hnil). }
  { subst blocks. intros m Hm. apply in_map_iff in Hm.
    destruct Hm as [kv [<- Hkv]]. apply filter_In in Hkv.
    destruct Hkv as [Hkv Hmem]. eexists. apply unit_kr_shape. auto. }
  exists k. split.
  - unfold khatri_rao.
    destruct (@init_self_dims data rank ct Hinit) as [Hdata _].
    rewrite Hdata. rewrite (proj2 (mem_In a _) Ha). cbn [assert bind].
    rewrite (@khatri_rao_loop data rank ct a Hwf Hrank Hinit (data_vars data)
               (incl_refl _) Hne []).
    cbn [bind app]. exact Hk.
  - rewrite Hrows. subst blocks. now apply unit_kr_rows.
Qed.

(** X4.  At a positive rank, when every variable lists its axes in the
    order of the dataset's coordinates and no variable has the axis [a]
    as its only axis, the shapes agree: the cached unfolding along [a]
    has as many columns as the Khatri-Rao matrix of [a] has rows, namely
    the sum over the variables that include [a] of the product of the
    lengths of their other axes. *)
Lemma unfold_khatri_rao_shapes_agree data rank ct a :
  wf_dataset data = true ->
  (0 < rank)%Z ->
  __init__ data rank = Ok ct ->
  In a (Dict.keys (coords data)) ->
  (forall kv, In kv (data_vars data) ->
     da_coords data (snd kv) = v_dims (snd kv)) ->
  (forall kv, In kv (data_vars data) -> v_dims (snd kv) <> [a]) ->
  exists u k,
    Dict.get (self_unfold ct) a = Some u
    /\ khatri_rao ct a = Ok k
    /\ ncols u = expected_width data a (data_vars data)
    /\ nrows k = expected_width data a (data_vars data).
Proof.
  intros Hwf Hrank Hinit Ha Hord Hne.
  destruct (@init_unfold_get data rank ct a Hinit Ha) as [u [Hu Hget]].
  destruct (@khatri_rao_after_init data rank ct a Hwf Hrank Hinit Ha Hne)
    as [k [Hk Hrows]].
  assert (Hvars : forall kv, In kv (data_vars data) ->
            wf_var data (snd kv) = true
            /\ da_coords data (snd kv) = v_dims (snd kv)).
  { intros kv Hkv. split; [now apply (@wf_dataset_var data kv Hwf) | auto]. }
  exists u, k. split; [exact Hget|]. split; [exact Hk|].
  split; [exact (xr_unfold_width _ _ Hvars Hu) | exact Hrows].
Qed.

Lemma unfold_khatri_rao_shapes_agree_witness :
  wf_dataset ds_ab = true
  /\ exists u k,
       Dict.get (self_unfold (built ds_ab 2)) "a" = Some u
       /\ khatri_rao (built ds_ab 2) "a" = Ok k
       /\ ncols u = 2 /\ nrows k = 2.
Proof.
  split; [reflexivity|].
  destruct (@unfold_khatri_rao_shapes_agree ds_ab 2 (built ds_ab 2) "a")
    as [u [k [Hu [Hk [Hc Hr]]]]]; try reflexivity.
  - simpl; tauto.
  - intros kv [<-|[]]. reflexivity.
  - intros kv [<-|[]]. discriminate.
  - exists u, k. repeat split; assumption.
Defined.

(* ================================================================== *)
(** ** The global score on data without infinite entries *)

Lemma nan_to_num1_zeroed (t : float) :
  PrimFloat.is_infinity t = false -> nan_to_num1 t = zeroed t.
Proof.
  unfold nan_to_num1, zeroed, isfinite, is_finite. intros ->.
  now destruct (is_nan t).
Qed.

Lemma masked_diff_spec : forall tin recon,
  has_inf tin = false -> masked_diff recon tin = spec_masked_diff recon tin.
Proof.
  induction tin as [|t tin IH]; intros [|r recon] Hinf; try reflexivity.
  simpl in Hinf. apply orb_false_iff in Hinf. destruct Hinf as [Ht Hinf].
  simpl. now rewrite nan_to_num1_zeroed, IH.
Qed.

Lemma map_nan_to_num1_zeroed (tin : list float) :
  has_inf tin = false -> map nan_to_num1 tin = map zeroed tin.
Proof.
  induction tin as [|t tin IH]; simpl; intros Hinf; [reflexivity|].
  apply orb_false_iff in Hinf. destruct Hinf as [Ht Hinf].
  now rewrite nan_to_num1_zeroed, IH.
Qed.

(** On variables without infinite entries the code's numerators and
    denominators are those of the specification: non-finite entries are
    zeroed. *)
Lemma weighted_R2X_spec (ps : list (ndarray * ndarray)) :
  Forall (fun p => has_inf (data (fst p)) = false) ps ->
  weighted_R2X ps = spec_weighted_R2X ps.
Proof.
  intros Hps. unfold weighted_R2X, spec_weighted_R2X.
  assert (Ht : map R2X_top ps = map spec_top ps).
  { apply map_ext_in. intros p Hp. rewrite Forall_forall in Hps.
    unfold R2X_top, spec_top. now rewrite masked_diff_spec by auto. }
  assert (Hb : map R2X_bottom ps = map spec_bottom ps).
  { apply map_ext_in. intros p Hp. rewrite Forall_forall in Hps.
    unfold R2X_bottom, spec_bottom.
    now rewrite map_nan_to_num1_zeroed by auto. }
  now rewrite Ht, Hb.
Qed.

(** X18.  When no variable has an infinite entry (missing values, NaN,
    are allowed), the global score of an object with at least one variable
    is one minus the sum over the variables of the squared norms of the
    differences at the observed entries, divided by the sum of the squared
    norms of the variables with their missing entries set to zero. *)
Lemma calcR2X_global_spec_without_infinities self ps :
  self_dims self <> [] ->
  mapM (observed_and_recon self) (Dict.keys (self_dims self)) = Ok ps ->
  Forall (fun p => shape (fst p) = shape (snd p)) ps ->
  Forall (fun p => has_inf (data (fst p)) = false) ps ->
  calcR2X self None = Ok (spec_weighted_R2X ps).
Proof.
  intros Hne Hps Hsh Hinf. rewrite <- (weighted_R2X_spec Hinf).
  unfold calcR2X.
  rewrite (@calcR2X_loop self _ ps 0%float 0%float Hps Hsh). simpl.
  destruct (self_dims self); [contradiction | reflexivity].
Qed.

(* ================================================================== *)
(** ** Reconstruction of one variable right after construction *)

Lemma getcoord_labels data d :
  In d (Dict.keys (coords data)) -> getcoord data d = Ok (labels_of data d).
Proof.
  intros Hin. unfold getcoord, Dict.getitem, labels_of.
  destruct (Dict.get (coords data) d) eqn:E; [reflexivity|].
  exfalso. unfold Dict.keys in Hin.
  induction (coords data) as [|[k v] l IH]; simpl in *; [tauto|].
  destruct (String.eqb d k) eqn:Ek; [discriminate|].
  destruct Hin as [->|Hin]; [now rewrite String.eqb_refl in Ek | auto].
Qed.

Lemma dim_len_labels data d : dim_len data d = length (labels_of data d).
Proof.
  unfold dim_len, labels_of. now destruct (Dict.get (coords data) d).
Qed.

(** The reconstruction of a variable right after construction. *)
Lemma reconstruct_unit data rank ct dv v :
  wf_dataset data = true ->
  __init__ data rank = Ok ct ->
  In (dv, v) (data_vars data) ->
  v_dims v <> [] ->
  (0 < rank)%Z \/ length (v_dims v) < 3 ->
  reconstruct ct (Some dv)
  = Ok (OneVar
          (mk_da dv (unit_recon data rank v)
             (map (fun d => (d, labels_of data d)) (v_dims v))
             (1 - R2X_top (v_values v, unit_recon data rank v)
                  / R2X_bottom (v_values v, unit_recon data rank v))%float)).
Proof.
  intros Hwf Hinit Hin Hne Hrk.
  pose proof (@calcR2X_after_init data rank ct dv v Hwf Hinit Hin Hne Hrk)
    as Hr.
  pose proof (@wf_dataset_var data (dv, v) Hwf Hin) as Hv.
  pose proof (@shape_unit_recon data rank v Hv) as Hsh.
  apply wf_var_inv in Hv. destruct Hv as [_ [Hsub [Hshv _]]].
  cbn [snd] in Hsub, Hshv.
  destruct (@init_self_dims data rank ct Hinit) as [Hdata Hdims].
  assert (Hk : In dv (Dict.keys (data_vars data))).
  { change dv with (fst (dv, v)). now apply in_map. }
  unfold reconstruct. rewrite Hr.
  rewrite (@to_CPTensor_after_init data rank ct dv v Hwf Hinit Hin Hne).
  rewrite Hdims at 1. rewrite keys_map_values.
  rewrite (proj2 (mem_In dv _) Hk). cbn [assert bind].
  rewrite (@to_tensor_unit data rank v Hne Hrk). cbn [bind].
  unfold Dict.getitem. rewrite Hdims, get_map_values.
  rewrite (In_get_nodup _ _ _ (wf_dataset_nodup_vars _ Hwf) Hin).
  cbn [option_map bind]. rewrite Hdata.
  rewrite (@mapM_map _ _
             (fun mmode => ls <- getcoord data mmode ;; Ok (mmode, ls))
             (fun d => (d, labels_of data d))).
  - cbn [bind]. unfold DataArray_new.
    rewrite Hsh, Hshv.
    rewrite map_map. cbn [snd].
    rewrite (map_ext (fun d => length (labels_of data d)) (dim_len data))
      by (intros; symmetry; apply dim_len_labels).
    rewrite (proj2 (shape_eqb_eq _ _) eq_refl). reflexivity.
  - intros d Hd. now rewrite getcoord_labels by auto.
Qed.

(** X19.  Right after construction from a well-formed dataset, the score
    and the reconstruction of a variable that has an axis are both
    returned, provided the rank is positive or the variable has fewer
    than three axes: the reconstruction carries the variable's name, the
    tensor of the all-ones factors with the variable's shape, the labels
    of the variable's axes and the score as its attribute. *)
Lemma reconstruct_after_init data rank ct dv v :
  wf_dataset data = true ->
  __init__ data rank = Ok ct ->
  In (dv, v) (data_vars data) ->
  v_dims v <> [] ->
  (0 < rank)%Z \/ length (v_dims v) < 3 ->
  exists r,
    calcR2X ct (Some dv) = Ok r
    /\ reconstruct ct (Some dv)
       = Ok (OneVar
               (mk_da dv (unit_recon data rank v)
                  (map (fun d => (d, labels_of data d)) (v_dims v)) r))
    /\ shape (unit_recon data rank v) = shape (v_values v).
Proof.
  intros Hwf Hinit Hin Hne Hrk.
  eexists. split; [|split].
  - exact (@calcR2X_after_init data rank ct dv v Hwf Hinit Hin Hne Hrk).
  - exact (@reconstruct_unit data rank ct dv v Hwf Hinit Hin Hne Hrk).
  - apply shape_unit_recon. exact (@wf_dataset_var data (dv, v) Hwf Hin).
Qed.

(* ================================================================== *)
(** ** The object before any initialisation *)

(** C9 (as the code has it).  Right after construction from a well-formed
    dataset, and before any call of [initialize]: every axis has a factor
    matrix of shape (axis length x rank) filled with ones, the weight
    matrix has shape (number of variables x rank) and is filled with
    ones, and every variable has its row of weights.  On this state
    [to_CPTensor] returns for every variable that has an axis;
    [calcR2X] and [reconstruct] return for such a variable when the rank
    is positive or the variable has fewer than three axes; [calcR2X]
    without a variable returns when there is a variable and all
    variables are such; [khatri_rao] returns for an axis when the rank is
    positive and no variable has that axis as its only one. *)
Theorem init_state_all_ones data rank ct :
  wf_dataset data = true ->
  __init__ data rank = Ok ct ->
  (0 <= rank)%Z
  /\ (forall a n, In (a, n) (ds_dims data) ->
        getvar (self_x ct) (String "#" a)
        = Ok (mk_var [a; "*Component"] (ones [n; Z.to_nat rank]))
        /\ factor (self_x ct) a = Ok (ones [n; Z.to_nat rank]))
  /\ getvar (self_x ct) "*Weight"
     = Ok (mk_var ["*Data"; "*Component"]
             (ones [length (data_vars data); Z.to_nat rank]))
  /\ (forall v, In v (Dict.keys (data_vars data)) ->
        weight_row (self_x ct) v = Ok (repeat 1%float (Z.to_nat rank)))
  /\ (forall dv v, In (dv, v) (data_vars data) -> v_dims v <> [] ->
        to_CPTensor ct dv
        = Ok (Tl.mk_cp (repeat 1%float (Z.to_nat rank))
                (unit_factors data rank v)))
  /\ (forall dv v, In (dv, v) (data_vars data) -> v_dims v <> [] ->
        (0 < rank)%Z \/ length (v_dims v) < 3 ->
        exists r,
          calcR2X ct (Some dv) = Ok r
          /\ reconstruct ct (Some dv)
             = Ok (OneVar
                     (mk_da dv (unit_recon data rank v)
                        (map (fun d => (d, labels_of data d)) (v_dims v))
                        r)))
  /\ (data_vars data <> [] ->
      (forall kv, In kv (data_vars data) ->
         v_dims (snd kv) <> []
         /\ ((0 < rank)%Z \/ length (v_dims (snd kv)) < 3)) ->
      exists r, calcR2X ct None = Ok r)
  /\ (forall a, (0 < rank)%Z -> In a (Dict.keys (coords data)) ->
        (forall kv, In kv (data_vars data) -> v_dims (snd kv) <> [a]) ->
        exists k, khatri_rao ct a = Ok k).
Proof.
  intros Hwf Hinit.
  split.
  { destruct (@init_inv data rank ct Hinit) as [? [? [_ [Hrank _]]]].
    exact Hrank. }
  split.
  { intros a n Hin. split.
    - exact (@init_getvar_factor data rank ct a n Hinit Hin).
    - exact (@init_factor data rank ct a n Hinit Hin). }
  split; [exact (@init_getvar_weight data rank ct Hinit)|].
  split.
  { intros v Hv. exact (@init_weight_row data rank ct v Hinit Hv). }
  split.
  { intros dv v Hin Hne.
    exact (@to_CPTensor_after_init data rank ct dv v Hwf Hinit Hin Hne). }
  split.
  { intros dv v Hin Hne Hrk. eexists. split.
    - exact (@calcR2X_after_init data rank ct dv v Hwf Hinit Hin Hne Hrk).
    - exact (@reconstruct_unit data rank ct dv v Hwf Hinit Hin Hne Hrk). }
  split.
  { intros Hvars Hall. eexists.
    exact (@calcR2X_global_unit data rank ct Hwf Hinit Hvars Hall). }
  intros a Hrank Ha Hne.
  destruct (@khatri_rao_after_init data rank ct a Hwf Hrank Hinit Ha Hne)
    as [k [Hk _]].
  exists k. exact Hk.
Qed.

Lemma init_state_all_ones_witness :
  wf_dataset ds_ab = true
  /\ __init__ ds_ab 2 = Ok (built ds_ab 2)
  /\ factor (self_x (built ds_ab 2)) "a" = Ok (ones [3; 2])
  /\ factor (self_x (built ds_ab 2)) "b" = Ok (ones [2; 2])
  /\ weight_row (self_x (built ds_ab 2)) "v" = Ok [1; 1]%float
  /\ (exists r,
        calcR2X (built ds_ab 2) (Some "v") = Ok r
        /\ exists a, reconstruct (built ds_ab 2) (Some "v") = Ok (OneVar a))
  /\ (exists r, calcR2X (built ds_ab 2) None = Ok r)
  /\ (exists k, khatri_rao (built ds_ab 2) "a" = Ok k).
Proof.
  split; [reflexivity|]. split; [reflexivity|].
  destruct (@init_state_all_ones ds_ab 2 (built ds_ab 2) eq_refl eq_refl)
    as [_ [Hf [_ [Hw [_ [Hone [Hall Hkr]]]]]]].
  split; [exact (proj2 (Hf "a" 3 (or_introl eq_refl)))|].
  split; [exact (proj2 (Hf "b" 2 (or_intror (or_introl eq_refl))))|].
  split; [exact (Hw "v" (or_introl eq_refl))|].
  split; [|split].
  - destruct (Hone "v" (mk_var ["a"; "b"]
                          (mk_nd [3; 2] [1; 2; 3; 4; 5; 6]%float)))
      as [r [Hr Hrec]].
    + now left.
    + discriminate.
    + left. lia.
    + exists r. split; [exact Hr|]. eexists. exact Hrec.
  - apply Hall; [discriminate|].
    intros kv [<-|[]]. split; [discriminate | left; lia].
  - apply (Hkr "a"); [lia | now left |].
    intros kv [<-|[]]. discriminate.
Defined.

(** The claim of C9 as stated fails: a dataset may hold a variable
    without any axis.  The object is constructed, its weight matrix is
    all ones, and [to_CPTensor], [calcR2X] and [reconstruct] raise
    IndexError for that variable, the list of factors being empty. *)
Lemma init_methods_not_all_defined :
  wf_dataset ds_scalar = true
  /\ __init__ ds_scalar 2 = Ok (built ds_scalar 2)
  /\ getvar (self_x (built ds_scalar 2)) "*Weight"
     = Ok (mk_var ["*Data"; "*Component"] (ones [1; 2]))
  /\ to_CPTensor (built ds_scalar 2) "s" = Raise IndexError
  /\ calcR2X (built ds_scalar 2) (Some "s") = Raise IndexError
  /\ calcR2X (built ds_scalar 2) None = Raise IndexError
  /\ reconstruct (built ds_scalar 2) (Some "s") = Raise IndexError.
Proof. repeat split. Qed.

(* ================================================================== *)
(** ** The unfolding along an axis: when it succeeds and its shape *)

Lemma index_lt (a : string) (l : list string) :
  In a l -> Dict.index a l < length l.
Proof.
  induction l as [|d l IH]; simpl; [tauto|].
  destruct (String.eqb a d) eqn:E; [lia|].
  intros [->|Hin]; [now rewrite String.eqb_refl in E|].
  apply IH in Hin. lia.
Qed.

Lemma nth_index (a : string) (l : list string) :
  In a l -> nth (Dict.index a l) l ""%string = a.
Proof.
  induction l as [|d l IH]; simpl; [tauto|].
  destruct (String.eqb a d) eqn:E.
  - apply String.eqb_eq in E. now subst.
  - intros [->|Hin]; [now rewrite String.eqb_refl in E | auto].
Qed.

Lemma nth_map_index (f : string -> nat) (a : string) (l : list string) :
  In a l -> nth (Dict.index a l) (map f l) 0 = f a.
Proof.
  intros Hin.
  rewrite (nth_indep _ 0 (f ""%string)) by (rewrite length_map; now apply index_lt).
  rewrite map_nth. now rewrite nth_index.
Qed.

(** [tl.unfold] of a well-formed variable along one of its axes, taken at
    its own position. *)
Lemma tl_unfold_block data a v :
  wf_var data v = true -> In a (v_dims v) -> dim_len data a <> 0 ->
  Tl.unfold (v_values v) (Dict.index a (v_dims v))
  = Ok (unfold_block data a v).
Proof.
  intros Hwf Hin Hlen. apply wf_var_inv in Hwf.
  destruct Hwf as [Hnd [_ [Hsh _]]].
  unfold Tl.unfold, ndim. rewrite Hsh, length_map.
  pose proof (@index_lt a (v_dims v) Hin) as Hlt.
  destruct (length (v_dims v) <=? Dict.index a (v_dims v))%nat eqn:E;
    [apply Nat.leb_le in E; lia|].
  rewrite nth_map_index by exact Hin.
  destruct (dim_len data a =? 0)%nat eqn:E0;
    [apply Nat.eqb_eq in E0; contradiction|].
  assert (Hdiv : size (map (dim_len data) (v_dims v)) / dim_len data a
                 = other_size data a v).
  { rewrite (size_split (dim_len data) a _ Hnd Hin).
    rewrite nth_map_index by exact Hin.
    unfold other_size, others. rewrite Nat.mul_comm. now apply Nat.div_mul. }
  rewrite Hdiv. reflexivity.
Qed.

(** The loop of [xr_unfold] collects the blocks of the variables that
    have the axis, in the order of the variables. *)
Lemma xr_unfold_blocks data a :
  dim_len data a <> 0 ->
  forall vars arrs0,
  (forall kv, In kv vars ->
     wf_var data (snd kv) = true
     /\ da_coords data (snd kv) = v_dims (snd kv)) ->
  foldM
    (fun arrs kv =>
       let da := snd kv in
       if Dict.mem a (da_coords data da)
       then u <- Tl.unfold (v_values da)
                   (Dict.index a (da_coords data da)) ;;
            Ok (arrs ++ [u])%list
       else Ok arrs)
    vars arrs0
  = Ok (arrs0 ++ map (fun kv => unfold_block data a (snd kv))
                   (with_axis a vars))%list.
Proof.
  intros Hlen. induction vars as [|kv vars IH]; intros arrs0 Hvars.
  - simpl. now rewrite app_nil_r.
  - destruct (Hvars kv (or_introl eq_refl)) as [Hwf Hord].
    cbn [foldM]. cbv zeta. rewrite Hord. unfold with_axis. cbn [filter].
    destruct (Dict.mem a (v_dims (snd kv))) eqn:Hmem.
    + rewrite (@tl_unfold_block data a (snd kv) Hwf (proj1 (mem_In _ _) Hmem) Hlen).
      cbn [bind map]. rewrite IH by (intros; apply Hvars; now right).
      unfold with_axis. now rewrite <- app_assoc.
    + cbn [bind]. apply IH. intros; apply Hvars; now right.
Qed.

Lemma concatenate1_uniform (n : nat) (arrs : list ndarray) :
  arrs <> [] ->
  (forall m, In m arrs -> exists c, shape m = [n; c]) ->
  exists u, concatenate1 arrs = Ok u
            /\ shape u = [n; list_sum (map ncols arrs)].
Proof.
  intros Hne Hall. unfold concatenate1.
  destruct arrs as [|m0 rest]; [contradiction|].
  assert (H2d : forallb is_2d (m0 :: rest) = true).
  { apply forallb_forall. intros m Hm. destruct (Hall m Hm) as [c Hc].
    unfold is_2d, ndim. now rewrite Hc. }
  assert (Hrows : forallb (fun b => (nrows b =? nrows m0)%nat) rest = true).
  { apply forallb_forall. intros m Hm.
    destruct (Hall m (or_intror Hm)) as [c Hc].
    destruct (Hall m0 (or_introl eq_refl)) as [c0 Hc0].
    unfold nrows. rewrite Hc, Hc0. apply Nat.eqb_refl. }
  rewrite H2d, Hrows. cbn [andb]. eexists. split; [reflexivity|].
  cbn [shape]. destruct (Hall m0 (or_introl eq_refl)) as [c0 Hc0].
  unfold nrows. now rewrite Hc0.
Qed.

Lemma ncols_unfold_blocks data a vars :
  list_sum (map ncols (map (fun kv => unfold_block data a (snd kv))
                         (with_axis a vars)))
  = expected_width data a vars.
Proof.
  induction vars as [|kv vars IH]; [reflexivity|].
  rewrite expected_width_cons. unfold with_axis in *. cbn [filter].
  destruct (Dict.mem a (v_dims (snd kv))).
  - cbn [map]. rewrite list_sum_cons, IH. reflexivity.
  - now rewrite IH.
Qed.

(** The unfolding as the concatenation of the blocks. *)
Lemma xr_unfold_shape_aux data a :
  (forall kv, In kv (data_vars data) ->
     wf_var data (snd kv) = true
     /\ da_coords data (snd kv) = v_dims (snd kv)) ->
  dim_len data a <> 0 ->
  with_axis a (data_vars data) <> [] ->
  exists u,
    xr_unfold data a = Ok u
    /\ shape u = [dim_len data a; expected_width data a (data_vars data)].
Proof.
  intros Hvars Hlen Hsome.
  pose proof (@xr_unfold_blocks data a Hlen (data_vars data) [] Hvars) as Hb.
  unfold xr_unfold.
  match goal with
  | |- exists u, bind ?m _ = _ /\ _ =>
      replace m
        with (Ok (map (fun kv => unfold_block data a (snd kv))
                    (with_axis a (data_vars data))) : result (list ndarray))
        by (symmetry; exact Hb)
  end.
  cbn [bind].
  destruct (@concatenate1_uniform (dim_len data a)
              (map (fun kv => unfold_block data a (snd kv))
                 (with_axis a (data_vars data)))) as [u [Hu Hsh]].
  - intros Hnil. apply map_eq_nil in Hnil. contradiction.
  - intros m Hm. apply in_map_iff in Hm. destruct Hm as [kv [<- _]].
    eexists. reflexivity.
  - exists u. split; [exact Hu|]. now rewrite Hsh, ncols_unfold_blocks.
Qed.

(** X1.  On a dataset whose variables are well-formed and list their axes
    in the order of the dataset's coordinates, the unfolding along an axis
    of non-zero length that some variable has succeeds, with one row per
    label of the axis and as many columns as the products of the other
    axes' lengths add up to over the variables that have the axis; the
    blocks of the variables follow each other in the order of the
    variables. *)
Theorem xr_unfold_shape data a :
  (forall kv, In kv (data_vars data) ->
     wf_var data (snd kv) = true
     /\ da_coords data (snd kv) = v_dims (snd kv)) ->
  dim_len data a <> 0 ->
  with_axis a (data_vars data) <> [] ->
  exists u,
    xr_unfold data a = Ok u
    /\ shape u = [dim_len data a; expected_width data a (data_vars data)]
    /\ concatenate1 (map (fun kv => unfold_block data a (snd kv))
                       (with_axis a (data_vars data))) = Ok u.
Proof.
  intros Hvars Hlen Hsome.
  destruct (@xr_unfold_shape_aux data a Hvars Hlen Hsome) as [u [Hu Hsh]].
  exists u. split; [exact Hu|]. split; [exact Hsh|].
  pose proof (@xr_unfold_blocks data a Hlen (data_vars data) [] Hvars) as Hb.
  unfold xr_unfold in Hu. apply bind_Ok_inv in Hu.
  destruct Hu as [arrs [Harrs Hcat]].
  assert (Heq : arrs = map (fun kv => unfold_block data a (snd kv))
                         (with_axis a (data_vars data))).
  { cbn [app] in Hb. cbv zeta in Hb, Harrs. congruence. }
  now rewrite <- Heq.
Qed.

Lemma xr_unfold_shape_witness :
  dim_len ds_ab "b" <> 0
  /\ exists u, xr_unfold ds_ab "b" = Ok u /\ shape u = [2; 3].
Proof.
  split; [discriminate|].
  destruct (@xr_unfold_shape ds_ab "b") as [u [Hu [Hsh _]]].
  - intros kv [<-|[]]. split; reflexivity.
  - discriminate.
  - discriminate.
  - exists u. split; [exact Hu | exact Hsh].
Defined.

(* ================================================================== *)
(** ** When the constructor succeeds *)

Lemma nodup_NoDup (l : list string) : Dict.nodup l = true <-> NoDup l.
Proof.
  induction l as [|k l IH]; simpl.
  - split; [constructor | reflexivity].
  - rewrite andb_true_iff, negb_true_iff, mem_false_In, IH. split.
    + intros [Hnin Hnd]. now constructor.
    + intros H. inversion H. auto.
Qed.

Lemma NoDup_snoc {A} (l : list A) (x : A) :
  NoDup l -> ~ In x l -> NoDup (l ++ [x]).
Proof.
  induction l as [|y l IH]; simpl; intros Hnd Hnin.
  - constructor; [tauto | constructor].
  - inversion Hnd as [|? ? Hy Hl]. subst. constructor.
    + rewrite in_app_iff. simpl. intros [H|[H|[]]]; [tauto|].
      subst. tauto.
    + apply IH; tauto.
Qed.

Lemma NoDup_map_sharp (l : list string) :
  NoDup l -> NoDup (map (String "#") l).
Proof.
  induction l as [|k l IH]; simpl; intros Hnd; [constructor|].
  inversion Hnd as [|? ? Hk Hl]. subst. constructor; [|auto].
  rewrite in_map_iff. intros [k' [Heq Hin]]. inversion Heq. now subst.
Qed.

Lemma keys_set_new {V} (d : Dict.dict V) (k : string) (v : V) :
  ~ In k (Dict.keys d) -> Dict.keys (Dict.set d k v) = (Dict.keys d ++ [k])%list.
Proof.
  induction d as [|[k' v'] d IH]; simpl; intros Hnin; [reflexivity|].
  destruct (String.eqb k k') eqn:E.
  - apply String.eqb_eq in E. subst. tauto.
  - simpl. rewrite IH; tauto.
Qed.

Lemma In_set {V} (d : Dict.dict V) (k : string) (v : V) (kv : string * V) :
  In kv (Dict.set d k v) -> kv = (k, v) \/ In kv d.
Proof.
  induction d as [|[k' v'] d IH]; simpl.
  - intros [<-|[]]. now left.
  - destruct (String.eqb k k') eqn:E; simpl.
    + apply String.eqb_eq in E. subst k'. intros [<-|H]; auto.
    + intros [<-|H]; auto. destruct (IH H); auto.
Qed.

Lemma In_keys_set_same {V} (d : Dict.dict V) (k : string) (v : V) :
  In k (Dict.keys (Dict.set d k v)).
Proof.
  induction d as [|[k' v'] d IH]; simpl; [now left|].
  destruct (String.eqb k k') eqn:E; simpl; [|now right].
  apply String.eqb_eq in E. now left.
Qed.

Lemma reserved_sharp (a : string) : reserved (String "#" a) = true.
Proof. reflexivity. Qed.

(** The constructor's loop over the axes, when every matrix is within
    numpy's limits: what it stores and under which names. *)
Lemma make_factors_run rank : forall l acc,
  (forall a n, In (a, n) l -> alloc_ok n rank = true) ->
  exists nd,
    foldM (make_factors rank) l acc = Ok nd
    /\ (forall kv, In kv nd ->
          In kv acc
          \/ exists a n, In (a, n) l
               /\ kv = (String "#" a,
                        mk_var [a; "*Component"] (ones [n; Z.to_nat rank])))
    /\ (NoDup (Dict.keys l) ->
        (forall a, In a (Dict.keys l) -> ~ In (String "#" a) (Dict.keys acc)) ->
        Dict.keys nd
        = (Dict.keys acc ++ map (String "#") (Dict.keys l))%list).
Proof.
  induction l as [|[a n] l IH]; intros acc Hall.
  - exists acc. simpl. split; [reflexivity|]. split; [auto|].
    intros _ _. now rewrite app_nil_r.
  - cbn [foldM]. unfold make_factors at 1, ones_Z. cbn [fst snd].
    rewrite (Hall a n (or_introl eq_refl)). cbn [bind].
    destruct (IH (Dict.set acc (String "#" a)
                    (mk_var [a; "*Component"] (ones [n; Z.to_nat rank]))))
      as [nd [Hrun [Hin Hkeys]]].
    { intros a' n' H'. apply (Hall a' n'). now right. }
    exists nd. split; [exact Hrun|]. split.
    + intros kv Hkv. destruct (Hin kv Hkv) as [Hacc|[a' [n' [Hl ->]]]].
      * apply In_set in Hacc. destruct Hacc as [->|Hacc]; [|now left].
        right. exists a, n. split; [now left | reflexivity].
      * right. exists a', n'. split; [now right | reflexivity].
    + intros Hnd Hfresh. cbn [Dict.keys map fst] in Hnd, Hfresh |- *.
      inversion Hnd as [|? ? Ha Hl]. subst.
      rewrite Hkeys.
      * rewrite keys_set_new by (apply Hfresh; now left).
        now rewrite <- app_assoc.
      * exact Hl.
      * intros a' Ha'. rewrite keys_set_new by (apply Hfresh; now left).
        rewrite in_app_iff. intros [H|[H|[]]].
        -- revert H. apply Hfresh. now right.
        -- inversion H. subst. tauto.
Qed.

Lemma ds_dims_dim_len data a n :
  In (a, n) (ds_dims data) -> n = dim_len data a.
Proof. intros Hin. now apply In_ds_dims in Hin. Qed.

Lemma ds_dims_keys_In data a n :
  In (a, n) (ds_dims data) -> In a (Dict.keys (coords data)).
Proof. intros Hin. now apply In_ds_dims in Hin. Qed.

Lemma not_reserved_neq (k k' : string) :
  reserved k = false -> reserved k' = true -> k <> k'.
Proof. intros Hk Hk' ->. congruence. Qed.

Lemma length_arange1 rank : length (arange1 rank) = Z.to_nat rank.
Proof. unfold arange1. now rewrite length_map, length_seq. Qed.

Lemma wf_nd_ones (sh : list nat) : wf_nd (ones sh) = true.
Proof.
  unfold wf_nd, ones, full. simpl. rewrite repeat_length.
  apply Nat.eqb_refl.
Qed.

Section Construction.

Variable data : Dataset.
Variable rank : Z.

Hypothesis Hwf : wf_dataset data = true.
Hypothesis Halloc : forall a, In a (Dict.keys (coords data)) ->
                              alloc_ok (dim_len data a) rank = true.
Hypothesis Hres : forall k, In k (Dict.keys (coords data)) -> reserved k = false.

(** The coordinates of the factor state. *)
Let ncoords : Dict.dict (list label) :=
  Dict.set (Dict.set (coords data) "*Component" (map LInt (arange1 rank)))
    "*Data" (map LStr (Dict.keys (data_vars data))).

Lemma wf_nodup_coords : NoDup (Dict.keys (coords data)).
Proof.
  apply nodup_NoDup. unfold wf_dataset in Hwf.
  rewrite !andb_true_iff in Hwf. tauto.
Qed.

Lemma ncoords_keys :
  Dict.keys ncoords
  = (Dict.keys (coords data) ++ ["*Component"; "*Data"])%list.
Proof.
  unfold ncoords.
  assert (Hc : ~ In "*Component" (Dict.keys (coords data))).
  { intros H. apply Hres in H. discriminate. }
  rewrite keys_set_new.
  - rewrite keys_set_new by exact Hc. now rewrite <- app_assoc.
  - rewrite keys_set_new by exact Hc. rewrite in_app_iff.
    intros [H|[H|[]]]; [apply Hres in H|]; discriminate.
Qed.

Lemma ncoords_get_axis a :
  In a (Dict.keys (coords data)) ->
  Dict.get ncoords a = Dict.get (coords data) a.
Proof.
  intros Ha. apply Hres in Ha. unfold ncoords.
  rewrite !get_set_other; [reflexivity | |];
    now apply not_reserved_neq.
Qed.

Lemma ncoords_get_Component :
  Dict.get ncoords "*Component" = Some (map LInt (arange1 rank)).
Proof.
  unfold ncoords. rewrite get_set_other by discriminate.
  apply get_set_same.
Qed.

Lemma ncoords_get_Data :
  Dict.get ncoords "*Data" = Some (map LStr (Dict.keys (data_vars data))).
Proof. unfold ncoords. apply get_set_same. Qed.

Lemma wf_factor_var ndata a n :
  In (a, n) (ds_dims data) ->
  wf_var (mk_ds ndata ncoords)
    (mk_var [a; "*Component"] (ones [n; Z.to_nat rank])) = true.
Proof.
  intros Hin. pose proof (ds_dims_keys_In _ _ _ Hin) as Ha.
  pose proof (Hres _ Ha) as Hnr.
  unfold wf_var. cbn [v_dims v_values coords].
  rewrite wf_nd_ones, andb_true_r. rewrite !andb_true_iff. repeat split.
  - cbn [Dict.nodup Dict.mem existsb].
    destruct (String.eqb a "*Component") eqn:E; [|reflexivity].
    apply String.eqb_eq in E. subst a. discriminate.
  - cbn [forallb]. rewrite !andb_true_iff. repeat split; apply mem_In;
      rewrite ncoords_keys, in_app_iff; simpl; auto.
  - apply shape_eqb_eq. cbn [map shape ones full]. unfold dim_len.
    cbn [coords]. rewrite (ncoords_get_axis _ Ha), ncoords_get_Component.
    rewrite length_map, length_arange1.
    f_equal. now apply ds_dims_dim_len.
Qed.

Lemma wf_weight_var ndata :
  wf_var (mk_ds ndata ncoords)
    (mk_var ["*Data"; "*Component"]
       (ones [length (data_vars data); Z.to_nat rank])) = true.
Proof.
  unfold wf_var. cbn [v_dims v_values coords].
  rewrite wf_nd_ones, andb_true_r. rewrite !andb_true_iff. repeat split.
  - cbn [forallb]. rewrite !andb_true_iff. repeat split; apply mem_In;
      rewrite ncoords_keys, in_app_iff; simpl; auto.
  - apply shape_eqb_eq. cbn [map shape ones full]. unfold dim_len.
    cbn [coords]. rewrite ncoords_get_Data, ncoords_get_Component.
    unfold Dict.keys. now rewrite !length_map, length_arange1.
Qed.

(** The factor state that the constructor assembles passes the checks of
    [xr.Dataset]. *)
Lemma init_factor_state :
  exists ndata,
    foldM (make_factors rank) (ds_dims data) [] = Ok ndata
    /\ wf_dataset
         (mk_ds (Dict.set ndata "*Weight"
                   (mk_var ["*Data"; "*Component"]
                      (ones [length (data_vars data); Z.to_nat rank])))
            ncoords) = true.
Proof.
  destruct (@make_factors_run rank (ds_dims data) [])
    as [ndata [Hrun [Hin Hkeys]]].
  { intros a n Han. apply In_ds_dims in Han. destruct Han as [Ha ->].
    now apply Halloc. }
  exists ndata. split; [exact Hrun|].
  pose proof wf_nodup_coords as Hnd.
  assert (Hnd' : NoDup (dims_order data)).
  { apply nodup_NoDup, nodup_dims_order. }
  assert (Hk : Dict.keys ndata = map (String "#") (dims_order data)).
  { rewrite Hkeys; rewrite ?keys_ds_dims; auto. }
  assert (HW : ~ In "*Weight" (Dict.keys ndata)).
  { rewrite Hk, in_map_iff. intros [a [Heq _]]. discriminate. }
  unfold wf_dataset. cbn [data_vars coords].
  rewrite keys_set_new by exact HW. rewrite !andb_true_iff. repeat split.
  - apply nodup_NoDup, NoDup_snoc; [|exact HW].
    rewrite Hk. now apply NoDup_map_sharp.
  - apply nodup_NoDup. rewrite ncoords_keys.
    change ["*Component"; "*Data"] with (["*Component"] ++ ["*Data"])%list.
    rewrite app_assoc. apply NoDup_snoc; [apply NoDup_snoc; auto|].
    + intros H. apply Hres in H. discriminate.
    + rewrite in_app_iff. intros [H|[H|[]]]; [apply Hres in H|]; discriminate.
  - apply forallb_forall. intros k Hin_k. apply negb_true_iff, mem_false_In.
    rewrite ncoords_keys, in_app_iff. rewrite in_app_iff in Hin_k.
    assert (Hrk : reserved k = true).
    { destruct Hin_k as [Hin_k|[<-|[]]]; [|reflexivity].
      rewrite Hk, in_map_iff in Hin_k. destruct Hin_k as [a [<- _]].
      reflexivity. }
    intros [H|[<-|[<-|[]]]].
    + apply Hres in H. congruence.
    + destruct Hin_k as [Hin_k|[Heq|[]]]; [|discriminate].
      rewrite Hk, in_map_iff in Hin_k. destruct Hin_k as [a [Heq _]].
      discriminate.
    + destruct Hin_k as [Hin_k|[Heq|[]]]; [|discriminate].
      rewrite Hk, in_map_iff in Hin_k. destruct Hin_k as [a [Heq _]].
      discriminate.
  - apply forallb_forall. intros kv Hkv. apply In_set in Hkv.
    destruct Hkv as [->|Hkv]; [apply wf_weight_var|].
    destruct (Hin kv Hkv) as [[]|[a [n [Hl ->]]]].
    now apply wf_factor_var.
Qed.

End Construction.

(** The constructor as one chain of steps. *)
Lemma init_steps data rank :
  __init__ data rank
  = (comp <- arange1_Z rank ;;
     ndata <- foldM (make_factors rank) (ds_dims data) [] ;;
     w <- ones_Z (length (data_vars data)) rank ;;
     x <- Dataset_new
            (Dict.set ndata "*Weight" (mk_var ["*Data"; "*Component"] w))
            (Dict.set
               (Dict.set (coords data) "*Component" (map LInt comp))
               "*Data" (map LStr (Dict.keys (data_vars data)))) ;;
     unf <- mapM (fun mmode => u <- xr_unfold data mmode ;; Ok (mmode, u))
              (Dict.keys (coords data)) ;;
     Ok (mk_ct x data rank
           (map (fun kv => (fst kv, v_dims (snd kv))) (data_vars data))
           unf)).
Proof. reflexivity. Qed.

Lemma mapM_keyed_ok {V} (f : string -> result V) (l : list string) :
  (forall a, In a l -> exists u, f a = Ok u) ->
  exists unf,
    mapM (fun m => u <- f m ;; Ok (m, u)) l = Ok unf
    /\ Dict.keys unf = l.
Proof.
  induction l as [|a l IH]; intros Hall.
  - exists []. split; reflexivity.
  - destruct (Hall a (or_introl eq_refl)) as [u Hu].
    destruct IH as [unf [Hunf Hkeys]].
    { intros b Hb. apply Hall. now right. }
    exists ((a, u) :: unf). cbn [mapM]. rewrite Hu. cbn [bind].
    rewrite Hunf. cbn [bind]. split; [reflexivity|].
    cbn [Dict.keys map fst]. f_equal. exact Hkeys.
Qed.

(** The constructor goes through under these conditions. *)
Lemma init_ok data rank :
  wf_dataset data = true ->
  fits data rank = true ->
  (forall k, In k (Dict.keys (coords data)) -> reserved k = false) ->
  (forall kv, In kv (data_vars data) ->
     da_coords data (snd kv) = v_dims (snd kv)) ->
  (forall a, In a (Dict.keys (coords data)) ->
     dim_len data a <> 0 /\ with_axis a (data_vars data) <> []) ->
  exists ct, __init__ data rank = Ok ct.
Proof.
  intros Hwf Hfits Hres Hord Haxes.
  unfold fits in Hfits. rewrite !andb_true_iff, forallb_forall in Hfits.
  destruct Hfits as [[Hcomp Halloc] Hw].
  destruct (@init_factor_state data rank Hwf Halloc Hres)
    as [ndata [Hrun Hx]].
  destruct (@mapM_keyed_ok _ (xr_unfold data) (Dict.keys (coords data)))
    as [unf [Hunf Hkeys]].
  { intros a Ha. destruct (Haxes a Ha) as [Hlen Hsome].
    destruct (@xr_unfold_shape_aux data a) as [u [Hu _]]; eauto.
    intros kv Hkv. split; [now apply (@wf_dataset_var data kv Hwf) | auto]. }
  rewrite init_steps. unfold arange1_Z. rewrite Hcomp. cbn [bind].
  rewrite Hrun. cbn [bind].
  unfold ones_Z. rewrite Hw.
  cbn [bind]. unfold Dataset_new. cbv zeta in Hx. rewrite Hx. cbn [bind].
  rewrite Hunf. cbn [bind]. eexists. reflexivity.
Qed.

Lemma init_unfold_keys data rank ct :
  __init__ data rank = Ok ct ->
  Dict.keys (self_unfold ct) = Dict.keys (coords data).
Proof.
  intros Hinit.
  destruct (@init_inv data rank ct Hinit)
    as [ndata [unf [_ [_ [_ [_ [_ [Hunf Hct]]]]]]]].
  rewrite Hct. cbn [self_unfold]. clear Hct.
  revert unf Hunf. induction (Dict.keys (coords data)) as [|a l IH];
    intros unf Hunf.
  - inversion Hunf. reflexivity.
  - cbn [mapM] in Hunf. apply bind_Ok_inv in Hunf.
    destruct Hunf as [[a' u] [Ha Hunf]].
    apply bind_Ok_inv in Ha. destruct Ha as [u' [_ Ha]]. inversion Ha. subst.
    apply bind_Ok_inv in Hunf. destruct Hunf as [unf' [Hunf' Hunf]].
    inversion Hunf. subst. cbn [Dict.keys map fst]. f_equal.
    now apply IH.
Qed.

(** X2.  The constructor succeeds on every well-formed dataset, for every
    rank that is not negative and keeps the arrays it creates within
    numpy's limits on extents and bytes (memory permitting, which the
    model does not track), provided that no axis has a name
    starting with "#" or "*" (the names the factor state uses), every
    variable lists its axes in the order of the dataset's coordinates, and
    every axis has a label and is used by a variable.  The object keeps
    the dataset, the rank and the axes of every variable, and caches one
    unfolding per axis. *)
Theorem init_succeeds data rank :
  wf_dataset data = true ->
  (0 <= rank)%Z ->
  fits data rank = true ->
  (forall k, In k (Dict.keys (coords data)) -> reserved k = false) ->
  (forall kv, In kv (data_vars data) ->
     da_coords data (snd kv) = v_dims (snd kv)) ->
  (forall a, In a (Dict.keys (coords data)) ->
     dim_len data a <> 0 /\ with_axis a (data_vars data) <> []) ->
  exists ct,
    __init__ data rank = Ok ct
    /\ self_data ct = data
    /\ self_rank ct = rank
    /\ self_dims ct
       = map (fun kv => (fst kv, v_dims (snd kv))) (data_vars data)
    /\ Dict.keys (self_unfold ct) = Dict.keys (coords data).
Proof.
  intros Hwf Hrank Hfits Hres Hord Haxes.
  destruct (@init_ok data rank Hwf Hfits Hres Hord Haxes) as [ct Hct].
  exists ct. split; [exact Hct|].
  destruct (@init_self_dims data rank ct Hct) as [Hdata Hdims].
  destruct (@init_inv data rank ct Hct)
    as [_ [unf [_ [_ [_ [_ [_ [_ Heq]]]]]]]].
  repeat split; auto.
  - rewrite Heq. reflexivity.
  - exact (@init_unfold_keys data rank ct Hct).
Qed.

Lemma init_succeeds_witness :
  wf_dataset ds_ab = true
  /\ fits ds_ab 2 = true
  /\ exists ct, __init__ ds_ab 2 = Ok ct /\ self_rank ct = 2%Z.
Proof.
  split; [reflexivity|]. split; [reflexivity|].
  destruct (@init_succeeds ds_ab 2) as [ct [Hct [_ [Hr _]]]].
  - reflexivity.
  - lia.
  - reflexivity.
  - intros k [<-|[<-|[]]]; reflexivity.
  - intros kv [<-|[]]. reflexivity.
  - intros a [<-|[<-|[]]]; split; discriminate.
  - exists ct. split; [exact Hct | exact Hr].
Defined.

(* ================================================================== *)
(** ** The sample dataset *)

Lemma genSample_wf flop turn river :
  length flop = 1680 -> length turn = 280 -> length river = 32 ->
  wf_dataset (genSample flop turn river) = true.
Proof.
  intros Hf Ht Hr. unfold wf_dataset, genSample.
  cbn [data_vars coords forallb snd]. unfold wf_var, wf_nd.
  cbn [v_values v_dims shape Np.data]. rewrite Hf, Ht, Hr. reflexivity.
Qed.

(** X3.  Whatever the random values, the sample dataset can be
    factorised at every rank from 0 up to, and not including, 2^57 (where
    the largest factor matrix, 8 rows of 8-byte entries, reaches numpy's
    limit of 2^63 - 1 bytes; memory permitting): the constructor succeeds and the cached
    unfoldings have the shapes 8 x 249 (month), 7 x 280 (time), 6 x 280
    (people), 5 x 392 (state) and 4 x 8 (suit). *)
Theorem genSample_constructs flop turn river rank :
  length flop = 1680 -> length turn = 280 -> length river = 32 ->
  (0 <= rank < 144115188075855872)%Z ->
  exists ct,
    __init__ (genSample flop turn river) rank = Ok ct
    /\ forall a sh,
         In (a, sh) [("month", [8; 249]); ("time", [7; 280]);
                     ("people", [6; 280]); ("state", [5; 392]);
                     ("suit", [4; 8])] ->
         exists u, Dict.get (self_unfold ct) a = Some u /\ shape u = sh.
Proof.
  intros Hf Ht Hr Hrank.
  pose proof (genSample_wf flop turn river Hf Ht Hr) as Hwf.
  set (data := genSample flop turn river) in *.
  assert (Hord : forall kv, In kv (data_vars data) ->
                            da_coords data (snd kv) = v_dims (snd kv)).
  { intros kv [<-|[<-|[<-|[]]]]; reflexivity. }
  assert (Haxes : forall a, In a (Dict.keys (coords data)) ->
            dim_len data a <> 0 /\ with_axis a (data_vars data) <> []).
  { intros a [<-|[<-|[<-|[<-|[<-|[]]]]]]; split; discriminate. }
  assert (Hfits : fits data rank = true).
  { unfold fits, alloc_ok, data.
    cbn -[Z.mul Z.leb Z.eqb max_intp Z.of_nat].
    destruct (Z.eqb_spec rank 0) as [->|Hn]; [reflexivity|].
    rewrite !andb_true_iff.
    repeat split; try reflexivity; apply Z.leb_le; unfold max_intp; lia. }
  destruct (@init_ok data rank Hwf Hfits) as [ct Hct]; auto.
  { intros k [<-|[<-|[<-|[<-|[<-|[]]]]]]; reflexivity. }
  exists ct. split; [exact Hct|]. intros a sh Hin.
  assert (Ha : In a (Dict.keys (coords data))).
  { destruct Hin as [H|[H|[H|[H|[H|[]]]]]]; inversion H; simpl; tauto. }
  destruct (@init_unfold_get data rank ct a Hct Ha) as [u [Hu Hget]].
  exists u. split; [exact Hget|].
  destruct (Haxes a Ha) as [Hlen Hsome].
  destruct (@xr_unfold_shape_aux data a) as [u' [Hu' Hsh]]; auto.
  { intros kv Hkv. split; [now apply (@wf_dataset_var data kv Hwf) | auto]. }
  assert (u' = u) by congruence. subst u'. rewrite Hsh.
  destruct Hin as [H|[H|[H|[H|[H|[]]]]]]; inversion H; reflexivity.
Qed.

Lemma genSample_constructs_witness :
  length (repeat 0.5%float 1680) = 1680
  /\ exists ct,
       __init__ (genSample (repeat 0.5%float 1680) (repeat 0.25%float 280)
                   (repeat 0.75%float 32)) 3 = Ok ct
       /\ exists u, Dict.get (self_unfold ct) "month" = Some u
                    /\ shape u = [8; 249].
Proof.
  split; [reflexivity|].
  destruct (@genSample_constructs (repeat 0.5%float 1680)
              (repeat 0.25%float 280) (repeat 0.75%float 32) 3)
    as [ct [Hct Hsh]]; try reflexivity; try lia.
  exists ct. split; [exact Hct|]. apply Hsh. now left.
Defined.

(* ================================================================== *)
(** ** What [to_CPTensor] and [reconstruct] return *)

Lemma mapM_length {A B} (f : A -> result B) (l : list A) (bs : list B) :
  mapM f l = Ok bs -> length bs = length l.
Proof.
  revert bs. induction l as [|a l IH]; simpl; intros bs H.
  - inversion H. reflexivity.
  - apply bind_Ok_inv in H. destruct H as [b [_ H]].
    apply bind_Ok_inv in H. destruct H as [bs' [Hbs' H]].
    inversion H. simpl. f_equal. now apply IH.
Qed.

Lemma mk_CPTensor_inv w fs cp :
  Tl.mk_CPTensor w fs = Ok cp ->
  cp = Tl.mk_cp w fs /\ fs <> []
  /\ Forall (fun f => is_2d f = true /\ ncols f = length w) fs.
Proof.
  unfold Tl.mk_CPTensor. destruct fs as [|f0 fs']; [discriminate|].
  destruct (is_2d f0) eqn:E0; cbn [negb]; [|discriminate].
  destruct (forallb _ (f0 :: fs')) eqn:Eall; cbn [negb]; [|discriminate].
  destruct (length w =? ncols f0)%nat eqn:Ew; cbn [negb]; [|discriminate].
  apply Nat.eqb_eq in Ew. intros H. inversion H.
  split; [reflexivity|]. split; [discriminate|].
  apply Forall_forall. intros f Hf.
  rewrite forallb_forall in Eall. specialize (Eall f Hf).
  apply andb_true_iff in Eall. destruct Eall as [H2 Hc].
  apply Nat.eqb_eq in Hc. split; [exact H2 | congruence].
Qed.

(** The dense tensor of validated factors is obtained when there is a
    component or there are fewer than three factors. *)
Lemma to_tensor_ok (w : list float) (fs : list ndarray) :
  fs <> [] ->
  Forall (fun f => is_2d f = true /\ ncols f = length w) fs ->
  length w <> 0 \/ length fs < 3 ->
  Tl.to_tensor (Tl.mk_cp w fs) = Ok (Tl.dense (Tl.mk_cp w fs)).
Proof.
  intros Hne Hall Hr. unfold Tl.to_tensor. cbn [Tl.cp_factors].
  destruct fs as [|f0 [|f1 [|f2 rest]]]; [contradiction| | |];
    try reflexivity.
  destruct Hr as [Hr|Hr]; [|cbn [length] in Hr; lia].
  inversion Hall as [|? ? _ Hall']. subst.
  inversion Hall' as [|? ? [H2d Hc] _]. subst.
  unfold Tl.khatri_rao.
  assert (Hnd : (ndim f1 <? 2)%nat = false).
  { unfold is_2d in H2d. apply Nat.eqb_eq in H2d. rewrite H2d. reflexivity. }
  rewrite Hnd.
  assert (Hf : forallb (fun m => is_2d m && (ncols m =? ncols f1)%nat)
                 (f1 :: f2 :: rest) = true).
  { apply forallb_forall. intros m Hm.
    rewrite Forall_forall in Hall'. destruct (Hall' m Hm) as [Hm2 Hmc].
    rewrite Hm2, Hmc, Hc. cbn [andb]. apply Nat.eqb_refl. }
  rewrite Hf, Hc.
  destruct (length w =? 0)%nat eqn:E; [|reflexivity].
  apply Nat.eqb_eq in E. contradiction.
Qed.

(** X5.  Whatever the factor state, a CP tensor that [to_CPTensor]
    returns for a variable is consistent: the variable has at least one
    axis, there is one factor matrix per axis of the variable, in the
    order of its axes, every factor is 2-D with as many columns as there
    are weights, and the dense tensor, which is obtained whenever there
    is a component or there are fewer than three factors, has one extent
    per factor (its number of rows). *)
Theorem to_CPTensor_valid self dv cp :
  to_CPTensor self dv = Ok cp ->
  exists ds,
    Dict.get (self_dims self) dv = Some ds
    /\ ds <> []
    /\ weight_row (self_x self) dv = Ok (Tl.cp_weights cp)
    /\ mapM (factor (self_x self)) ds = Ok (Tl.cp_factors cp)
    /\ length (Tl.cp_factors cp) = length ds
    /\ Forall (fun f => is_2d f = true
                        /\ ncols f = length (Tl.cp_weights cp))
         (Tl.cp_factors cp)
    /\ (forall t, Tl.to_tensor cp = Ok t ->
          shape t = map nrows (Tl.cp_factors cp))
    /\ (length (Tl.cp_weights cp) <> 0 \/ length ds < 3 ->
          exists t, Tl.to_tensor cp = Ok t).
Proof.
  unfold to_CPTensor. intros H.
  apply bind_Ok_inv in H. destruct H as [[] [_ H]].
  apply bind_Ok_inv in H. destruct H as [w [Hw H]].
  apply bind_Ok_inv in H. destruct H as [ds [Hds H]].
  apply bind_Ok_inv in H. destruct H as [fs [Hfs H]].
  apply mk_CPTensor_inv in H. destruct H as [-> [Hne Hall]].
  unfold Dict.getitem in Hds.
  destruct (Dict.get (self_dims self) dv) as [ds'|]; [|discriminate].
  inversion Hds. subst ds'. exists ds. cbn [Tl.cp_weights Tl.cp_factors].
  pose proof (mapM_length _ _ Hfs) as Hlen.
  split; [reflexivity|].
  split; [intros ->; destruct fs; [contradiction | discriminate]|].
  split; [exact Hw|]. split; [exact Hfs|]. split; [exact Hlen|].
  split; [exact Hall|]. split.
  - intros t Ht. apply to_tensor_inv in Ht. subst t. reflexivity.
  - intros Hr. eexists. apply to_tensor_ok; auto.
    now rewrite Hlen.
Qed.

Lemma to_CPTensor_valid_witness :
  exists cp,
    to_CPTensor (built ds_ab 2) "v" = Ok cp
    /\ length (Tl.cp_factors cp) = 2
    /\ exists t, Tl.to_tensor cp = Ok t /\ shape t = [3; 2].
Proof.
  eexists. split; [reflexivity|].
  destruct (@to_CPTensor_valid (built ds_ab 2) "v" _ eq_refl)
    as [ds [_ [_ [_ [_ [_ [_ [Hsh _]]]]]]]].
  split; [reflexivity|].
  eexists. split; [reflexivity|]. apply Hsh. reflexivity.
Defined.

(** X6.  What [reconstruct] returns for one variable is put together from
    the other methods: the data are the dense tensor of [to_CPTensor],
    the attribute R2X is the score that [calcR2X] gives for the variable,
    the coordinates are those of the variable's axes in the dataset, in
    the order of its axes, and their lengths are the shape of the data. *)
Theorem reconstruct_one_consistent self dv r :
  reconstruct self (Some dv) = Ok r ->
  exists a cp ds,
    r = OneVar a
    /\ to_CPTensor self dv = Ok cp
    /\ Dict.get (self_dims self) dv = Some ds
    /\ da_name a = dv
    /\ Tl.to_tensor cp = Ok (da_data a)
    /\ calcR2X self (Some dv) = Ok (da_R2X a)
    /\ Dict.keys (da_coord a) = ds
    /\ (forall c ls, In (c, ls) (da_coord a) ->
          getcoord (self_data self) c = Ok ls)
    /\ shape (da_data a) = map (fun c => length (snd c)) (da_coord a).
Proof.
  unfold reconstruct. intros H.
  apply bind_Ok_inv in H. destruct H as [[] [_ H]].
  apply bind_Ok_inv in H. destruct H as [cp [Hcp H]].
  apply bind_Ok_inv in H. destruct H as [t [Ht H]].
  apply bind_Ok_inv in H. destruct H as [ds [Hds H]].
  apply bind_Ok_inv in H. destruct H as [cs [Hcs H]].
  apply bind_Ok_inv in H. destruct H as [r2 [Hr2 H]].
  apply bind_Ok_inv in H. destruct H as [a [Ha H]].
  inversion H. subst r. unfold DataArray_new in Ha.
  destruct (shape_eqb _ _) eqn:Esh; [|discriminate].
  apply shape_eqb_eq in Esh. inversion Ha. subst a.
  unfold Dict.getitem in Hds.
  destruct (Dict.get (self_dims self) dv) as [ds'|]; [|discriminate].
  inversion Hds. subst ds'.
  exists (mk_da dv t cs r2), cp, ds.
  cbn [da_name da_data da_R2X da_coord]. repeat split; auto.
  - clear -Hcs. revert cs Hcs. induction ds as [|d ds IH]; intros cs Hcs.
    + inversion Hcs. reflexivity.
    + cbn [mapM] in Hcs. apply bind_Ok_inv in Hcs.
      destruct Hcs as [[d' ls] [Hd Hcs]].
      apply bind_Ok_inv in Hd. destruct Hd as [ls' [_ Hd]]. inversion Hd.
      subst. apply bind_Ok_inv in Hcs. destruct Hcs as [cs' [Hcs' Hcs]].
      inversion Hcs. subst. cbn [Dict.keys map fst]. f_equal. now apply IH.
  - clear -Hcs. revert cs Hcs. induction ds as [|d ds IH]; intros cs Hcs c ls Hin.
    + inversion Hcs. subst. destruct Hin.
    + cbn [mapM] in Hcs. apply bind_Ok_inv in Hcs.
      destruct Hcs as [[d' ls0] [Hd Hcs]].
      apply bind_Ok_inv in Hd. destruct Hd as [ls' [Hget Hd]]. inversion Hd.
      subst. apply bind_Ok_inv in Hcs. destruct Hcs as [cs' [Hcs' Hcs]].
      inversion Hcs. subst. destruct Hin as [Heq|Hin].
      * inversion Heq. subst. exact Hget.
      * eapply IH; eauto.
Qed.

Lemma reconstruct_one_consistent_witness :
  exists a,
    reconstruct (built ds_ab 2) (Some "v") = Ok (OneVar a)
    /\ calcR2X (built ds_ab 2) (Some "v") = Ok (da_R2X a)
    /\ shape (da_data a) = [3; 2].
Proof.
  eexists. split; [reflexivity|].
  destruct (@reconstruct_one_consistent (built ds_ab 2) "v" _ eq_refl)
    as [a [cp [ds [Hr [_ [_ [_ [_ [Hs [_ [_ Hsh]]]]]]]]]]].
  inversion Hr. subst a. split; [exact Hs | exact Hsh].
Defined.

(* ================================================================== *)
(** ** The global score of a single variable *)

Lemma binary_round_aux_not_neg_zero m e l :
  binary_round_aux prec emax false m e l <> S754_zero true.
Proof.
  unfold binary_round_aux.
  destruct (shr_fexp prec emax m e l) as [mrs' e'].
  destruct (shr_fexp prec emax _ e' loc_Exact) as [mrs'' e''].
  destruct (shr_m mrs''); try discriminate.
  destruct (Z.leb e'' (emax - prec)); discriminate.
Qed.

(** A square is never the negative zero. *)
Lemma SF64mul_self_not_neg_zero (x : spec_float) :
  SF64mul x x <> S754_zero true.
Proof.
  destruct x as [s|s| |s m e]; simpl; try discriminate.
  - destruct s; discriminate.
  - unfold SF64mul, SFmul. replace (xorb s s) with false by (now destruct s).
    apply binary_round_aux_not_neg_zero.
Qed.

(** Adding a square to the Python float 0.0 gives the square. *)
Lemma zero_add_square (x : float) : (0 + x * x = x * x)%float.
Proof.
  apply Prim2SF_inj. rewrite add_spec, mul_spec.
  pose proof (SF64mul_self_not_neg_zero (Prim2SF x)) as Hnz.
  replace (Prim2SF 0%float) with (S754_zero false) by reflexivity.
  destruct (SF64mul (Prim2SF x) (Prim2SF x)) as [s|s| |s m e];
    try reflexivity.
  destruct s; [contradiction | reflexivity].
Qed.

Lemma TnB_of_squares self dv p :
  TnB_of self dv = Ok p ->
  exists a b, p = ((a * a)%float, (b * b)%float).
Proof.
  unfold TnB_of. intros H.
  apply bind_Ok_inv in H. destruct H as [v [_ H]].
  apply bind_Ok_inv in H. destruct H as [cp [_ H]].
  apply bind_Ok_inv in H. destruct H as [t [_ H]].
  unfold calcR2X_TnB in H. destruct (shape_eqb _ _); [|discriminate].
  inversion H. unfold sq. eauto.
Qed.

(** X7.  On an object with a single variable the global score and the
    score of that variable are the same result, exception included: adding
    the numerator and the denominator to the accumulators 0.0 changes
    neither of them. *)
Theorem calcR2X_single_variable self dv :
  Dict.keys (self_dims self) = [dv] ->
  calcR2X self None = calcR2X self (Some dv).
Proof.
  intros Hkeys. unfold calcR2X. rewrite Hkeys.
  cbn [foldM]. unfold Dict.mem. cbn [existsb].
  rewrite String.eqb_refl. cbn [orb assert bind].
  destruct (self_dims self) as [|kv l] eqn:Edims; [discriminate|].
  destruct (TnB_of self dv) as [p|e] eqn:Ep; cbn [bind]; [|reflexivity].
  destruct (TnB_of_squares _ _ Ep) as [a [b ->]]. cbn [fst snd bind].
  now rewrite !zero_add_square.
Qed.

Lemma calcR2X_single_variable_witness :
  Dict.keys (self_dims (built ds_ab 2)) = ["v"]
  /\ calcR2X (built ds_ab 2) None = calcR2X (built ds_ab 2) (Some "v").
Proof.
  split; [reflexivity|].
  apply (@calcR2X_single_variable (built ds_ab 2) "v"). reflexivity.
Defined.

(* ================================================================== *)
(** ** Scores and lookups that raise *)

(** X8.  An object built from a dataset without variables has no global
    score: the accumulators are still the Python floats 0.0 when they are
    divided, and [calcR2X()] raises ZeroDivisionError. *)
Theorem calcR2X_no_variables data rank ct :
  __init__ data rank = Ok ct ->
  data_vars data = [] ->
  calcR2X ct None = Raise ZeroDivisionError.
Proof.
  intros Hinit Hvars.
  destruct (@init_self_dims data rank ct Hinit) as [_ Hdims].
  unfold calcR2X. rewrite Hdims, Hvars. reflexivity.
Qed.

Lemma calcR2X_no_variables_witness :
  __init__ ds_empty 2 = Ok (built ds_empty 2)
  /\ calcR2X (built ds_empty 2) None = Raise ZeroDivisionError.
Proof.
  split; [reflexivity|].
  apply (@calcR2X_no_variables ds_empty 2 (built ds_empty 2));
    reflexivity.
Defined.

(** X9.  After construction, asking for a name that the dataset does not
    have fails on the assertion: [to_CPTensor], [calcR2X] and
    [reconstruct] raise AssertionError for a name that is not a variable,
    [khatri_rao] for a name that is not an axis. *)
Theorem unknown_name_AssertionError data rank ct name :
  __init__ data rank = Ok ct ->
  (~ In name (Dict.keys (data_vars data)) ->
     to_CPTensor ct name = Raise AssertionError
     /\ calcR2X ct (Some name) = Raise AssertionError
     /\ reconstruct ct (Some name) = Raise AssertionError)
  /\ (~ In name (Dict.keys (coords data)) ->
        khatri_rao ct name = Raise AssertionError).
Proof.
  intros Hinit.
  destruct (@init_self_dims data rank ct Hinit) as [Hdata Hdims].
  split.
  - intros Hnin. apply mem_false_In in Hnin.
    unfold to_CPTensor, calcR2X, reconstruct.
    rewrite Hdims, keys_map_values, Hnin. repeat split.
  - intros Hnin. apply mem_false_In in Hnin.
    unfold khatri_rao. rewrite Hdata, Hnin. reflexivity.
Qed.

Lemma unknown_name_AssertionError_witness :
  __init__ ds_ab 2 = Ok (built ds_ab 2)
  /\ calcR2X (built ds_ab 2) (Some "w") = Raise AssertionError
  /\ khatri_rao (built ds_ab 2) "w" = Raise AssertionError.
Proof.
  split; [reflexivity|].
  destruct (@unknown_name_AssertionError ds_ab 2 (built ds_ab 2) "w" eq_refl)
    as [Hv Ha].
  split.
  - apply Hv. simpl. intros [H|[]]. discriminate.
  - apply Ha. simpl. intros [H|[H|[]]]; discriminate.
Defined.

Lemma calcR2X_global_spec_without_infinities_witness :
  calcR2X (built ds_two 1) None
  = Ok (spec_weighted_R2X
          [(mk_nd [2; 1] [2; 2]%float, mk_nd [2; 1] [1; 1]%float);
           (mk_nd [2; 1] [10; 10]%float, mk_nd [2; 1] [1; 1]%float)]).
Proof.
  apply (@calcR2X_global_spec_without_infinities (built ds_two 1)).
  - discriminate.
  - reflexivity.
  - repeat constructor.
  - repeat constructor.
Defined.

(* ================================================================== *)
(** ** Invariants of [initialize] *)

Section Preserved.

Variable R : Dataset -> Dataset -> Prop.
Hypothesis R_refl : forall x, R x x.
Hypothesis R_trans : forall x y z, R x y -> R y z -> R x z.

Lemma preserves_ret {A} (a : A) : preserves R (ret a).
Proof. intros x. apply R_refl. Qed.

Lemma preserves_eval {A} (f : Dataset -> result A) : preserves R (eval f).
Proof. intros x. apply R_refl. Qed.

Lemma preserves_bind {A B} (m : M A) (k : A -> M B) :
  preserves R m -> (forall a, preserves R (k a)) -> preserves R (bindM m k).
Proof.
  intros Hm Hk x. unfold bindM. specialize (Hm x).
  destruct (m x) as [x' [a|e]]; simpl in *; [|exact Hm].
  eapply R_trans; [exact Hm | apply Hk].
Qed.

Lemma preserves_for {A} (l : list A) (body : A -> M unit) :
  (forall a, preserves R (body a)) -> preserves R (for_ l body).
Proof.
  intros Hbody. induction l as [|a l IH]; simpl.
  - apply preserves_ret.
  - apply preserves_bind; auto.
Qed.

Lemma preserves_when (c : bool) (body : M unit) :
  preserves R body -> preserves R (when c body).
Proof. intros H. destruct c; simpl; [exact H | apply preserves_ret]. Qed.

(** Reading the current value of a variable and writing back an array
    computed from it. *)
Lemma preserves_update {A} (read : Dataset -> result A)
      (write : A -> Dataset -> Dataset) :
  (forall x a, read x = Ok a -> R x (write a x)) ->
  preserves R (bindM (eval read) (fun a => modify (write a))).
Proof.
  intros H x. unfold bindM, eval, modify.
  destruct (read x) as [a|e] eqn:E; simpl; auto.
Qed.

End Preserved.

Lemma keys_set_old {V} (d : Dict.dict V) (k : string) (v v0 : V) :
  Dict.get d k = Some v0 -> Dict.keys (Dict.set d k v) = Dict.keys d.
Proof.
  induction d as [|[k' v'] d IH]; simpl; [discriminate|].
  destruct (String.eqb k k') eqn:E; simpl; [reflexivity|].
  intros H. now rewrite IH.
Qed.

Lemma same_layout_refl x : same_layout x x.
Proof. repeat split. intros k v H. exists v. auto. Qed.

Lemma same_layout_trans x y z :
  same_layout x y -> same_layout y z -> same_layout x z.
Proof.
  intros [Hc1 [Hk1 Hv1]] [Hc2 [Hk2 Hv2]]. repeat split; try congruence.
  intros k v Hx. destruct (Hv1 k v Hx) as [v1 [Hy [Hd1 Hs1]]].
  destruct (Hv2 k v1 Hy) as [v2 [Hz [Hd2 Hs2]]].
  exists v2. repeat split; congruence.
Qed.

(** Overwriting the values of a variable by an array of the same shape
    keeps the layout. *)
Lemma same_layout_setvalues x k v a :
  Dict.get (data_vars x) k = Some v ->
  shape a = shape (v_values v) ->
  same_layout x (setvalues x k a).
Proof.
  intros Hget Hsh. unfold setvalues. rewrite Hget.
  repeat split; cbn [coords data_vars].
  - now rewrite (keys_set_old _ _ _ Hget).
  - intros k0 v0 H0. destruct (String.eqb k0 k) eqn:E.
    + apply String.eqb_eq in E. subst k0. rewrite get_set_same.
      eexists. split; [reflexivity|]. cbn [v_dims v_values].
      split; congruence.
    + apply String.eqb_neq in E. rewrite get_set_other by exact E.
      exists v0. auto.
Qed.

Lemma same_weights_refl x : same_weights x x.
Proof. reflexivity. Qed.

Lemma same_weights_trans x y z :
  same_weights x y -> same_weights y z -> same_weights x z.
Proof. unfold same_weights. congruence. Qed.

Lemma same_weights_setvalues x mmode a :
  same_weights x (setvalues x (String "#" mmode) a).
Proof.
  unfold same_weights, setvalues.
  destruct (Dict.get (data_vars x) (String "#" mmode)); [|reflexivity].
  cbn [data_vars]. apply get_set_other. intros H. discriminate H.
Qed.

Lemma factor_inv x mmode t :
  factor x mmode = Ok t ->
  exists v, Dict.get (data_vars x) (String "#" mmode) = Some v
            /\ t = v_values v.
Proof.
  unfold factor, getvar, Dict.getitem.
  destruct (Dict.get (data_vars x) (String "#" mmode)) as [v|];
    [|discriminate].
  intros H. inversion H. eauto.
Qed.

Lemma set_cols_shape t u k t' :
  set_cols t u k = Ok t' -> shape t' = shape t.
Proof.
  unfold set_cols. destruct (negb (is_2d t)); [discriminate|].
  destruct (_ && _); [|discriminate]. intros H. now inversion H.
Qed.

(** The two loops of [initialize], under any relation that is kept by
    overwriting a factor matrix with an array of its own shape. *)
Lemma initialize_loops_preserve (R : Dataset -> Dataset -> Prop) :
  (forall x, R x x) ->
  (forall x y z, R x y -> R y z -> R x z) ->
  (forall x mmode v a,
      Dict.get (data_vars x) (String "#" mmode) = Some v ->
      shape a = shape (v_values v) ->
      R x (setvalues x (String "#" mmode) a)) ->
  forall (svd_U : ndarray -> result ndarray) self mmode,
    preserves R
      (t <~ eval (fun x => factor x mmode) ;;
       modify (fun x => setvalues x (String "#" mmode) (ones_like t)))
    /\ preserves R
         (m <~ eval (fun _ => Dict.getitem (self_unfold self) mmode) ;;
          u <~ eval (fun _ => svd_U m) ;;
          ls <~ eval (fun x => getcoord x mmode) ;;
          let k := Z.to_nat (Z.min (self_rank self)
                               (Z.of_nat (length ls))) in
          eval (fun _ => if is_2d u then Ok tt else Raise IndexError) >>
          t <~ eval (fun x => factor x mmode) ;;
          t' <~ eval (fun _ => set_cols t u k) ;;
          modify (fun x => setvalues x (String "#" mmode) t')).
Proof.
  intros Rrefl Rtrans Rset svd_U self mmode. split.
  - apply preserves_update; auto. intros x t Ht.
    destruct (@factor_inv x mmode t Ht) as [v [Hv ->]]. eapply Rset; eauto.
  - intros x. unfold bindM, eval, modify.
    destruct (Dict.getitem (self_unfold self) mmode) as [m|]; simpl; auto.
    destruct (svd_U m) as [u|]; simpl; auto.
    destruct (getcoord x mmode) as [ls|]; simpl; auto.
    destruct (is_2d u); simpl; auto.
    destruct (factor x mmode) as [t|] eqn:Ht; simpl; auto.
    destruct (set_cols t u _) as [t'|] eqn:Ht'; simpl; auto.
    destruct (@factor_inv x mmode t Ht) as [v [Hv ->]].
    eapply Rset; eauto. eapply set_cols_shape; eauto.
Qed.

(** X10.  Whatever the method, the solver and the outcome, [initialize]
    leaves a factor state with the layout it found: the same coordinates,
    the same matrices under the same names, each with its axes and its
    shape.  Only entries change. *)
Theorem initialize_keeps_layout svd_U self method x :
  same_layout x (fst (initialize svd_U self method x)).
Proof.
  assert (Hset : forall x mmode v a,
             Dict.get (data_vars x) (String "#" mmode) = Some v ->
             shape a = shape (v_values v) ->
             same_layout x (setvalues x (String "#" mmode) a)).
  { intros; eapply same_layout_setvalues; eauto. }
  pose proof (@initialize_loops_preserve same_layout same_layout_refl
                same_layout_trans Hset svd_U self) as Hloops.
  revert x. change (preserves same_layout (initialize svd_U self method)).
  unfold initialize.
  apply preserves_bind; [exact same_layout_trans | | intros _].
  - apply preserves_when; [exact same_layout_refl|].
    apply preserves_for;
      [exact same_layout_refl | exact same_layout_trans |].
    intros mmode. apply (Hloops mmode).
  - apply preserves_bind; [exact same_layout_trans | | intros _].
    + apply preserves_when; [exact same_layout_refl|].
      apply preserves_for;
        [exact same_layout_refl | exact same_layout_trans |].
      intros mmode. apply (Hloops mmode).
    + apply preserves_update; [exact same_layout_refl|].
      intros x w Hw. unfold getvar, Dict.getitem in Hw.
      destruct (Dict.get (data_vars x) "*Weight") as [v|] eqn:Ev;
        [|discriminate].
      inversion Hw. subst w. eapply same_layout_setvalues; eauto.
Qed.

Lemma bindM_Ok_inv {A B} (m : M A) (k : A -> M B) x x' (b : B) :
  bindM m k x = (x', Ok b) ->
  exists a x1, m x = (x1, Ok a) /\ k a x1 = (x', Ok b).
Proof.
  unfold bindM. destruct (m x) as [x1 [a|e]]; intros H.
  - exists a, x1. auto.
  - inversion H.
Qed.

(** The loops of [initialize] never touch the weight matrix. *)
Lemma initialize_loops_same_weights svd_U self (c : bool) (svd : bool) :
  preserves same_weights
    (when c
       (for_ (Dict.keys (ds_dims (self_data self)))
          (fun mmode =>
             if svd
             then
               m <~ eval (fun _ => Dict.getitem (self_unfold self) mmode) ;;
               u <~ eval (fun _ => svd_U m) ;;
               ls <~ eval (fun x => getcoord x mmode) ;;
               let k := Z.to_nat (Z.min (self_rank self)
                                    (Z.of_nat (length ls))) in
               eval (fun _ => if is_2d u then Ok tt else Raise IndexError) >>
               t <~ eval (fun x => factor x mmode) ;;
               t' <~ eval (fun _ => set_cols t u k) ;;
               modify (fun x => setvalues x (String "#" mmode) t')
             else
               t <~ eval (fun x => factor x mmode) ;;
               modify (fun x => setvalues x (String "#" mmode)
                                  (ones_like t))))).
Proof.
  apply preserves_when; [exact same_weights_refl|].
  apply preserves_for; [exact same_weights_refl | exact same_weights_trans |].
  intros mmode.
  destruct (@initialize_loops_preserve same_weights same_weights_refl
              same_weights_trans
              (fun x mmode v a _ _ => same_weights_setvalues x mmode a)
              svd_U self mmode) as [Hones Hsvd].
  destruct svd; assumption.
Qed.

(** X11.  Whenever [initialize] returns normally, with whatever method
    and solver, the weight matrix it leaves is the one it found with all
    entries set to one. *)
Theorem initialize_ok_resets_weights svd_U self method x x' :
  initialize svd_U self method x = (x', Ok tt) ->
  exists w,
    getvar x "*Weight" = Ok w
    /\ getvar x' "*Weight"
       = Ok (mk_var (v_dims w) (ones_like (v_values w))).
Proof.
  unfold initialize. intros H.
  apply bindM_Ok_inv in H. destruct H as [[] [x1 [H1 H]]].
  apply bindM_Ok_inv in H. destruct H as [[] [x2 [H2 H]]].
  apply bindM_Ok_inv in H. destruct H as [w [x3 [Hw H]]].
  unfold eval in Hw. inversion Hw. subst x3.
  unfold modify in H. inversion H. subst x'.
  pose proof (@initialize_loops_same_weights svd_U self
                (String.eqb method "ones") false x) as S1.
  pose proof (@initialize_loops_same_weights svd_U self
                (String.eqb method "svd") true x1) as S2.
  assert (S1' : same_weights x x1).
  { pose proof (f_equal fst H1) as E1. cbn [fst] in E1.
    rewrite <- E1. exact S1. }
  assert (S2' : same_weights x1 x2).
  { pose proof (f_equal fst H2) as E2. cbn [fst] in E2.
    rewrite <- E2. exact S2. }
  clear S1 S2. rename S1' into S1. rename S2' into S2.
  unfold same_weights in S1, S2.
  exists w. split.
  - unfold getvar, Dict.getitem in *. now rewrite <- S1, <- S2.
  - now apply getvar_setvalues_same.
Qed.

Lemma initialize_ok_resets_weights_witness :
  exists x',
    initialize svd_rejecting (built ds_ab 2) "svd" (self_x (built ds_ab 2))
    = (x', Ok tt)
    /\ getvar x' "*Weight"
       = Ok (mk_var ["*Data"; "*Component"] (ones [1; 2])).
Proof.
  eexists. split; [reflexivity|].
  destruct (@initialize_ok_resets_weights svd_rejecting (built ds_ab 2)
              "svd" (self_x (built ds_ab 2)) _ eq_refl) as [w [Hw Hw']].
  inversion Hw. subst w. exact Hw'.
Defined.

(* ================================================================== *)
(** ** Initialisation with ones *)

Lemma set_get_same {V} (d : Dict.dict V) (k : string) (v : V) :
  Dict.get d k = Some v -> Dict.set d k v = d.
Proof.
  induction d as [|[k' v'] d IH]; simpl; [discriminate|].
  destruct (String.eqb k k') eqn:E.
  - intros H. inversion H. reflexivity.
  - intros H. now rewrite IH.
Qed.

Lemma setvalues_same x k v :
  getvar x k = Ok v -> setvalues x k (v_values v) = x.
Proof.
  unfold getvar, Dict.getitem, setvalues.
  destruct (Dict.get (data_vars x) k) as [v0|] eqn:E; [|discriminate].
  intros H. inversion H. subst v0.
  replace (mk_var (v_dims v) (v_values v)) with v by (now destruct v).
  rewrite (set_get_same _ _ E). now destruct x.
Qed.

Lemma ones_like_ones (sh : list nat) : ones_like (ones sh) = ones sh.
Proof. reflexivity. Qed.

(** The loop of the "ones" branch on a state whose factor matrices are
    all ones already. *)
Lemma ones_loop_fixed (l : list string) (x : Dataset) :
  (forall mmode, In mmode l ->
     exists d sh, getvar x (String "#" mmode) = Ok (mk_var d (ones sh))) ->
  for_ l (fun mmode =>
            t <~ eval (fun x => factor x mmode) ;;
            modify (fun x => setvalues x (String "#" mmode) (ones_like t)))
    x = (x, Ok tt).
Proof.
  induction l as [|m l IH]; intros Hall; [reflexivity|].
  destruct (Hall m (or_introl eq_refl)) as [d [sh Hm]].
  cbn [for_]. unfold bindM at 1. unfold bindM at 1, eval at 1, modify at 1.
  unfold factor at 1. rewrite Hm. cbn [bind v_values].
  rewrite ones_like_ones.
  replace (setvalues x (String "#" m) (ones sh)) with x
    by (symmetry; exact (setvalues_same _ _ Hm)).
  apply IH. intros m' Hm'. apply Hall. now right.
Qed.

(** X12.  On an object that has just been constructed, [initialize] with
    the method "ones" changes nothing: it returns normally and the factor
    state is the one of the constructor, entry for entry. *)
Theorem initialize_ones_fresh svd_U data rank ct :
  __init__ data rank = Ok ct ->
  initialize svd_U ct "ones" (self_x ct) = (self_x ct, Ok tt).
Proof.
  intros Hinit.
  destruct (@init_self_dims data rank ct Hinit) as [Hdata _].
  unfold initialize. rewrite Hdata. cbn [String.eqb Ascii.eqb Bool.eqb when].
  unfold bindM at 1. rewrite ones_loop_fixed.
  - unfold bindM at 1. unfold ret at 1. unfold bindM, eval, modify.
    rewrite (@init_getvar_weight data rank ct Hinit). cbn [v_values].
    rewrite ones_like_ones.
    replace (setvalues (self_x ct) "*Weight"
               (ones [length (data_vars data); Z.to_nat rank]))
      with (self_x ct)
      by (symmetry;
          exact (setvalues_same _ _ (@init_getvar_weight data rank ct Hinit))).
    reflexivity.
  - intros mmode Hm. rewrite keys_ds_dims in Hm. apply In_dims_order in Hm.
    pose proof (@dim_in_ds_dims data mmode Hm) as Hin.
    do 2 eexists. exact (@init_getvar_factor data rank ct _ _ Hinit Hin).
Qed.

Lemma initialize_ones_fresh_witness :
  __init__ ds_ab 2 = Ok (built ds_ab 2)
  /\ initialize svd_rejecting (built ds_ab 2) "ones" (self_x (built ds_ab 2))
     = (self_x (built ds_ab 2), Ok tt).
Proof.
  split; [reflexivity|].
  apply (@initialize_ones_fresh svd_rejecting ds_ab 2 (built ds_ab 2)).
  reflexivity.
Defined.

Lemma sharp_inj (a b : string) : String "#" a = String "#" b -> a = b.
Proof. intros H. now inversion H. Qed.

(** The loop of the "ones" branch from any state that has the factor
    matrices: each of them is overwritten by ones, everything else is
    kept. *)
Lemma ones_loop (l : list string) : forall x,
  (forall m, In m l -> exists v, getvar x (String "#" m) = Ok v) ->
  exists x',
    for_ l (fun mmode =>
              t <~ eval (fun x => factor x mmode) ;;
              modify (fun x => setvalues x (String "#" mmode) (ones_like t)))
      x = (x', Ok tt)
    /\ (forall m v, In m l -> getvar x (String "#" m) = Ok v ->
          getvar x' (String "#" m)
          = Ok (mk_var (v_dims v) (ones_like (v_values v))))
    /\ (forall k, (forall m, In m l -> k <> String "#" m) ->
          getvar x' k = getvar x k).
Proof.
  induction l as [|a l IH]; intros x Hall.
  - exists x. split; [reflexivity|]. split; [intros m v []|]. auto.
  - destruct (Hall a (or_introl eq_refl)) as [va Hva].
    set (x1 := setvalues x (String "#" a) (ones_like (v_values va))).
    assert (Hsame : getvar x1 (String "#" a)
                    = Ok (mk_var (v_dims va) (ones_like (v_values va)))).
    { now apply getvar_setvalues_same. }
    assert (Hother : forall k, k <> String "#" a ->
                               getvar x1 k = getvar x k).
    { intros k Hk. now apply getvar_setvalues_other. }
    destruct (IH x1) as [x' [Hrun [P1 P2]]].
    { intros m Hm. destruct (string_dec m a) as [->|Hne]; [eauto|].
      destruct (Hall m (or_intror Hm)) as [v Hv]. exists v.
      rewrite Hother; [exact Hv|]. intros H. apply sharp_inj in H. tauto. }
    exists x'. split; [|split].
    + cbn [for_]. unfold bindM at 1. unfold bindM at 1, eval at 1, modify at 1.
      unfold factor at 1. rewrite Hva. cbn [bind]. exact Hrun.
    + intros m v Hm Hv. destruct (in_dec string_dec m l) as [Hin|Hnin].
      * destruct (string_dec m a) as [->|Hne].
        -- rewrite Hva in Hv. inversion Hv. subst v.
           rewrite (P1 a _ Hin Hsame). reflexivity.
        -- apply (P1 m v Hin). rewrite Hother; [exact Hv|].
           intros H. apply sharp_inj in H. tauto.
      * destruct Hm as [<-|Hm]; [|tauto].
        rewrite Hva in Hv. inversion Hv. subst v.
        rewrite P2; [exact Hsame|].
        intros m' Hm' H. apply sharp_inj in H. subst. tauto.
    + intros k Hk. rewrite P2.
      * apply Hother. apply Hk. now left.
      * intros m Hm. apply Hk. now right.
Qed.

(** X13.  From any factor state that holds a matrix for every axis and
    the weight matrix, [initialize] with the method "ones" returns
    normally and overwrites every factor matrix and the weight matrix by
    ones, keeping its axes and its shape: whatever an earlier
    initialisation wrote is undone. *)
Theorem initialize_ones_resets svd_U self x w :
  (forall m, In m (Dict.keys (ds_dims (self_data self))) ->
     exists v, getvar x (String "#" m) = Ok v) ->
  getvar x "*Weight" = Ok w ->
  exists x',
    initialize svd_U self "ones" x = (x', Ok tt)
    /\ (forall m v, In m (Dict.keys (ds_dims (self_data self))) ->
          getvar x (String "#" m) = Ok v ->
          getvar x' (String "#" m)
          = Ok (mk_var (v_dims v) (ones_like (v_values v))))
    /\ getvar x' "*Weight" = Ok (mk_var (v_dims w) (ones_like (v_values w))).
Proof.
  intros Hall Hw.
  destruct (@ones_loop _ x Hall) as [x1 [Hrun [P1 P2]]].
  assert (Hw1 : getvar x1 "*Weight" = Ok w).
  { rewrite P2; [exact Hw|]. intros m _ H. discriminate H. }
  exists (setvalues x1 "*Weight" (ones_like (v_values w))).
  split; [|split].
  - unfold initialize. cbn [String.eqb Ascii.eqb Bool.eqb when].
    unfold bindM at 1. rewrite Hrun.
    unfold bindM at 1. unfold ret at 1. unfold bindM, eval, modify.
    now rewrite Hw1.
  - intros m v Hm Hv.
    rewrite getvar_setvalues_other by (intros H; discriminate H).
    now apply P1.
  - now apply getvar_setvalues_same.
Qed.

Lemma initialize_ones_resets_witness :
  getvar (fst (initialize svd_twos (built ds_ab 2) "svd"
                 (self_x (built ds_ab 2)))) "#a"
  = Ok (mk_var ["a"; "*Component"] (full [3; 2] 2%float))
  /\ exists x',
       initialize svd_twos (built ds_ab 2) "ones"
         (fst (initialize svd_twos (built ds_ab 2) "svd"
                 (self_x (built ds_ab 2))))
       = (x', Ok tt)
       /\ getvar x' "#a" = Ok (mk_var ["a"; "*Component"] (ones [3; 2])).
Proof.
  split; [reflexivity|].
  destruct (@initialize_ones_resets svd_twos (built ds_ab 2)
              (fst (initialize svd_twos (built ds_ab 2) "svd"
                      (self_x (built ds_ab 2))))
              (mk_var ["*Data"; "*Component"] (ones [1; 2])))
    as [x' [Hrun [Hf _]]].
  - intros m [<-|[<-|[]]]; eexists; reflexivity.
  - reflexivity.
  - exists x'. split; [exact Hrun|].
    apply (Hf "a" (mk_var ["a"; "*Component"] (full [3; 2] 2%float))).
    + now left.
    + reflexivity.
Defined.

(* ================================================================== *)
(** ** SVD initialisation when the solver succeeds *)

Lemma nth_rows {A} (f : nat -> nat -> A) (d : A) (c : nat) :
  forall n s i j, i < n -> j < c ->
  nth (i * c + j) (flat_map (fun i => map (f i) (seq 0 c)) (seq s n)) d
  = f (s + i) j.
Proof.
  induction n as [|n IH]; intros s i j Hi Hj; [lia|].
  cbn [seq flat_map]. destruct i as [|i].
  - rewrite app_nth1 by (rewrite length_map, length_seq; lia).
    simpl. rewrite (nth_indep _ d (f s 0)) by (rewrite length_map, length_seq; lia).
    rewrite map_nth, seq_nth by lia. now rewrite Nat.add_0_r.
  - rewrite app_nth2 by (rewrite length_map, length_seq; lia).
    rewrite length_map, length_seq.
    replace (S i * c + j - c) with (i * c + j) by lia.
    rewrite IH by lia. f_equal. lia.
Qed.

Lemma item_2d (t : ndarray) (n c i j : nat) :
  shape t = [n; c] -> item t [i; j] = nth (i * c + j) (data t) 0%float.
Proof.
  intros Hsh. unfold item. rewrite Hsh. cbn [ravel_index size fold_right].
  f_equal. lia.
Qed.

(** [t[:, :k] = u[:, :k]] when the two arrays have the same number of
    rows and the slices the same number of columns: the array keeps its
    shape, its first [min k c] columns are those of [u], the others are
    kept. *)
Lemma set_cols_item t u k n c c' :
  shape t = [n; c] -> shape u = [n; c'] ->
  Nat.min k c' = Nat.min k c ->
  exists t',
    set_cols t u k = Ok t'
    /\ shape t' = [n; c]
    /\ forall i j, i < n -> j < c ->
         item t' [i; j]
         = if (j <? Nat.min k c)%nat then item u [i; j] else item t [i; j].
Proof.
  intros Ht Hu Hmin. unfold set_cols, is_2d, ndim, nrows, ncols.
  rewrite Ht, Hu. cbn [length nth negb Nat.eqb].
  rewrite Nat.eqb_refl, Hmin, Nat.eqb_refl. cbn [orb andb].
  eexists. split; [reflexivity|]. split; [reflexivity|].
  intros i j Hi Hj.
  rewrite (@item_2d _ n c i j) by reflexivity. cbn [data].
  rewrite (@nth_rows _ _ 0%float c n 0 i j Hi Hj). cbn [Nat.add].
  destruct (j <? Nat.min k c)%nat eqn:E; [|reflexivity].
  apply Nat.ltb_lt in E.
  destruct (n =? 1)%nat eqn:En; destruct (Nat.min k c =? 1)%nat eqn:Ec;
    try apply Nat.eqb_eq in En; try apply Nat.eqb_eq in Ec;
    repeat f_equal; lia.
Qed.

Lemma item_ones (n c i j : nat) :
  i < n -> j < c -> item (ones [n; c]) [i; j] = 1%float.
Proof.
  intros Hi Hj. rewrite (@item_2d _ n c i j) by reflexivity.
  unfold ones, full. cbn [data size fold_right].
  rewrite (nth_indep _ 0%float 1%float) by (rewrite repeat_length; nia).
  apply nth_repeat.
Qed.

Lemma coords_setvalues x k a : coords (setvalues x k a) = coords x.
Proof.
  unfold setvalues. now destruct (Dict.get (data_vars x) k).
Qed.

(** The labels of an axis in the factor state of a constructed object. *)
Lemma init_getcoord data rank ct m :
  __init__ data rank = Ok ct ->
  In m (Dict.keys (coords data)) ->
  exists ls, getcoord (self_x ct) m = Ok ls /\ length ls = dim_len data m.
Proof.
  intros Hinit Hm.
  pose proof (@dim_in_ds_dims data m Hm) as Hin.
  pose proof (@init_getvar_factor data rank ct m _ Hinit Hin) as Hf.
  destruct (@init_inv data rank ct Hinit) as [nd [unf [_ [_ [Hwf _]]]]].
  unfold getvar, Dict.getitem in Hf.
  destruct (Dict.get (data_vars (self_x ct)) (String "#" m)) as [v|] eqn:E;
    [|discriminate].
  inversion Hf. subst v. apply get_In in E.
  pose proof (@wf_dataset_var (self_x ct) _ Hwf E) as Hv.
  apply wf_var_inv in Hv. cbn [snd v_dims v_values] in Hv.
  destruct Hv as [_ [Hax [Hsh _]]].
  cbn [map shape ones full] in Hsh. injection Hsh as Hlen _.
  exists (labels_of (self_x ct) m). split.
  - apply getcoord_labels. apply Hax. now left.
  - rewrite <- dim_len_labels. symmetry. exact Hlen.
Qed.

(** The loop of the "svd" branch from a state whose factor matrices are
    all ones, with a solver that returns a square matrix for every
    axis. *)
Lemma svd_loop svd_U self (n : string -> nat) (l : list string) :
  NoDup l -> forall x,
  (forall m, In m l ->
     exists um U ls,
       Dict.getitem (self_unfold self) m = Ok um
       /\ svd_U um = Ok U
       /\ shape U = [n m; n m]
       /\ getcoord x m = Ok ls
       /\ length ls = n m
       /\ getvar x (String "#" m)
          = Ok (mk_var [m; "*Component"]
                  (ones [n m; Z.to_nat (self_rank self)]))) ->
  exists x',
    for_ l (fun mmode =>
       m <~ eval (fun _ => Dict.getitem (self_unfold self) mmode) ;;
       u <~ eval (fun _ => svd_U m) ;;
       ls <~ eval (fun x => getcoord x mmode) ;;
       let k := Z.to_nat (Z.min (self_rank self) (Z.of_nat (length ls))) in
       eval (fun _ => if is_2d u then Ok tt else Raise IndexError) >>
       t <~ eval (fun x => factor x mmode) ;;
       t' <~ eval (fun _ => set_cols t u k) ;;
       modify (fun x => setvalues x (String "#" mmode) t')) x
    = (x', Ok tt)
    /\ (forall m um U, In m l ->
          Dict.getitem (self_unfold self) m = Ok um -> svd_U um = Ok U ->
          exists t',
            set_cols (ones [n m; Z.to_nat (self_rank self)]) U
              (Z.to_nat (Z.min (self_rank self) (Z.of_nat (n m)))) = Ok t'
            /\ getvar x' (String "#" m) = Ok (mk_var [m; "*Component"] t'))
    /\ (forall k, (forall m, In m l -> k <> String "#" m) ->
          getvar x' k = getvar x k).
Proof.
  intros Hnd. induction Hnd as [|a l Hna Hnd IH]; intros x Hall.
  - exists x. split; [reflexivity|]. split; [intros m um U []|]. auto.
  - destruct (Hall a (or_introl eq_refl))
      as [um [U [ls [Hum [HU [HshU [Hls [Hlen Hva]]]]]]]].
    destruct (@set_cols_item (ones [n a; Z.to_nat (self_rank self)]) U
                (Z.to_nat (Z.min (self_rank self) (Z.of_nat (n a))))
                (n a) (Z.to_nat (self_rank self)) (n a) eq_refl HshU)
      as [t' [Hset [Hsht' Hitems]]]; [lia|].
    set (x1 := setvalues x (String "#" a) t').
    assert (Hsame : getvar x1 (String "#" a)
                    = Ok (mk_var [a; "*Component"] t')).
    { unfold x1. now rewrite (@getvar_setvalues_same x _ t' _ Hva). }
    assert (Hother : forall k, k <> String "#" a ->
                               getvar x1 k = getvar x k).
    { intros k Hk. now apply getvar_setvalues_other. }
    destruct (IH x1) as [x' [Hrun [P1 P2]]].
    { intros m Hm. destruct (Hall m (or_intror Hm))
        as [um' [U' [ls' [Hum' [HU' [HshU' [Hls' [Hlen' Hv']]]]]]]].
      exists um', U', ls'. repeat split; auto.
      - unfold getcoord, x1. rewrite coords_setvalues. exact Hls'.
      - rewrite Hother; [exact Hv'|].
        intros H. apply sharp_inj in H. subst. tauto. }
    exists x'. split; [|split].
    + cbn [for_]. unfold bindM at 1. unfold bindM at 1. unfold eval at 1.
      rewrite Hum. unfold bindM at 1. unfold eval at 1. rewrite HU.
      unfold bindM at 1. unfold eval at 1. rewrite Hls. cbv zeta.
      unfold bindM at 1. unfold eval at 1.
      assert (H2d : is_2d U = true).
      { unfold is_2d, ndim. now rewrite HshU. }
      rewrite H2d. unfold bindM at 1. unfold eval at 1.
      unfold factor at 1. rewrite Hva. cbn [bind v_values].
      unfold bindM at 1. unfold eval at 1. rewrite Hlen, Hset.
      unfold modify at 1. exact Hrun.
    + intros m um0 U0 Hm Hum0 HU0.
      destruct (in_dec string_dec m l) as [Hin|Hnin].
      * exact (P1 m um0 U0 Hin Hum0 HU0).
      * destruct Hm as [<-|Hm]; [|tauto].
        rewrite Hum in Hum0. inversion Hum0. subst um0.
        rewrite HU in HU0. inversion HU0. subst U0.
        exists t'. split; [exact Hset|].
        rewrite P2; [exact Hsame|].
        intros m' Hm' H. apply sharp_inj in H. subst. tauto.
    + intros k Hk. rewrite P2.
      * apply Hother. apply Hk. now left.
      * intros m Hm. apply Hk. now right.
Qed.

(** X14.  On an object that has just been constructed, with a solver that
    returns a square matrix of left singular vectors for the unfolding of
    every axis, [initialize] with the method "svd" returns normally.  The
    factor matrix of an axis with [n] labels keeps its shape [n] by
    [rank]; its first [min rank n] columns are those of the solver's
    matrix and the columns after them, present when [rank] exceeds [n],
    stay at one.  The weight matrix stays at ones. *)
Theorem initialize_svd_fresh svd_U data rank ct :
  __init__ data rank = Ok ct ->
  (forall m um, In m (Dict.keys (coords data)) -> xr_unfold data m = Ok um ->
     exists U, svd_U um = Ok U
               /\ shape U = [dim_len data m; dim_len data m]) ->
  exists x',
    initialize svd_U ct "svd" (self_x ct) = (x', Ok tt)
    /\ getvar x' "*Weight" = getvar (self_x ct) "*Weight"
    /\ forall m um U,
         In m (Dict.keys (coords data)) ->
         xr_unfold data m = Ok um -> svd_U um = Ok U ->
         exists t,
           factor x' m = Ok t
           /\ shape t = [dim_len data m; Z.to_nat rank]
           /\ forall i j, i < dim_len data m -> j < Z.to_nat rank ->
                item t [i; j]
                = if (j <? Nat.min (Z.to_nat rank) (dim_len data m))%nat
                  then item U [i; j] else 1%float.
Proof.
  intros Hinit Hsvd.
  destruct (@init_self_dims data rank ct Hinit) as [Hdata _].
  assert (Hrank : self_rank ct = rank).
  { destruct (@init_inv data rank ct Hinit)
      as [nd [unf [_ [_ [_ [_ [_ [_ Hct]]]]]]]].
    rewrite Hct. reflexivity. }
  pose proof (nodup_dims_order data) as Hnd.
  apply nodup_NoDup in Hnd.
  assert (Hget : forall m, In m (Dict.keys (coords data)) ->
            exists um, xr_unfold data m = Ok um
                       /\ Dict.getitem (self_unfold ct) m = Ok um).
  { intros m Hm. destruct (@init_unfold_get data rank ct m Hinit Hm)
      as [um [Hum Hg]].
    exists um. split; [exact Hum|]. unfold Dict.getitem. now rewrite Hg. }
  destruct (@svd_loop svd_U ct (dim_len data) (dims_order data) Hnd
              (self_x ct)) as [x1 [Hrun [P1 P2]]].
  { intros m Hm. apply In_dims_order in Hm.
    destruct (Hget m Hm) as [um [Hum Hg]].
    destruct (Hsvd m um Hm Hum) as [U [HU HshU]].
    destruct (@init_getcoord data rank ct m Hinit Hm) as [ls [Hls Hlen]].
    exists um, U, ls. rewrite Hrank. repeat split; auto.
    apply (@init_getvar_factor data rank ct m _ Hinit).
    now apply dim_in_ds_dims. }
  pose proof (@init_getvar_weight data rank ct Hinit) as Hw.
  assert (Hw1 : getvar x1 "*Weight" = getvar (self_x ct) "*Weight").
  { apply P2. intros m _ H. discriminate H. }
  exists x1. split; [|split].
  - unfold initialize. rewrite Hdata, keys_ds_dims.
    cbn [String.eqb Ascii.eqb Bool.eqb when].
    unfold bindM at 1. unfold ret at 1. unfold bindM at 1.
    cbv zeta in Hrun. rewrite Hrun.
    unfold bindM, eval, modify. rewrite Hw1, Hw. cbn [v_values].
    rewrite ones_like_ones.
    replace (setvalues x1 "*Weight"
               (ones [length (data_vars data); Z.to_nat rank]))
      with x1; [reflexivity|].
    symmetry. rewrite Hw in Hw1. exact (@setvalues_same x1 _ _ Hw1).
  - exact Hw1.
  - intros m um U Hm Hum HU.
    destruct (Hget m Hm) as [um' [Hum' Hg]].
    rewrite Hum in Hum'. inversion Hum'. subst um'.
    destruct (P1 m um U (proj2 (In_dims_order data m) Hm) Hg HU)
      as [t [Hset Ht]].
    destruct (Hsvd m um Hm Hum) as [U' [HU' HshU]].
    rewrite HU in HU'. inversion HU'. subst U'.
    rewrite Hrank in Hset.
    destruct (@set_cols_item (ones [dim_len data m; Z.to_nat rank]) U
                (Z.to_nat (Z.min rank (Z.of_nat (dim_len data m))))
                (dim_len data m) (Z.to_nat rank) (dim_len data m)
                eq_refl HshU)
      as [t' [Hset' [Hsht Hitems]]]; [lia|].
    rewrite Hset in Hset'. inversion Hset'. subst t'.
    exists t. split; [|split].
    + unfold factor. now rewrite Ht.
    + exact Hsht.
    + intros i j Hi Hj. rewrite (Hitems i j Hi Hj).
      replace (Nat.min (Z.to_nat (Z.min rank (Z.of_nat (dim_len data m))))
                 (Z.to_nat rank))
        with (Nat.min (Z.to_nat rank) (dim_len data m)) by lia.
      destruct (j <? Nat.min (Z.to_nat rank) (dim_len data m))%nat;
        [reflexivity|].
      now apply item_ones.
Qed.

Lemma initialize_svd_fresh_witness :
  __init__ ds_ab 3 = Ok (built ds_ab 3)
  /\ exists x',
       initialize svd_twos (built ds_ab 3) "svd" (self_x (built ds_ab 3))
       = (x', Ok tt)
       /\ exists t,
            factor x' "b" = Ok t
            /\ shape t = [2; 3]
            /\ item t [1; 1] = 2%float
            /\ item t [1; 2] = 1%float.
Proof.
  split; [reflexivity|].
  destruct (@initialize_svd_fresh svd_twos ds_ab 3 (built ds_ab 3) eq_refl)
    as [x' [Hrun [_ Hf]]].
  - intros m um [<-|[<-|[]]] H; vm_compute in H; inversion H; subst um;
      eexists; split; reflexivity.
  - exists x'. split; [exact Hrun|].
    destruct (Hf "b" (mk_nd [2; 3] [1; 3; 5; 2; 4; 6]%float)
                (full [2; 2] 2%float))
      as [t [Ht [Hsh Hitems]]].
    + right. now left.
    + reflexivity.
    + reflexivity.
    + exists t. split; [exact Ht|]. split; [exact Hsh|].
      split; [apply (Hitems 1 1) | apply (Hitems 1 2)]; vm_compute; lia.
Defined.

(* ================================================================== *)
(** ** SVD initialisation when the solver fails part-way *)

Lemma for_app {A} (body : A -> M unit) (l1 l2 : list A) : forall x,
  for_ (l1 ++ l2) body x
  = match for_ l1 body x with
    | (x1, Ok _) => for_ l2 body x1
    | (x1, Raise e) => (x1, Raise e)
    end.
Proof.
  induction l1 as [|a l1 IH]; intros x; [reflexivity|].
  cbn [app for_]. unfold bindM.
  destruct (body a x) as [x0 [u|e]]; [apply IH | reflexivity].
Qed.

Lemma NoDup_app_disjoint {A} (l1 l2 : list A) :
  NoDup (l1 ++ l2) -> forall a, In a l1 -> In a l2 -> False.
Proof.
  induction l1 as [|b l1 IH]; intros Hnd a H1 H2; [destruct H1|].
  cbn [app] in Hnd. inversion Hnd as [|? ? Hb Hnd']. subst.
  destruct H1 as [->|H1].
  - apply Hb. apply in_or_app. now right.
  - exact (IH Hnd' a H1 H2).
Qed.

(** The matrix that the "svd" branch writes for an axis with [n] labels. *)
Lemma svd_columns (U t : ndarray) (n : nat) (rank : Z) :
  shape U = [n; n] ->
  set_cols (ones [n; Z.to_nat rank]) U
    (Z.to_nat (Z.min rank (Z.of_nat n))) = Ok t ->
  shape t = [n; Z.to_nat rank]
  /\ forall i j, i < n -> j < Z.to_nat rank ->
       item t [i; j]
       = if (j <? Nat.min (Z.to_nat rank) n)%nat
         then item U [i; j] else 1%float.
Proof.
  intros HshU Hset.
  destruct (@set_cols_item (ones [n; Z.to_nat rank]) U
              (Z.to_nat (Z.min rank (Z.of_nat n)))
              n (Z.to_nat rank) n eq_refl HshU)
    as [t' [Hset' [Hsht Hitems]]]; [lia|].
  rewrite Hset in Hset'. inversion Hset'. subst t'.
  split; [exact Hsht|].
  intros i j Hi Hj. rewrite (Hitems i j Hi Hj).
  replace (Nat.min (Z.to_nat (Z.min rank (Z.of_nat n))) (Z.to_nat rank))
    with (Nat.min (Z.to_nat rank) n) by lia.
  destruct (j <? Nat.min (Z.to_nat rank) n)%nat; [reflexivity|].
  now apply item_ones.
Qed.

(** X15.  [initialize] with the method "svd" is not atomic.  It goes
    through the axes in the order of [data.dims]; when the solver fails on
    the unfolding of an axis after having succeeded on the axes before it,
    the call raises the solver's error and leaves the object half
    initialised: the factor matrices of the earlier axes hold the solver's
    columns, those of the failing axis and of the axes after it are as
    they were. *)
Theorem initialize_svd_failure_partial svd_U data rank ct pre m post um e :
  __init__ data rank = Ok ct ->
  Dict.keys (ds_dims data) = (pre ++ m :: post)%list ->
  (forall a ua, In a pre -> xr_unfold data a = Ok ua ->
     exists U, svd_U ua = Ok U
               /\ shape U = [dim_len data a; dim_len data a]) ->
  xr_unfold data m = Ok um ->
  svd_U um = Raise e ->
  exists x',
    initialize svd_U ct "svd" (self_x ct) = (x', Raise e)
    /\ (forall a, In a (m :: post) ->
          getvar x' (String "#" a) = getvar (self_x ct) (String "#" a))
    /\ forall a ua U,
         In a pre -> xr_unfold data a = Ok ua -> svd_U ua = Ok U ->
         exists t,
           factor x' a = Ok t
           /\ shape t = [dim_len data a; Z.to_nat rank]
           /\ forall i j, i < dim_len data a -> j < Z.to_nat rank ->
                item t [i; j]
                = if (j <? Nat.min (Z.to_nat rank) (dim_len data a))%nat
                  then item U [i; j] else 1%float.
Proof.
  intros Hinit Hkeys Hsvd Hum He.
  destruct (@init_self_dims data rank ct Hinit) as [Hdata _].
  assert (Hrank : self_rank ct = rank).
  { destruct (@init_inv data rank ct Hinit)
      as [nd [unf [_ [_ [_ [_ [_ [_ Hct]]]]]]]].
    rewrite Hct. reflexivity. }
  pose proof (nodup_ds_dims data) as Hnd.
  apply nodup_NoDup in Hnd. rewrite Hkeys in Hnd.
  assert (Hpre : forall a, In a pre -> In a (Dict.keys (coords data))).
  { intros a Ha. apply In_dims_order. rewrite <- keys_ds_dims, Hkeys.
    apply in_or_app. now left. }
  assert (Hm : In m (Dict.keys (coords data))).
  { apply In_dims_order. rewrite <- keys_ds_dims, Hkeys.
    apply in_or_app. right. now left. }
  assert (Hget : forall a, In a (Dict.keys (coords data)) ->
            exists ua, xr_unfold data a = Ok ua
                       /\ Dict.getitem (self_unfold ct) a = Ok ua).
  { intros a Ha. destruct (@init_unfold_get data rank ct a Hinit Ha)
      as [ua [Hua Hg]].
    exists ua. split; [exact Hua|]. unfold Dict.getitem. now rewrite Hg. }
  destruct (@svd_loop svd_U ct (dim_len data) pre
              (NoDup_app_remove_r _ _ Hnd) (self_x ct))
    as [x1 [Hrun [P1 P2]]].
  { intros a Ha. destruct (Hget a (Hpre a Ha)) as [ua [Hua Hg]].
    destruct (Hsvd a ua Ha Hua) as [U [HU HshU]].
    destruct (@init_getcoord data rank ct a Hinit (Hpre a Ha))
      as [ls [Hls Hlen]].
    exists ua, U, ls. rewrite Hrank. repeat split; auto.
    apply (@init_getvar_factor data rank ct a _ Hinit).
    apply dim_in_ds_dims. now apply Hpre. }
  exists x1. split; [|split].
  - destruct (Hget m Hm) as [um' [Hum' Hg]].
    rewrite Hum in Hum'. inversion Hum'. subst um'.
    unfold initialize. rewrite Hdata, Hkeys.
    cbn [String.eqb Ascii.eqb Bool.eqb when].
    unfold bindM at 1. unfold ret at 1. unfold bindM at 1.
    rewrite for_app. cbv zeta in Hrun. rewrite Hrun.
    cbn [for_]. unfold bindM, eval. now rewrite Hg, He.
  - intros a Ha. apply P2. intros a' Ha' H. apply sharp_inj in H. subst a'.
    exact (@NoDup_app_disjoint _ pre (m :: post) Hnd a Ha' Ha).
  - intros a ua U Ha Hua HU.
    destruct (Hget a (Hpre a Ha)) as [ua' [Hua' Hg]].
    rewrite Hua in Hua'. inversion Hua'. subst ua'.
    destruct (P1 a ua U Ha Hg HU) as [t [Hset Ht]].
    destruct (Hsvd a ua Ha Hua) as [U' [HU' HshU]].
    rewrite HU in HU'. inversion HU'. subst U'.
    rewrite Hrank in Hset.
    destruct (@svd_columns U t (dim_len data a) rank HshU Hset)
      as [Hsht Hitems].
    exists t. split; [|split]; auto.
    unfold factor. now rewrite Ht.
Qed.

Lemma initialize_svd_failure_partial_witness :
  __init__ ds_late_nan 1 = Ok (built ds_late_nan 1)
  /\ Dict.keys (coords ds_late_nan) = ["b"; "a"]
  /\ Dict.keys (ds_dims ds_late_nan) = ["a"; "b"]
  /\ exists x',
       initialize svd_twos_rejecting (built ds_late_nan 1) "svd"
         (self_x (built ds_late_nan 1))
       = (x', Raise LinAlgError)
       /\ getvar x' "#b" = getvar (self_x (built ds_late_nan 1)) "#b"
       /\ exists t, factor x' "a" = Ok t /\ item t [0; 0] = 2%float.
Proof.
  split; [reflexivity|]. split; [reflexivity|]. split; [reflexivity|].
  destruct (@initialize_svd_failure_partial svd_twos_rejecting ds_late_nan 1
              (built ds_late_nan 1) ["a"] "b" []
              (mk_nd [2; 1] [PrimFloat.nan; 1]%float) LinAlgError eq_refl)
    as [x' [Hrun [Hkept Hf]]].
  - reflexivity.
  - intros a ua [<-|[]] H. vm_compute in H. inversion H. subst ua.
    eexists. split; reflexivity.
  - reflexivity.
  - reflexivity.
  - exists x'. split; [exact Hrun|]. split; [apply Hkept; now left|].
    destruct (Hf "a" (mk_nd [2; 1] [1; 2]%float) (full [2; 2] 2%float))
      as [t [Ht [_ Hitems]]].
    + now left.
    + reflexivity.
    + reflexivity.
    + exists t. split; [exact Ht|]. apply (Hitems 0 0); vm_compute; lia.
Defined.

(* ================================================================== *)
(** ** Construction with a negative rank *)

(** X16.  The constructor refuses a negative rank, whatever the dataset:
    the first matrix of ones it allocates (a factor matrix, or the weight
    matrix when the dataset has no axis) has a negative extent and numpy
    raises ValueError. *)
Theorem init_negative_rank data rank :
  (rank < 0)%Z -> __init__ data rank = Raise ValueError.
Proof.
  intros Hneg.
  assert (Hno : forall n, alloc_ok n rank = false).
  { intros n. unfold alloc_ok.
    replace (0 <=? rank)%Z with false; [reflexivity|].
    symmetry. apply Z.leb_gt. exact Hneg. }
  rewrite init_steps. unfold arange1_Z.
  replace (8 * rank <=? max_intp)%Z with true
    by (symmetry; apply Z.leb_le; unfold max_intp; lia).
  cbn [bind].
  destruct (ds_dims data) as [|[a n] l].
  - cbn [foldM bind]. unfold ones_Z. rewrite Hno. reflexivity.
  - cbn [foldM]. unfold make_factors at 1, ones_Z. cbn [snd].
    rewrite Hno. reflexivity.
Qed.

Lemma init_negative_rank_witness : __init__ ds_ab (-1) = Raise ValueError.
Proof. apply (@init_negative_rank ds_ab (-1)). reflexivity. Defined.

(* ================================================================== *)
(** ** Examples on the sample data *)

Lemma reconstruct_after_init_witness :
  exists r,
    calcR2X (built ds_ab 2) (Some "v") = Ok r
    /\ reconstruct (built ds_ab 2) (Some "v")
       = Ok (OneVar
               (mk_da "v"
                  (unit_recon ds_ab 2
                     (mk_var ["a"; "b"]
                        (mk_nd [3; 2] [1; 2; 3; 4; 5; 6]%float)))
                  [("a", labels_of ds_ab "a"); ("b", labels_of ds_ab "b")]
                  r))
    /\ shape (unit_recon ds_ab 2
                (mk_var ["a"; "b"] (mk_nd [3; 2] [1; 2; 3; 4; 5; 6]%float)))
       = [3; 2].
Proof.
  apply (@reconstruct_after_init ds_ab 2 (built ds_ab 2) "v"
           (mk_var ["a"; "b"] (mk_nd [3; 2] [1; 2; 3; 4; 5; 6]%float))).
  - reflexivity.
  - reflexivity.
  - now left.
  - discriminate.
  - left. lia.
Defined.

Lemma calcR2X_global_after_init_witness :
  calcR2X (built ds_two 1) None
  = Ok (weighted_R2X
          [(mk_nd [2; 1] [2; 2]%float,
            unit_recon ds_two 1
              (mk_var ["a"; "b"] (mk_nd [2; 1] [2; 2]%float)));
           (mk_nd [2; 1] [10; 10]%float,
            unit_recon ds_two 1
              (mk_var ["a"; "b"] (mk_nd [2; 1] [10; 10]%float)))]).
Proof.
  apply (@calcR2X_global_after_init ds_two 1 (built ds_two 1)).
  - reflexivity.
  - lia.
  - reflexivity.
  - discriminate.
  - intros kv [<-|[<-|[]]]; discriminate.
Defined.
